(** * SysX cleaning subsystem: a shallow embedding and its specification

    The development follows the layout of the Python package:
    - [Py]          the fragment of the Python runtime the code relies on
                    (exceptions, [str] methods, [float], [dict]);
    - [Formatters]  [sysx/utils/formatters.py];
    - [Helpers]     [sysx/utils/helpers.py] over a model of the host
                    (file tree, standard input, external processes);
    - [Cleaner]     [sysx/modules/cleaner.py];
    - [Spec]        the vocabulary of the specification, [Demo] sample
                    hosts, and then the facts, the claims ([Claims]) and
                    their instances on the sample hosts ([Witnesses]).

    A [str] is modelled by [string], read as its sequence of code points
    below 256; a Python [int] by [Z]; a Python [float] by the binary64
    instance of [spec_float]. *)

From Stdlib Require Import ZArith List String Ascii Bool Lia.
From Stdlib Require Import SpecFloat DecimalString.
Import ListNotations.

Local Open Scope string_scope.
Local Open Scope Z_scope.

(* ================================================================== *)
(** * The Python runtime fragment *)
(* ================================================================== *)

Module Py.

(** Exceptions that can cross a function boundary in the modelled code.
    A class stands for its subclasses that no handler of the code names:
    [OSError] for [PermissionError] and the other errors of the operating
    system except [FileNotFoundError], [ValueError] for
    [UnicodeDecodeError].  [KeyboardInterrupt] is the one exception here
    that is not an [Exception]. *)
Inductive exn : Set :=
| ValueError
| TypeError
| OverflowError
| EOFError
| OSError
| KeyboardInterrupt.

(** Outcome of evaluating an expression that may raise. *)
Inductive result (A : Type) : Type :=
| Ok (a : A)
| Raise (e : exn).

Arguments Ok {A} a.
Arguments Raise {A} e.

(** ** [str] *)

Definition chr (n : nat) : string := String (ascii_of_nat n) EmptyString.

(** The line terminator written by [print]. *)
Definition nl : string := chr 10.

Definition code (c : ascii) : nat := nat_of_ascii c.

(** [str.isspace] on one character (code points below 256). *)
Definition is_space (c : ascii) : bool :=
  let n := code c in
  ((9 <=? n) && (n <=? 13) || (28 <=? n) && (n <=? 32)
   || (n =? 133) || (n =? 160))%nat.

(** [str.lower] and [str.upper] on one character.  The characters of the
    Latin-1 block whose upper case is not one character of the block do
    not occur in the texts [upper] is applied to and are left unchanged. *)
Definition lower_char (c : ascii) : ascii :=
  let n := code c in
  if ((65 <=? n) && (n <=? 90)
      || (192 <=? n) && (n <=? 222) && negb (n =? 215))%nat
  then ascii_of_nat (n + 32) else c.

Definition upper_char (c : ascii) : ascii :=
  let n := code c in
  if ((97 <=? n) && (n <=? 122)
      || (224 <=? n) && (n <=? 254) && negb (n =? 247))%nat
  then ascii_of_nat (n - 32) else c.

Fixpoint map_str (f : ascii -> ascii) (s : string) : string :=
  match s with
  | EmptyString => EmptyString
  | String c r => String (f c) (map_str f r)
  end.

Definition lower : string -> string := map_str lower_char.
Definition upper : string -> string := map_str upper_char.

Fixpoint rev_onto (s acc : string) : string :=
  match s with
  | EmptyString => acc
  | String c r => rev_onto r (String c acc)
  end.

Definition rev (s : string) : string := rev_onto s EmptyString.

Fixpoint lstrip (s : string) : string :=
  match s with
  | EmptyString => EmptyString
  | String c r => if is_space c then lstrip r else s
  end.

Definition rstrip (s : string) : string := rev (lstrip (rev s)).

(** [s.strip()] *)
Definition strip (s : string) : string := rstrip (lstrip s).

(** [s.endswith(suffix)] *)
Definition endswith (s suffix : string) : bool :=
  prefix (rev suffix) (rev s).

(** [s.endswith((x, y, ...))] *)
Definition endswith_any (s : string) (suffixes : list string) : bool :=
  existsb (endswith s) suffixes.

(** [c * n] for a one-character string [c]. *)
Fixpoint repeat_char (c : ascii) (n : nat) : string :=
  match n with
  | O => EmptyString
  | S k => String c (repeat_char c k)
  end.

(** [s.ljust(width)] *)
Definition ljust (s : string) (width : nat) : string :=
  s ++ repeat_char " " (width - String.length s).

(** [s.split()]: the maximal runs of non-space characters. *)
Fixpoint split_words (s : string) (word : string) : list string :=
  match s with
  | EmptyString =>
      match word with EmptyString => [] | _ => [rev word] end
  | String c r =>
      if is_space c
      then match word with
           | EmptyString => split_words r EmptyString
           | _ => rev word :: split_words r EmptyString
           end
      else split_words r (String c word)
  end.

Definition split (s : string) : list string := split_words s EmptyString.

(** Decimal numeral of a natural number (no sign, no padding). *)
Definition decimal (n : Z) : string :=
  NilZero.string_of_uint (N.to_uint (Z.to_N n)).

(** ** [float] *)

Definition prec : Z := 53.
Definition emax : Z := 1024.

Definition float : Set := spec_float.

Definition fdiv : float -> float -> float := SFdiv prec emax.
Definition flt : float -> float -> bool := SFltb.

(** The literal [1024.0]. *)
Definition f1024 : float := S754_finite false (2 ^ 52) (-42).

(** [num / den] rounded to the nearest integer, ties to even. *)
Definition round_half_even (num den : Z) : Z :=
  let q := num / den in
  let r := num mod den in
  match 2 * r ?= den with
  | Lt => q
  | Eq => if Z.even q then q else q + 1
  | Gt => q + 1
  end.

(** [float(n)] for a non-zero [int] of magnitude [p]: the nearest binary64
    value, ties to even, with a 53-bit significand; [OverflowError] when
    that value is not finite. *)
Definition float_of_pos (s : bool) (p : positive) : result float :=
  let n := Zpos p in
  let bits := Z.log2 n + 1 in
  if bits <=? prec
  then Ok (S754_finite s (Z.to_pos (n * 2 ^ (prec - bits))) (bits - prec))
  else
    let sh := bits - prec in
    let q := round_half_even n (2 ^ sh) in
    let '(m, e) := if q =? 2 ^ prec then (2 ^ (prec - 1), sh + 1)
                   else (q, sh) in
    if emax <? e + prec then Raise OverflowError
    else Ok (S754_finite s (Z.to_pos m) e).

Definition float_of_int (n : Z) : result float :=
  match n with
  | Z0 => Ok (S754_zero false)
  | Zpos p => float_of_pos false p
  | Zneg p => float_of_pos true p
  end.

(** Values a caller can hand to a function expecting a number. *)
Inductive value : Type :=
| PyInt (n : Z)
| PyFloat (x : float)
| PyStr (s : string)
| PyNone.

Section Float.

(** [float(s)] on a [str]: the parser of float literals of the Python
    runtime; [None] when the text is not a float literal. *)
Variable parse_float : string -> option float.

(** The builtin [float(v)]. *)
Definition to_float (v : value) : result float :=
  match v with
  | PyInt n => float_of_int n
  | PyFloat x => Ok x
  | PyStr s =>
      match parse_float s with
      | Some x => Ok x
      | None => Raise ValueError
      end
  | PyNone => Raise TypeError
  end.

End Float.

(** ** Format specification [.1f] *)

(** The magnitude [m * 2^e] in tenths, correctly rounded. *)
Definition tenths (m : positive) (e : Z) : Z :=
  if 0 <=? e then 10 * Zpos m * 2 ^ e
  else round_half_even (10 * Zpos m) (2 ^ (- e)).

Definition fixed1 (t : Z) : string :=
  decimal (t / 10) ++ "." ++ decimal (t mod 10).

Definition sign_str (s : bool) : string := if s then "-" else "".

(** [f"{x:.1f}"] *)
Definition format_1f (x : float) : string :=
  match x with
  | S754_nan => "nan"
  | S754_infinity s => sign_str s ++ "inf"
  | S754_zero s => sign_str s ++ "0.0"
  | S754_finite s m e => sign_str s ++ fixed1 (tenths m e)
  end.

(** ** [dict] with [str] keys, in insertion order *)

Definition dict (V : Type) : Type := list (string * V).

(** [k in d] *)
Fixpoint dict_mem {V} (k : string) (d : dict V) : bool :=
  match d with
  | [] => false
  | (k', _) :: r => if String.eqb k k' then true else dict_mem k r
  end.

(** [d.get(k)] *)
Fixpoint dict_get {V} (k : string) (d : dict V) : option V :=
  match d with
  | [] => None
  | (k', v) :: r => if String.eqb k k' then Some v else dict_get k r
  end.

(** [d[k] = v]: an existing key keeps its position. *)
Fixpoint dict_set {V} (k : string) (v : V) (d : dict V) : dict V :=
  match d with
  | [] => [(k, v)]
  | (k', v') :: r =>
      if String.eqb k k' then (k', v) :: r else (k', v') :: dict_set k v r
  end.

(** [d.values()] *)
Definition dict_values {V} (d : dict V) : list V := map snd d.

(** [sum(xs)] over [int]s. *)
Definition sum (xs : list Z) : Z := fold_left Z.add xs 0.

(** ** Further builtins, for the functions outside the cleaning session *)

(** [sep.join(parts)] *)
Fixpoint join (sep : string) (parts : list string) : string :=
  match parts with
  | [] => EmptyString
  | [p] => p
  | p :: rest => p ++ sep ++ join sep rest
  end.

(** [c in s] for a one-character [c]. *)
Fixpoint contains (c : ascii) (s : string) : bool :=
  match s with
  | EmptyString => false
  | String a r => Ascii.eqb a c || contains c r
  end.

(** [s.split(c, 1)] when [c] occurs in [s]: the text before the first
    [c] and the text after it. *)
Fixpoint split_once (c : ascii) (s : string) : string * string :=
  match s with
  | EmptyString => (EmptyString, EmptyString)
  | String a r =>
      if Ascii.eqb a c then (EmptyString, r)
      else let '(before, rest) := split_once c r in (String a before, rest)
  end.

(** [s.strip(c)] for a one-character [c]. *)
Fixpoint lstrip_char (c : ascii) (s : string) : string :=
  match s with
  | EmptyString => EmptyString
  | String a r => if Ascii.eqb a c then lstrip_char c r else s
  end.

Definition strip_char (c : ascii) (s : string) : string :=
  rev (lstrip_char c (rev (lstrip_char c s))).

(** The double quote character. *)
Definition quote : ascii := ascii_of_nat 34.

(** [str(n)] for an [int]. *)
Definition int_str (n : Z) : string :=
  if n <? 0 then "-" ++ decimal (- n) else decimal n.

(** [f"{n:02d}"] *)
Definition pad2 (n : Z) : string :=
  if n <? 0 then "-" ++ decimal (- n)
  else if n <? 10 then "0" ++ decimal n
  else decimal n.

(** [int(x)] for a [float]: truncation towards zero. *)
Definition int_of_float (x : float) : result Z :=
  match x with
  | S754_nan => Raise ValueError
  | S754_infinity _ => Raise OverflowError
  | S754_zero _ => Ok 0
  | S754_finite s m e =>
      let magnitude := if 0 <=? e then Zpos m * 2 ^ e
                       else Zpos m / 2 ^ (- e) in
      Ok (if s then - magnitude else magnitude)
  end.

Section Int.

(** [int(s)] on a [str]: the parser of integer literals of the Python
    runtime; [None] when the text is not an integer literal. *)
Variable parse_int : string -> option Z.

(** The builtin [int(v)]. *)
Definition to_int (v : value) : result Z :=
  match v with
  | PyInt n => Ok n
  | PyFloat x => int_of_float x
  | PyStr s =>
      match parse_int s with
      | Some n => Ok n
      | None => Raise ValueError
      end
  | PyNone => Raise TypeError
  end.

End Int.

Definition fmul : float -> float -> float := SFmul prec emax.

(** The literal [100] once converted for a product with a [float]. *)
Definition f100 : float := S754_finite false (100 * 2 ^ 46) (-46).

(** [x / y] on [float]s; [None] stands for [ZeroDivisionError]. *)
Definition true_div (x y : float) : option float :=
  match y with
  | S754_zero _ => None
  | _ => Some (fdiv x y)
  end.

(** [v == 0] *)
Definition equals_zero (v : value) : bool :=
  match v with
  | PyInt n => n =? 0
  | PyFloat (S754_zero _) => true
  | _ => false
  end.

End Py.

(* ================================================================== *)
(** * sysx/utils/formatters.py *)
(* ================================================================== *)

Module Formatters.
Import Py.

(** The text a call of [print(s)] writes. *)
Definition line (s : string) : string := s ++ nl.

(** [print_header(title)]: the two lines written. *)
Definition print_header (title : string) : list string :=
  [ line (nl ++ upper title);
    line (repeat_char "=" (String.length title)) ].

(** [print_subheader(title)] *)
Definition print_subheader (title : string) : list string :=
  [ line (nl ++ title);
    line (repeat_char "-" (String.length title)) ].

(** [print_key_value(key, value, key_width=20)] *)
Definition key_value (key value : string) : string :=
  ljust key 20 ++ ": " ++ value.

Definition print_key_value (key value : string) : list string :=
  [ line (key_value key value) ].

Definition units : list string := ["B"; "KB"; "MB"; "GB"; "TB"; "PB"].

(** The [for unit in ...] loop of [format_bytes] with its fall-through
    [return] for exabytes. *)
Fixpoint scale (us : list string) (x : float) : string :=
  match us with
  | [] => format_1f x ++ " EB"
  | u :: rest =>
      if flt x f1024 then format_1f x ++ " " ++ u
      else scale rest (fdiv x f1024)
  end.

Section FormatBytes.

Variable parse_float : string -> option float.

(** [format_bytes(bytes_val)] *)
Definition format_bytes (bytes_val : value) : result string :=
  match to_float parse_float bytes_val with
  | Ok x => Ok (scale units x)
  | Raise ValueError => Ok "0 B"
  | Raise TypeError => Ok "0 B"
  | Raise e => Raise e
  end.

End FormatBytes.

(** ** The other formatters *)

(** The widest text of column [i]: the header, then each row that has a
    cell there. *)
Definition column_width (rows : list (list string)) (i : nat)
    (header : string) : nat :=
  fold_left
    (fun max_width row =>
       match nth_error row i with
       | Some cell => Nat.max max_width (String.length cell)
       | None => max_width
       end)
    rows (String.length header).

(** The loop [for i in range(len(headers))] that computes [widths]. *)
Definition column_widths (headers : list string) (rows : list (list string))
  : list nat :=
  map (fun ih => column_width rows (fst ih) (snd ih))
      (combine (seq 0 (List.length headers)) headers).

(** The parts of one row: a cell padded to the width of its column, or
    blanks where the row has no cell; cells beyond the headers are not
    looked at. *)
Definition row_parts (widths : list nat) (row : list string) : list string :=
  map (fun iw =>
         match nth_error row (fst iw) with
         | Some cell => ljust cell (snd iw)
         | None => repeat_char " " (snd iw)
         end)
      (combine (seq 0 (List.length widths)) widths).

Definition header_parts (widths : list nat) (headers : list string)
  : list string :=
  map (fun hw => ljust (fst hw) (snd hw)) (combine headers widths).

(** [print_table(headers, rows, column_spacing=4)] on texts: the lines
    written. *)
Definition print_table (headers : list string) (rows : list (list string))
    (column_spacing : Z) : list string :=
  match rows with
  | [] => [line "No data available"]
  | _ =>
      let widths := column_widths headers rows in
      let gap := repeat_char " " (Z.to_nat column_spacing) in
      line (join gap (header_parts widths headers))
        :: map (fun row => line (join gap (row_parts widths row))) rows
  end.

(** The four numbers of [format_uptime]. *)
Definition uptime_fields (seconds : Z) : Z * Z * Z * Z :=
  let days := seconds / 86400 in
  let hours := (seconds mod 86400) / 3600 in
  let minutes := (seconds mod 3600) / 60 in
  let secs := seconds mod 60 in
  (days, hours, minutes, secs).

Definition clock (hours minutes secs : Z) : string :=
  pad2 hours ++ ":" ++ pad2 minutes ++ ":" ++ pad2 secs.

Section Conversions.

Variable parse_float : string -> option float.
Variable parse_int : string -> option Z.

(** [format_percentage(value, total)] *)
Definition format_percentage (value total : value) : result string :=
  if equals_zero total then Ok "0%"
  else
    match to_float parse_float value with
    | Ok x =>
        match to_float parse_float total with
        | Ok y =>
            match true_div x y with
            | Some q => Ok (format_1f (fmul q f100) ++ "%")
            | None => Ok "0%"
            end
        | Raise ValueError => Ok "0%"
        | Raise TypeError => Ok "0%"
        | Raise e => Raise e
        end
    | Raise ValueError => Ok "0%"
    | Raise TypeError => Ok "0%"
    | Raise e => Raise e
    end.

(** [format_uptime(seconds)] *)
Definition format_uptime (seconds : value) : result string :=
  match to_int parse_int seconds with
  | Ok seconds =>
      let '(days, hours, minutes, secs) := uptime_fields seconds in
      if 0 <? days
      then Ok (int_str days ++ " days, " ++ clock hours minutes secs)
      else Ok (clock hours minutes secs)
  | Raise ValueError => Ok "0:00:00"
  | Raise TypeError => Ok "0:00:00"
  | Raise e => Raise e
  end.

End Conversions.

End Formatters.

(* ================================================================== *)
(** * The host: file tree, standard streams, external processes *)
(* ================================================================== *)

Module Host.
Import Py.

(** An absolute path, as the list of its components below [/]. *)
Definition path : Set := list string.

(** The text of a path, as it appears inside a command line. *)
Definition path_str (p : path) : string :=
  match p with
  | [] => "/"
  | _ => fold_right (fun c rest => "/" ++ c ++ rest) "" p
  end.

(** The file tree as the process sees it.
    - [Leaf sz]: an entry that is not a directory; [sz] is what
      [os.path.getsize] reports for it, [None] when the probe raises
      [OSError] (permission denied, vanished entry, dangling link);
    - [Dir sz listable entries]: a directory; [listable] tells whether
      [os.scandir] succeeds on it;
    - [Symlink target]: a symbolic link together with what it resolves to. *)
#[local] Set Warnings "-register-all".
Inductive node : Type :=
| Leaf (st_size : option Z)
| Dir (st_size : Z) (listable : bool) (entries : list (string * node))
| Symlink (target : node).

(** [os.stat] follows symbolic links. *)
Fixpoint stat (n : node) : node :=
  match n with
  | Symlink t => stat t
  | _ => n
  end.

Definition is_dir (n : node) : bool :=
  match stat n with
  | Dir _ _ _ => true
  | _ => false
  end.

(** First entry called [name]. *)
Fixpoint entry (name : string) (es : list (string * node)) : option node :=
  match es with
  | [] => None
  | (k, n) :: rest => if String.eqb name k then Some n else entry name rest
  end.

(** Path resolution from a starting node; every component but the last is
    followed through symbolic links. *)
Fixpoint resolve (n : node) (p : path) : option node :=
  match p with
  | [] => Some n
  | c :: rest =>
      match stat n with
      | Dir _ _ es =>
          match entry c es with
          | Some child => resolve child rest
          | None => None
          end
      | _ => None
      end
  end.

(** [os.path.isdir(p)] *)
Definition isdir (root : node) (p : path) : bool :=
  match resolve root p with
  | Some n => is_dir n
  | None => false
  end.

(** [os.path.getsize(p)]; [None] stands for a raised [OSError]. *)
Definition getsize (root : node) (p : path) : option Z :=
  match resolve root p with
  | Some n =>
      match stat n with
      | Leaf sz => sz
      | Dir sz _ _ => Some sz
      | Symlink _ => None
      end
  | None => None
  end.

(** The names [os.walk] files under [dirnames] and [filenames]: an entry
    counts as a directory when it is one after following links. *)
Definition dirnames (es : list (string * node)) : list string :=
  map fst (filter (fun e => is_dir (snd e)) es).

Definition filenames (es : list (string * node)) : list string :=
  map fst (filter (fun e => negb (is_dir (snd e))) es).

(** One item of the [os.walk] generator: [(dirpath, dirnames, filenames)]. *)
Definition walk_item : Set := (path * list string * list string)%type.

(** [os.walk] below a directory node located at [top], with the defaults
    [topdown=True, onerror=None, followlinks=False]: a directory that cannot
    be listed yields nothing, and a directory reached through a symbolic
    link is named in [dirnames] but not descended into. *)
Fixpoint walk_dir (top : path) (n : node) {struct n} : list walk_item :=
  match n with
  | Dir _ true es =>
      (top, dirnames es, filenames es)
        :: flat_map (fun e =>
                       match snd e with
                       | Dir _ _ _ => walk_dir (top ++ [fst e])%list (snd e)
                       | _ => []
                       end) es
  | _ => []
  end.

(** The part of a walk that one entry of a directory contributes. *)
Definition walk_entry (top : path) (e : string * node) : list walk_item :=
  match snd e with
  | Dir _ _ _ => walk_dir (top ++ [fst e])%list (snd e)
  | _ => []
  end.

(** [os.walk(top)]: the starting path itself is opened through links. *)
Definition walk (root : node) (top : path) : list walk_item :=
  match resolve root top with
  | Some n => walk_dir top (stat n)
  | None => []
  end.

(** Names are unique inside every directory of the tree. *)
Fixpoint names_unique (names : list string) : bool :=
  match names with
  | [] => true
  | k :: rest =>
      negb (existsb (String.eqb k) rest) && names_unique rest
  end.

Fixpoint well_formed (n : node) : bool :=
  match n with
  | Leaf _ => true
  | Dir _ _ es =>
      names_unique (map fst es)
      && forallb (fun e => well_formed (snd e)) es
  | Symlink t => well_formed t
  end.

(** ** The state a session runs against *)

(** What the terminal hands to a pending [input()]: a line, without its
    terminator, or the interrupt key. *)
Inductive typed : Set :=
| Line (text : string)
| Interrupt.

Record world : Type := mkWorld {
  fs : node;              (* the file tree *)
  home : path;            (* [os.path.expanduser("~")] *)
  euid : Z;               (* [os.geteuid()] *)
  stdin : list typed      (* what standard input still holds *)
}.

(** What [subprocess.run] is asked to start. *)
Inductive command : Set :=
| Argv (args : list string)
| ShellLine (text : string).

(** How [subprocess.run(..., capture_output=True, text=True, timeout=10)]
    ends: it returns a completed process, or raises one of the three
    exceptions that [run_command] names in its handler, or raises another
    exception (the launch is refused, the output is not text, the user
    interrupts). *)
Inductive completion : Set :=
| Exited (returncode : Z) (stdout : string)
| TimeoutExpired
| SubprocessError
| FileNotFoundError
| Raised (e : exn).

(** Observable steps of a session. *)
Inductive event : Set :=
| Write (text : string)        (* text sent to standard output *)
| Read (text : string)         (* a line taken from standard input *)
| Spawn (c : command)          (* an external process was asked for *)
| Call (fname : string).       (* a cleaning action was entered *)

(** The behaviour of the operating system when a process is started. *)
Definition os : Type := command -> world -> world * completion.

(** ** Programs: state, trace and exceptions *)

Record run (A : Type) : Type := mkRun {
  trace : list event;
  final : world;
  outcome : result A
}.

Arguments mkRun {A} trace final outcome.
Arguments trace {A} r.
Arguments final {A} r.
Arguments outcome {A} r.

Definition prog (A : Type) : Type := world -> run A.

Definition ret {A} (a : A) : prog A :=
  fun w => mkRun [] w (Ok a).

Definition raise {A} (e : exn) : prog A :=
  fun w => mkRun [] w (Raise e).

Definition bind {A B} (m : prog A) (k : A -> prog B) : prog B :=
  fun w =>
    let r := m w in
    match outcome r with
    | Ok a =>
        let r' := k a (final r) in
        mkRun (trace r ++ trace r')%list (final r') (outcome r')
    | Raise e => mkRun (trace r) (final r) (Raise e)
    end.

Definition lift {A} (r : result A) : prog A :=
  match r with
  | Ok a => ret a
  | Raise e => raise e
  end.

Definition tell (e : event) : prog unit :=
  fun w => mkRun [e] w (Ok tt).

Definition gets {A} (f : world -> A) : prog A :=
  fun w => mkRun [] w (Ok (f w)).

Definition when (b : bool) (m : prog unit) : prog unit :=
  if b then m else ret tt.

(** [print(s)] and [print(s, end='')] *)
Definition print (s : string) : prog unit := tell (Write (s ++ nl)).
Definition print_noend (s : string) : prog unit := tell (Write s).

Fixpoint write_all (texts : list string) : prog unit :=
  match texts with
  | [] => ret tt
  | t :: rest => bind (tell (Write t)) (fun _ => write_all rest)
  end.

(** [try: m] followed by [except: pass]: the bare handler takes every
    exception. *)
Definition attempt (m : prog unit) : prog unit :=
  fun w =>
    let r := m w in
    match outcome r with
    | Ok _ => r
    | Raise _ => mkRun (trace r) (final r) (Ok tt)
    end.

(** [input()] *)
Definition input : prog string :=
  fun w =>
    match stdin w with
    | [] => mkRun [] w (Raise EOFError)
    | Line l :: rest =>
        mkRun [Read l] (mkWorld (fs w) (home w) (euid w) rest) (Ok l)
    | Interrupt :: rest =>
        mkRun [] (mkWorld (fs w) (home w) (euid w) rest)
              (Raise KeyboardInterrupt)
    end.

(** [subprocess.run(...)] under a given operating system: the process is
    asked for, and the way the call ends is handed to the [try] of
    [run_command], which sorts what it handles from what it lets through. *)
Definition subprocess_run (sys : os) (c : command) : prog completion :=
  fun w => let '(w', o) := sys c w in mkRun [Spawn c] w' (Ok o).

End Host.

Declare Scope prog_scope.
Delimit Scope prog_scope with prog.
Notation "x <- m ;; k" := (Host.bind m (fun x => k))
  (at level 61, m at next level, right associativity) : prog_scope.
Notation "m ;; k" := (Host.bind m (fun _ => k))
  (at level 61, right associativity) : prog_scope.

Local Open Scope prog_scope.

(* ================================================================== *)
(** * sysx/utils/helpers.py *)
(* ================================================================== *)

Module Helpers.
Import Py Host.

(** [dir_exists(dirpath)] *)
Definition dir_exists (root : node) (dirpath : path) : bool :=
  isdir root dirpath.

(** The inner loop of [get_dir_size]: one [os.path.getsize] per file name,
    a raised [OSError] skipping the entry. *)
Definition add_file_sizes (root : node) (dirpath_inner : path)
    (filenames : list string) (total_size : Z) : Z :=
  fold_left
    (fun total_size filename =>
       let filepath := (dirpath_inner ++ [filename])%list in
       match getsize root filepath with
       | Some sz => total_size + sz
       | None => total_size
       end)
    filenames total_size.

(** The outer loop of [get_dir_size] over the items of [os.walk]. *)
Definition add_walk_sizes (root : node) (items : list walk_item)
    (total_size : Z) : Z :=
  fold_left
    (fun total_size (item : walk_item) =>
       let '(dirpath_inner, _, filenames) := item in
       add_file_sizes root dirpath_inner filenames total_size)
    items total_size.

(** [get_dir_size(dirpath)].  [os.walk] reports no listing error to its
    caller, so the handler around the outer loop is never entered. *)
Definition get_dir_size (root : node) (dirpath : path) : Z :=
  add_walk_sizes root (walk root dirpath) 0.

(** [is_root()] *)
Definition is_root (w : world) : bool := euid w =? 0.

Section Processes.

Variable sys : os.

(** [run_command(command, shell=False)] for a [str] command: the handler
    names three exceptions, any other one goes on to the caller. *)
Definition run_command (command : string) (shell : bool)
  : prog (option string) :=
  let command := if shell then ShellLine command
                 else Argv (split command) in
  result <- subprocess_run sys command ;;
  match result with
  | Exited returncode stdout =>
      if returncode =? 0 then ret (Some (strip stdout)) else ret None
  | TimeoutExpired => ret None
  | SubprocessError => ret None
  | FileNotFoundError => ret None
  | Raised e => raise e
  end.

(** [command_exists(command)] *)
Definition command_exists (command : string) : prog bool :=
  found <- run_command ("which " ++ command) false ;;
  ret (match found with Some _ => true | None => false end).

End Processes.

(** ** [get_os_info] *)

(** One line of [/etc/os-release]: the key and the value it assigns, when
    the line holds an [=]. *)
Definition os_release_entry (line : string) : option (string * string) :=
  if contains "=" line
  then let '(key, value) := split_once "=" (strip line) in
       Some (key, strip_char quote value)
  else None.

(** The loop of [get_os_info] that fills [os_info]. *)
Definition parse_os_release (lines : list string) : dict string :=
  fold_left
    (fun os_info line =>
       match os_release_entry line with
       | Some (key, value) => dict_set key value os_info
       | None => os_info
       end)
    lines [].

(** [get_os_info()]: [lines] is what [readlines] returns for
    [/etc/os-release], [None] when opening or reading it raises [IOError];
    [system] and [release] are [platform.system()] and
    [platform.release()]. *)
Definition get_os_info (lines : option (list string))
    (system release : string) : string :=
  match lines with
  | Some lines =>
      let os_info := parse_os_release lines in
      match dict_get "PRETTY_NAME" os_info with
      | Some name => name
      | None =>
          match dict_get "NAME" os_info with
          | Some name => name
          | None => "Unknown"
          end
      end
  | None => system ++ " " ++ release
  end.

End Helpers.

(* ================================================================== *)
(** * sysx/modules/cleaner.py *)
(* ================================================================== *)

Module Cleaner.
Import Py Host Formatters Helpers.

(** The fixed locations. *)
Definition apt_cache : path := ["var"; "cache"; "apt"; "archives"].
Definition dnf_cache : path := ["var"; "cache"; "dnf"].
Definition yum_cache : path := ["var"; "cache"; "yum"].
Definition tmp : path := ["tmp"].
Definition var_tmp : path := ["var"; "tmp"].
Definition var_log : path := ["var"; "log"].
Definition journal_dir : path := ["var"; "log"; "journal"].
Definition user_cache (home : path) : path := (home ++ [".cache"])%list.
Definition thumbnail_cache (home : path) : path :=
  (home ++ [".cache"; "thumbnails"])%list.

Definition old_suffixes : list string := [".gz"; ".1"; ".2"; ".old"].

(** The loop of [scan_cleanable_items] over the files of one [os.walk]
    item, for the rotated logs. *)
Definition add_old_logs (root : node) (dir : path) (files : list string)
    (old_logs : Z) : Z :=
  fold_left
    (fun old_logs file =>
       if endswith_any file old_suffixes
       then match getsize root (dir ++ [file])%list with
            | Some sz => old_logs + sz
            | None => old_logs
            end
       else old_logs)
    files old_logs.

(** The loop of [scan_cleanable_items] over the items of [os.walk]. *)
Definition add_walk_old_logs (root : node) (items : list walk_item)
    (old_logs : Z) : Z :=
  fold_left
    (fun old_logs (item : walk_item) =>
       let '(dir, _, files) := item in
       add_old_logs root dir files old_logs)
    items old_logs.

Definition old_logs_size (root : node) : Z :=
  if dir_exists root var_log
  then add_walk_old_logs root (walk root var_log) 0
  else 0.

(** [scan_cleanable_items()]: it only reads the file tree.  The handlers
    of [PermissionError] around [get_dir_size] and around the walk of the
    logs guard calls that do not raise. *)
Definition scan_cleanable_items (w : world) : dict Z :=
  let root := fs w in
  let cleanable : dict Z := [] in
  let cleanable :=
    if dir_exists root apt_cache
    then dict_set "apt_cache" (get_dir_size root apt_cache) cleanable
    else cleanable in
  let cleanable :=
    if dir_exists root dnf_cache
    then dict_set "dnf_cache" (get_dir_size root dnf_cache) cleanable
    else if dir_exists root yum_cache
    then dict_set "yum_cache" (get_dir_size root yum_cache) cleanable
    else cleanable in
  let cleanable :=
    if dir_exists root (user_cache (home w))
    then dict_set "user_cache"
           (get_dir_size root (user_cache (home w))) cleanable
    else cleanable in
  let cleanable :=
    if dir_exists root (thumbnail_cache (home w))
    then dict_set "thumbnail_cache"
           (get_dir_size root (thumbnail_cache (home w))) cleanable
    else cleanable in
  let cleanable :=
    if dir_exists root tmp
    then dict_set "tmp" (get_dir_size root tmp) cleanable
    else cleanable in
  let cleanable :=
    if dir_exists root var_tmp
    then dict_set "var_tmp" (get_dir_size root var_tmp) cleanable
    else cleanable in
  let cleanable :=
    if dir_exists root var_log
    then dict_set "system_logs" (get_dir_size root var_log) cleanable
    else cleanable in
  let cleanable :=
    if dir_exists root journal_dir
    then dict_set "journal_logs" (get_dir_size root journal_dir) cleanable
    else cleanable in
  dict_set "old_logs" (old_logs_size root) cleanable.

Section Session.

Variable parse_float : string -> option float.
Variable sys : os.

(** One row of the summary: [if key in cleanable: print_key_value(...)]. *)
Definition show_row (cleanable : dict Z) (key label : string)
  : prog unit :=
  match dict_get key cleanable with
  | Some size =>
      text <- lift (format_bytes parse_float (PyInt size)) ;;
      write_all (print_key_value label text)
  | None => ret tt
  end.

(** [show_cleanable_summary(cleanable)] *)
Definition show_cleanable_summary (cleanable : dict Z) : prog unit :=
  write_all (print_subheader "Cache") ;;
  show_row cleanable "apt_cache" "APT Cache" ;;
  show_row cleanable "dnf_cache" "DNF Cache" ;;
  show_row cleanable "yum_cache" "YUM Cache" ;;
  show_row cleanable "user_cache" "User Cache" ;;
  show_row cleanable "thumbnail_cache" "Thumbnail Cache" ;;
  write_all (print_subheader "Logs") ;;
  show_row cleanable "system_logs" "System Logs" ;;
  show_row cleanable "journal_logs" "Journal Logs" ;;
  show_row cleanable "old_logs" "Old/Compressed Logs" ;;
  write_all (print_subheader "Temporary Files") ;;
  show_row cleanable "tmp" "/tmp" ;;
  show_row cleanable "var_tmp" "/var/tmp".

(** [clean_apt_cache()] *)
Definition clean_apt_cache : prog unit :=
  tell (Call "clean_apt_cache") ;;
  present <- command_exists sys "apt-get" ;;
  when present
    (print "Cleaning APT cache..." ;;
     _ <- run_command sys "apt-get clean" false ;;
     _ <- run_command sys "apt-get autoclean" false ;;
     print "APT cache cleaned").

(** [clean_dnf_cache()] *)
Definition clean_dnf_cache : prog unit :=
  tell (Call "clean_dnf_cache") ;;
  present <- command_exists sys "dnf" ;;
  when present
    (print "Cleaning DNF cache..." ;;
     _ <- run_command sys "dnf clean all" false ;;
     print "DNF cache cleaned").

(** [clean_yum_cache()] *)
Definition clean_yum_cache : prog unit :=
  tell (Call "clean_yum_cache") ;;
  present <- command_exists sys "yum" ;;
  when present
    (print "Cleaning YUM cache..." ;;
     _ <- run_command sys "yum clean all" false ;;
     print "YUM cache cleaned").

Definition safe_dirs : list string :=
  ["thumbnails"; "mozilla"; "chromium"; "google-chrome"].

(** The [for subdir in safe_dirs] loop of [clean_user_cache]. *)
Fixpoint clean_safe_dirs (cache_dir : path) (subdirs : list string)
  : prog unit :=
  match subdirs with
  | [] => ret tt
  | subdir :: rest =>
      let subdir_path := (cache_dir ++ [subdir])%list in
      present <- gets (fun w => dir_exists (fs w) subdir_path) ;;
      when present
        (attempt
           (_ <- run_command sys
                   ("rm -rf " ++ path_str subdir_path ++ "/*") true ;;
            ret tt)) ;;
      clean_safe_dirs cache_dir rest
  end.

(** [clean_user_cache()] *)
Definition clean_user_cache : prog unit :=
  tell (Call "clean_user_cache") ;;
  home <- gets home ;;
  let cache_dir := user_cache home in
  present <- gets (fun w => dir_exists (fs w) cache_dir) ;;
  when present
    (print "Cleaning user cache..." ;;
     clean_safe_dirs cache_dir safe_dirs ;;
     print "User cache cleaned").

(** [clean_journal_logs()] *)
Definition clean_journal_logs : prog unit :=
  tell (Call "clean_journal_logs") ;;
  present <- command_exists sys "journalctl" ;;
  when present
    (print "Cleaning journal logs (keeping last 3 days)..." ;;
     _ <- run_command sys "journalctl --vacuum-time=3d" false ;;
     print "Journal logs cleaned").

(** [clean_old_logs()] *)
Definition clean_old_logs : prog unit :=
  tell (Call "clean_old_logs") ;;
  present <- gets (fun w => dir_exists (fs w) var_log) ;;
  when present
    (print "Removing old compressed logs..." ;;
     _ <- run_command sys "find /var/log -type f -name '*.gz' -delete" true ;;
     _ <- run_command sys "find /var/log -type f -name '*.old' -delete" true ;;
     _ <- run_command sys "find /var/log -type f -name '*.1' -delete" true ;;
     _ <- run_command sys "find /var/log -type f -name '*.2' -delete" true ;;
     print "Old logs removed").

(** The cleaning operations of [perform_cleaning], one [if key in
    cleanable] after the other. *)
Definition run_actions (cleanable : dict Z) : prog unit :=
  when (dict_mem "apt_cache" cleanable) clean_apt_cache ;;
  when (dict_mem "dnf_cache" cleanable) clean_dnf_cache ;;
  when (dict_mem "yum_cache" cleanable) clean_yum_cache ;;
  when (dict_mem "user_cache" cleanable) clean_user_cache ;;
  when (dict_mem "journal_logs" cleanable) clean_journal_logs ;;
  when (dict_mem "old_logs" cleanable) clean_old_logs.

(** The rescan and the report that close [perform_cleaning]. *)
Definition report_freed (total : Z) : prog unit :=
  print (nl ++ "Rescanning...") ;;
  new_cleanable <- gets scan_cleanable_items ;;
  let new_total := sum (dict_values new_cleanable) in
  let freed := total - new_total in
  text <- lift (format_bytes parse_float (PyInt freed)) ;;
  write_all (print_key_value "Space Freed" text) ;;
  print "".

(** The cleaning proper: what [perform_cleaning] does once the answer
    is accepted. *)
Definition clean_and_report (cleanable : dict Z) (total : Z)
  : prog unit :=
  print (nl ++ "Starting cleanup..." ++ nl) ;;
  run_actions cleanable ;;
  print (nl ++ "Cleaning completed!") ;;
  report_freed total.

(** The confirmation: what [perform_cleaning] does after the summary
    when it is not a dry run. *)
Definition confirm_and_clean (cleanable : dict Z) (total : Z)
  : prog unit :=
  print_noend (nl ++ "Proceed with cleaning? (y/n): ") ;;
  line <- input ;;
  let response := lower (strip line) in
  if negb (String.eqb response "y")
  then print "Cleaning cancelled"
  else clean_and_report cleanable total.

(** [perform_cleaning(dry_run=False)] *)
Definition perform_cleaning (dry_run : bool) : prog unit :=
  when dry_run
    (print (nl ++ "DRY RUN MODE - No files will be deleted" ++ nl)) ;;
  root_user <- gets is_root ;;
  when (negb root_user && negb dry_run)
    (print (nl ++ "WARNING: Not running as root - some operations may fail") ;;
     print ("Run with sudo for complete system cleaning" ++ nl)) ;;
  write_all (print_header "System Cleaning") ;;
  print ("Scanning system for cleanable items..." ++ nl) ;;
  cleanable <- gets scan_cleanable_items ;;
  show_cleanable_summary cleanable ;;
  let total := sum (dict_values cleanable) in
  write_all (print_subheader "Summary") ;;
  text <- lift (format_bytes parse_float (PyInt total)) ;;
  write_all (print_key_value "Total Cleanable Space" text) ;;
  if dry_run
  then print (nl ++ "Dry run complete - no files were deleted")
  else confirm_and_clean cleanable total.

End Session.

End Cleaner.

(* ================================================================== *)
(** * sysx/cli.py *)
(* ================================================================== *)

Module Cli.
Import Py Host Formatters Cleaner.

(** How the process ends: the session, what [main] itself then writes to
    standard output and to standard error, and the exit status. *)
Record ending : Type := mkEnding {
  session : run unit;
  stdout : list string;
  stderr : list string;
  status : Z
}.

Section Main.

Variable parse_float : string -> option float.
Variable sys : os.

(** [str(e)] for an exception. *)
Variable message : exn -> string.

(** The [clean] command of [main()]: [perform_cleaning] under the handler
    of [KeyboardInterrupt] and the handler of [Exception]; a run that
    returns ends the process with status 0. *)
Definition main_clean (dry_run : bool) (w : world) : ending :=
  let r := perform_cleaning parse_float sys dry_run w in
  match outcome r with
  | Ok _ => mkEnding r [] [] 0
  | Raise KeyboardInterrupt =>
      mkEnding r [line (nl ++ nl ++ "Operation cancelled by user")] [] 130
  | Raise e => mkEnding r [] [line (nl ++ "Error: " ++ message e)] 1
  end.

End Main.

End Cli.

(* ================================================================== *)
(** * Vocabulary of the specification *)
(* ================================================================== *)

Module Spec.
Import Py Host Formatters Helpers Cleaner.

(** ** Directory sizes *)

(** What an entry that is not a directory adds to a size: the size of
    the file, or of the file a link names; nothing when the probe fails. *)
Definition file_size (n : node) : Z :=
  match stat n with
  | Leaf (Some sz) => sz
  | _ => 0
  end.

(** The sum of the sizes of the files reachable by walking a directory:
    the files of the directory and, recursively, of its sub-directories;
    links to directories are not entered and a directory that cannot be
    listed adds nothing. *)
Fixpoint reachable_size (n : node) {struct n} : Z :=
  match n with
  | Dir _ true es =>
      fold_right Z.add 0
        (map (fun e =>
                match snd e with
                | Dir _ _ _ => reachable_size (snd e)
                | child => if is_dir child then 0 else file_size child
                end) es)
  | _ => 0
  end.

(** The share of one entry in the size of its directory. *)
Definition entry_size (e : string * node) : Z :=
  match snd e with
  | Dir _ _ _ => reachable_size (snd e)
  | child => if is_dir child then 0 else file_size child
  end.

(** The size the specification assigns to a path. *)
Definition size_of (root : node) (d : path) : Z :=
  match resolve root d with
  | Some n => reachable_size (stat n)
  | None => 0
  end.

(** ** Categories *)

(** The path that defines each category other than the rotated logs. *)
Definition category_path (home : path) (key : string) : option path :=
  if String.eqb key "apt_cache" then Some apt_cache
  else if String.eqb key "dnf_cache" then Some dnf_cache
  else if String.eqb key "yum_cache" then Some yum_cache
  else if String.eqb key "user_cache" then Some (user_cache home)
  else if String.eqb key "thumbnail_cache" then Some (thumbnail_cache home)
  else if String.eqb key "tmp" then Some tmp
  else if String.eqb key "var_tmp" then Some var_tmp
  else if String.eqb key "system_logs" then Some var_log
  else if String.eqb key "journal_logs" then Some journal_dir
  else None.

(** One conditional entry of a snapshot: [if b: cleanable[k] = v]. *)
Definition put_if (b : bool) (k : string) (v : Z) (d : dict Z) : dict Z :=
  if b then dict_set k v d else d.

(** No file name met by the walk of [/var/log] has a rotated-log suffix. *)
Definition no_rotated_logs (root : node) : Prop :=
  Forall (fun item : walk_item =>
            Forall (fun file => endswith_any file old_suffixes = false)
                   (snd item))
         (walk root var_log).

(** The total of a snapshot. *)
Definition total (cleanable : dict Z) : Z := sum (dict_values cleanable).

(** ** Sessions *)

(** The cleaning actions a trace enters, in order. *)
Fixpoint calls (t : list event) : list string :=
  match t with
  | [] => []
  | Call f :: r => f :: calls r
  | _ :: r => calls r
  end.

(** The external processes a trace starts, in order. *)
Fixpoint spawns (t : list event) : list command :=
  match t with
  | [] => []
  | Spawn c :: r => c :: spawns r
  | _ :: r => spawns r
  end.

(** The text of the confirmation prompt. *)
Definition prompt : string := nl ++ "Proceed with cleaning? (y/n): ".

(** An event of a session that only reports: text other than the prompt
    and other than a freed-space report. *)
Definition report_only (e : event) : Prop :=
  match e with
  | Write text =>
      text <> prompt
      /\ forall v, text <> line (key_value "Space Freed" v)
  | _ => False
  end.

(** An event that neither enters a cleaning action nor starts a process. *)
Definition harmless (e : event) : Prop :=
  match e with
  | Call _ => False
  | Spawn _ => False
  | _ => True
  end.

(** An event other than the entry of a cleaning action. *)
Definition not_call (e : event) : Prop :=
  match e with
  | Call _ => False
  | _ => True
  end.

(** ** Properties of programs *)

(** Every event a program produces satisfies [P], whatever the outcome. *)
Definition emits {A} (P : event -> Prop) (m : prog A) : Prop :=
  forall w, Forall P (trace (m w)).

(** A program that leaves the world as it found it. *)
Definition keeps {A} (m : prog A) : Prop :=
  forall w, final (m w) = w.

(** A program that only reports. *)
Definition quiet {A} (m : prog A) : Prop :=
  keeps m /\ emits report_only m.

(** A program that enters the actions [names], in that order: all of
    them when it returns, an initial part of them when an exception cuts
    it short. *)
Definition enters {A} (names : list string) (m : prog A) : Prop :=
  forall w,
    match outcome (m w) with
    | Ok _ => calls (trace (m w)) = names
    | Raise _ => exists rest, names = (calls (trace (m w)) ++ rest)%list
    end.

(** A property of runs that survives a reporting prefix. *)
Definition prefix_closed {A} (Q : run A -> Prop) : Prop :=
  forall t r, Forall report_only t -> Q r ->
              Q (mkRun (t ++ trace r)%list (final r) (outcome r)).

(** The world once the first pending input line is consumed. *)
Definition after_input (w : world) : world :=
  mkWorld (fs w) (home w) (euid w) (tl (stdin w)).

(** The answer the orchestrator accepts. *)
Definition affirmative (response : string) : bool :=
  String.eqb (lower (strip response)) "y".

(** The session asked for confirmation and got an accepted answer. *)
Definition confirmed (t : list event) : Prop :=
  exists response, In (Read response) t /\ affirmative response = true.

(** The cleaning actions with the category each one serves, in the order
    of the orchestrator. *)
Definition actions : list (string * string) :=
  [ ("apt_cache", "clean_apt_cache");
    ("dnf_cache", "clean_dnf_cache");
    ("yum_cache", "clean_yum_cache");
    ("user_cache", "clean_user_cache");
    ("journal_logs", "clean_journal_logs");
    ("old_logs", "clean_old_logs") ].

Definition expected_calls (cleanable : dict Z) : list string :=
  map snd (filter (fun a => dict_mem (fst a) cleanable) actions).

(** The line of the final report. *)
Definition freed_line (text : string) : event :=
  Write (line (key_value "Space Freed" text)).

(** An event other than a line of the final report. *)
Definition not_report (e : event) : Prop :=
  forall text, e <> freed_line text.

(** The cleaning actions of a session on [w]: they run on the pre-snapshot
    and start from the world the answer leaves. *)
Definition actions_run (sys : os) (w : world) : run unit :=
  run_actions sys (scan_cleanable_items w) (after_input w).

(** The exception a completion lets out of [run_command], if any. *)
Definition escapes (o : completion) : option exn :=
  match o with
  | Raised e => Some e
  | _ => None
  end.

(** A process started in the trace [t] whose launch raises [e] outside
    the handler of [run_command]. *)
Definition launch_raises (sys : os) (t : list event) (e : exn) : Prop :=
  exists c w, In (Spawn c) t /\ snd (sys c w) = Raised e.

(** A program that raises nothing of its own: an exception that ends it
    was raised by the launch of a process it started. *)
Definition raises_launched {A} (sys : os) (m : prog A) : Prop :=
  forall w e, outcome (m w) = Raise e -> launch_raises sys (trace (m w)) e.

(** A byte count whose conversion to [float] is finite. *)
Definition finite_count (n : Z) : Prop := Z.abs n < 2 ^ 1023.

(** Every figure of the summary is finite. *)
Definition summary_fits (cleanable : dict Z) : Prop :=
  Forall finite_count (total cleanable :: dict_values cleanable).

(** A negative [float]. *)
Definition negative (x : float) : bool :=
  match x with
  | S754_finite s _ _ => s
  | S754_infinity s => s
  | _ => false
  end.

(** What a session does after the summary. *)
Definition after_summary (parse_float : string -> option float) (sys : os)
    (dry_run : bool) (w : world) : run unit :=
  (if dry_run
   then print (nl ++ "Dry run complete - no files were deleted")
   else confirm_and_clean parse_float sys (scan_cleanable_items w)
          (total (scan_cleanable_items w))) w.

(** The rendering of a negative count in plain bytes. *)
Definition unscaled (n : Z) : string := "-" ++ decimal (- n) ++ ".0 B".

(** The cleaning actions that depend on an external tool. *)
Inductive tool_gated (sys : os) : string -> string -> prog unit -> Prop :=
| gated_apt :
    tool_gated sys "apt-get" "clean_apt_cache" (clean_apt_cache sys)
| gated_dnf :
    tool_gated sys "dnf" "clean_dnf_cache" (clean_dnf_cache sys)
| gated_yum :
    tool_gated sys "yum" "clean_yum_cache" (clean_yum_cache sys)
| gated_journal :
    tool_gated sys "journalctl" "clean_journal_logs" (clean_journal_logs sys).

(** ** Vocabulary for the functions outside the claims *)

(** A significand of exactly 53 bits. *)
Definition canonical53 (m : positive) : Prop := 2 ^ 52 <= Zpos m < 2 ^ 53.

(** The number of divisions by 1024 a value of exponent [e] goes through. *)
Definition divisions (e : Z) : nat := Z.to_nat ((e + 52) / 10).

(** The keys of a snapshot, in the order they are set. *)
Definition category_keys : list string :=
  [ "apt_cache"; "dnf_cache"; "yum_cache"; "user_cache"; "thumbnail_cache";
    "tmp"; "var_tmp"; "system_logs"; "journal_logs"; "old_logs" ].

(** No size reported in the tree is negative. *)
Fixpoint sizes_nonneg (n : node) : bool :=
  match n with
  | Leaf (Some sz) => 0 <=? sz
  | Leaf None => true
  | Dir sz _ es => (0 <=? sz) && forallb (fun e => sizes_nonneg (snd e)) es
  | Symlink t => sizes_nonneg t
  end.

(** The key a line of [/etc/os-release] assigns. *)
Definition assigns (key line : string) : bool :=
  match os_release_entry line with
  | Some (k, _) => String.eqb k key
  | None => false
  end.

(** The command that empties one sub-directory of the user cache. *)
Definition empty_dir_command (home : path) (subdir : string) : command :=
  ShellLine ("rm -rf " ++ path_str (user_cache home ++ [subdir])%list ++ "/*").

(** The command that deletes the logs with one suffix. *)
Definition delete_logs_command (suffix : string) : command :=
  ShellLine ("find /var/log -type f -name '*" ++ suffix ++ "' -delete").

(** The commands of [clean_old_logs], in the order it starts them. *)
Definition delete_logs_commands : list command :=
  map delete_logs_command [".gz"; ".old"; ".1"; ".2"].

(** A command that starts one of the package or journal tools. *)
Definition starts_tool (c : command) : bool :=
  match c with
  | Argv (tool :: _) =>
      existsb (String.eqb tool) ["apt-get"; "dnf"; "yum"; "journalctl"]
  | _ => false
  end.

(** A text as it stands in a column of a table: whole, then blanks up to
    the width of the column. *)
Definition padded (text : string) (width : nat) (part : string) : Prop :=
  String.length part = width
  /\ exists blanks, part = text ++ repeat_char " " blanks.

(** The length every line of a table has, its terminator included. *)
Definition table_line_length (headers : list string)
    (rows : list (list string)) (column_spacing : Z) : nat :=
  S (list_sum (column_widths headers rows)
     + Z.to_nat column_spacing * (List.length headers - 1)).

(** The rows of the summary: the key of each category with its label. *)
Definition row_labels : list (string * string) :=
  [ ("apt_cache", "APT Cache"); ("dnf_cache", "DNF Cache");
    ("yum_cache", "YUM Cache"); ("user_cache", "User Cache");
    ("thumbnail_cache", "Thumbnail Cache");
    ("system_logs", "System Logs"); ("journal_logs", "Journal Logs");
    ("old_logs", "Old/Compressed Logs");
    ("tmp", "/tmp"); ("var_tmp", "/var/tmp") ].

(** What one row of the summary writes. *)
Definition row_events (parse_float : string -> option float)
    (cleanable : dict Z) (key label : string) : list event :=
  match dict_get key cleanable with
  | Some size =>
      match format_bytes parse_float (PyInt size) with
      | Ok text => [Write (line (key_value label text))]
      | Raise _ => []
      end
  | None => []
  end.

End Spec.

(* ================================================================== *)
(** * Sample hosts *)
(* ================================================================== *)

Module Demo.
Import Py Host Formatters Helpers Cleaner Spec.

(** A runtime in which no text is a float literal. *)
Definition no_literal (s : string) : option float := None.

Definition dir (es : list (string * node)) : node := Dir 4096 true es.

(** A Debian-like host: a package cache with one archive and a lock file
    that cannot be probed, and a scratch file under [/tmp]. *)
Definition before : node :=
  dir [ ("var", dir [ ("cache", dir [ ("apt", dir [ ("archives",
          dir [ ("a.deb", Leaf (Some 380000000)); ("lock", Leaf None) ]) ]) ]) ]);
        ("tmp", dir [ ("scratch", Leaf (Some 120000000)) ]) ].

(** The same host once the package cache is purged. *)
Definition after : node :=
  dir [ ("var", dir [ ("cache", dir [ ("apt", dir [ ("archives",
          dir [ ("lock", Leaf None) ]) ]) ]) ]);
        ("tmp", dir [ ("scratch", Leaf (Some 120000000)) ]) ].

(** The same host when, meanwhile, the scratch file has grown. *)
Definition grown : node :=
  dir [ ("var", dir [ ("cache", dir [ ("apt", dir [ ("archives",
          dir [ ("lock", Leaf None) ]) ]) ]) ]);
        ("tmp", dir [ ("scratch", Leaf (Some 620000000)) ]) ].

(** An operating system on which only [apt-get] is installed and whose
    [apt-get clean] leaves the file tree [cleaned]. *)
Definition apt_only (cleaned : node) : os :=
  fun c w =>
    match c with
    | Argv ["which"; tool] =>
        (w, if String.eqb tool "apt-get"
            then Exited 0 ("/usr/bin/apt-get" ++ nl)
            else Exited 1 "")
    | Argv ["apt-get"; "clean"] =>
        (mkWorld cleaned (home w) (euid w) (stdin w), Exited 0 "")
    | _ => (w, Exited 0 "")
    end.

(** The host with one pending answer on standard input. *)
Definition host (answer : string) : world :=
  mkWorld before ["root"] 0 [Line answer].

(** A host with both a DNF and a YUM cache, a user cache, logs with
    rotated files, a directory that cannot be listed and a linked
    directory. *)
Definition fedora : node :=
  dir [ ("var", dir
          [ ("cache", dir [ ("dnf", dir [ ("meta", dir [ ("repo", Leaf (Some 40)) ]) ]);
                            ("yum", dir [ ("x", Leaf (Some 7)) ]) ]);
            ("log", dir [ ("syslog", Leaf (Some 1000));
                          ("syslog.1", Leaf (Some 2000));
                          ("boot.log.gz", Leaf (Some 300));
                          ("gone.old", Leaf None);
                          ("journal", dir [ ("system.journal", Leaf (Some 5)) ]);
                          ("private", Dir 4096 false [ ("audit.old", Leaf (Some 9)) ]) ]);
            ("tmp", Symlink (dir [ ("t", Leaf (Some 11)) ])) ]);
        ("home", dir [ ("u", dir [ (".cache", dir
            [ ("thumbnails", dir [ ("t.png", Leaf (Some 30)) ]);
              ("state", Symlink (Leaf (Some 170))) ]) ]) ]) ].

Definition fedora_host : world := mkWorld fedora ["home"; "u"] 1000 [].

(** A runtime that reads the text [0] as the float zero and nothing else. *)
Definition zero_literal (s : string) : option float :=
  if String.eqb s "0" then Some (S754_zero false) else None.

(** A runtime in which no text is an integer literal. *)
Definition no_int_literal (s : string) : option Z := None.

(** An [/etc/os-release] with a commented line, a repeated key and a
    value that holds an [=]. *)
Definition os_release : list string :=
  [ "# generated" ++ nl;
    "NAME=" ++ String quote ("Fedora Linux" ++ String quote nl);
    "PRETTY_NAME=old" ++ nl;
    "PRETTY_NAME=" ++ String quote ("Fedora Linux 40 (a=b)" ++ String quote nl);
    "ID=fedora" ++ nl ].

(** An operating system without [which], on which every other command
    succeeds. *)
Definition no_which : os :=
  fun c w =>
    match c with
    | Argv ("which" :: _) => (w, FileNotFoundError)
    | _ => (w, Exited 0 "")
    end.

(** A user on the [fedora] host, answering [y]. *)
Definition fedora_user : world :=
  mkWorld fedora ["home"; "u"] 1000 [Line "y"].

(** The texts of exceptions. *)
Definition message (e : exn) : string :=
  match e with
  | EOFError => "EOF when reading a line"
  | OverflowError => "int too large to convert to float"
  | ValueError => "invalid value"
  | TypeError => "invalid type"
  | OSError => "[Errno 13] Permission denied: 'which'"
  | KeyboardInterrupt => ""
  end.

(** An operating system that refuses to start [which]: no directory of
    [PATH] holds it and one of them cannot be searched, so the launch
    raises [PermissionError]; every other command succeeds. *)
Definition no_permission : os :=
  fun c w =>
    match c with
    | Argv ("which" :: _) => (w, Raised OSError)
    | _ => (w, Exited 0 "")
    end.

(** An operating system with no process left for the third [find] of the
    old logs: that launch raises [OSError]; the other commands succeed. *)
Definition third_find_refused : os :=
  fun c w =>
    match c with
    | ShellLine text =>
        (w, if String.eqb text "find /var/log -type f -name '*.1' -delete"
            then Raised OSError else Exited 0 "")
    | _ => (w, Exited 0 "")
    end.


End Demo.

(* ================================================================== *)
(** * Facts about the runtime fragment and the formatter *)
(* ================================================================== *)

Module PyFacts.
Import Py Formatters Spec.

(** [float_of_int] agrees with the rounding of [SpecFloat] on counts
    that convert exactly, on ties and near the overflow threshold. *)
Example float_of_int_rounds :
  map float_of_int
      [1024; 380000000; -7; 2 ^ 53 + 1; 2 ^ 53 + 3; 2 ^ 54 - 1;
       2 ^ 1024 - 2 ^ 970 - 1]
  = map (fun n => Ok (binary_normalize prec emax n 0 false))
      [1024; 380000000; -7; 2 ^ 53 + 1; 2 ^ 53 + 3; 2 ^ 54 - 1;
       2 ^ 1024 - 2 ^ 970 - 1].
Proof. vm_compute. reflexivity. Qed.

Example float_of_int_overflows :
  float_of_int (2 ^ 1024 - 2 ^ 970) = Raise OverflowError
  /\ binary_normalize prec emax (2 ^ 1024 - 2 ^ 970) 0 false
     = S754_infinity false.
Proof. split; vm_compute; reflexivity. Qed.

Example format_bytes_samples :
  map (format_bytes Demo.no_literal)
      [PyInt 0; PyInt 1023; PyInt 1024; PyInt 1536; PyInt 1075;
       PyInt (2 ^ 80); PyFloat S754_nan; PyNone]
  = map Ok ["0.0 B"; "1023.0 B"; "1.0 KB"; "1.5 KB"; "1.0 KB";
            "1048576.0 EB"; "nan EB"; "0 B"].
Proof. vm_compute. reflexivity. Qed.

Lemma append_assoc (a b c : string) : (a ++ b) ++ c = a ++ (b ++ c).
Proof.
  induction a as [|ch a IH]; simpl; [reflexivity | now rewrite IH].
Qed.

Lemma flt_negative (x : float) :
  negative x = true -> flt x f1024 = true.
Proof.
  destruct x as [s|s| |s m e]; simpl; intros H; try discriminate;
    subst; reflexivity.
Qed.

Lemma scale_negative (x : float) :
  negative x = true -> scale units x = format_1f x ++ " B".
Proof.
  intros H. unfold units. simpl. now rewrite (flt_negative x H).
Qed.

Lemma float_of_pos_finite (s : bool) (p : positive) (x : float) :
  float_of_pos s p = Ok x -> exists m e, x = S754_finite s m e.
Proof.
  unfold float_of_pos.
  destruct (Z.log2 (Zpos p) + 1 <=? prec).
  - intros [= <-]. eauto.
  - destruct (round_half_even _ _ =? 2 ^ prec);
      match goal with |- context [emax <? ?a] => destruct (emax <? a) end;
      intros [= <-] || discriminate; eauto.
Qed.

Lemma float_of_int_negative (n : Z) (x : float) :
  n < 0 -> float_of_int n = Ok x -> negative x = true.
Proof.
  destruct n as [|p|p]; try lia. intros _ H.
  destruct (float_of_pos_finite _ _ _ H) as (m & e & ->). reflexivity.
Qed.

Lemma round_exact (a k : Z) :
  0 < k -> round_half_even (a * k) k = a.
Proof.
  intros Hk. unfold round_half_even.
  rewrite Z.div_mul, Z.mod_mul by lia.
  destruct (Z.compare_spec (2 * 0) k); [lia | reflexivity | lia].
Qed.

(** Integers of at most 53 bits, and [2^53] itself, convert exactly. *)
Lemma float_of_pos_exact (s : bool) (p : positive) :
  Zpos p <= 2 ^ 53 ->
  exists m e, float_of_pos s p = Ok (S754_finite s m e)
              /\ tenths m e = 10 * Zpos p.
Proof.
  intros Hp. unfold float_of_pos.
  pose proof (Z.log2_spec (Zpos p) eq_refl) as [Hlo Hhi].
  pose proof (Z.log2_nonneg (Zpos p)) as Hnn.
  destruct (Z.log2 (Zpos p) + 1 <=? prec) eqn:Hbits.
  - apply Z.leb_le in Hbits. unfold prec in *.
    set (k := 53 - (Z.log2 (Zpos p) + 1)) in *.
    assert (Hk : 0 <= k) by (unfold k; lia).
    assert (Hpow : 0 < 2 ^ k) by (apply Z.pow_pos_nonneg; lia).
    do 2 eexists. split; [reflexivity|].
    unfold tenths. rewrite Z2Pos.id by nia.
    replace (Z.log2 (Zpos p) + 1 - 53) with (- k) by (unfold k; lia).
    destruct (0 <=? - k) eqn:Hz.
    + apply Z.leb_le in Hz. assert (k = 0) as -> by lia.
      simpl (- 0). rewrite Z.pow_0_r. lia.
    + rewrite Z.opp_involutive, Z.mul_assoc. now apply round_exact.
  - apply Z.leb_gt in Hbits. unfold prec in Hbits.
    assert (H53 : 53 <= Z.log2 (Zpos p)) by lia.
    apply Z.log2_le_pow2 in H53; [|lia].
    assert (Heq : Zpos p = 2 ^ 53) by lia.
    change (2 ^ 53) with 9007199254740992 in Heq.
    injection Heq as ->. do 2 eexists. split; reflexivity.
Qed.

Lemma fixed1_tenfold (a : Z) :
  0 <= a -> fixed1 (10 * a) = decimal a ++ ".0".
Proof.
  intros _. unfold fixed1.
  rewrite (Z.mul_comm 10 a), Z.div_mul, Z.mod_mul by lia. reflexivity.
Qed.

Lemma format_negative_int (parse_float : string -> option float) (n : Z) :
  - 2 ^ 53 <= n < 0 ->
  format_bytes parse_float (PyInt n)
  = Ok ("-" ++ decimal (- n) ++ ".0 B").
Proof.
  intros [Hlo Hneg]. destruct n as [|p|p]; try lia.
  assert (Hp : Zpos p <= 2 ^ 53) by lia.
  destruct (float_of_pos_exact true p Hp) as (m & e & Hf & Ht).
  unfold format_bytes, to_float, float_of_int. rewrite Hf.
  rewrite scale_negative by reflexivity.
  unfold format_1f. rewrite Ht, fixed1_tenfold by lia.
  simpl sign_str. simpl (- Z.neg p).
  now rewrite !append_assoc.
Qed.

End PyFacts.

(* ================================================================== *)
(** * Facts about the file tree and the directory scanner *)
(* ================================================================== *)

Module TreeFacts.
Import Py Host Helpers Spec.

(** Induction over a file tree, with the hypothesis available for every
    entry of a directory. *)
Lemma node_induction (P : node -> Prop)
  (HLeaf : forall sz, P (Leaf sz))
  (HDir : forall sz l es, Forall (fun e => P (snd e)) es -> P (Dir sz l es))
  (HLink : forall t, P t -> P (Symlink t)) :
  forall n, P n.
Proof.
  fix IH 1. intros [sz|sz l es|t].
  - apply HLeaf.
  - apply HDir. induction es as [|e es IHes]; constructor.
    + apply IH.
    + exact IHes.
  - apply HLink, IH.
Qed.

Lemma well_formed_stat (n : node) :
  well_formed n = true -> well_formed (stat n) = true.
Proof.
  induction n using node_induction; simpl; auto.
Qed.

Lemma well_formed_entry (es : list (string * node)) (k : string) (c : node) :
  forallb (fun e => well_formed (snd e)) es = true ->
  entry k es = Some c -> well_formed c = true.
Proof.
  induction es as [|[k' c'] es IH]; simpl; [discriminate|].
  intros Hall. apply andb_prop in Hall as [Hc Hes].
  destruct (String.eqb k k').
  - now intros [= <-].
  - now apply IH.
Qed.

Lemma well_formed_resolve (p : path) :
  forall n m, well_formed n = true -> resolve n p = Some m ->
              well_formed m = true.
Proof.
  induction p as [|c p IH]; simpl; intros n m Hn.
  - now intros [= <-].
  - pose proof (well_formed_stat n Hn) as Hs.
    destruct (stat n) as [sz|sz l es|t]; try discriminate.
    simpl in Hs. apply andb_prop in Hs as [_ Hes].
    destruct (entry c es) as [child|] eqn:Hc; [|discriminate].
    apply IH. eapply well_formed_entry; eauto.
Qed.

Lemma resolve_app (p q : path) :
  forall n, resolve n (p ++ q)%list
            = match resolve n p with
              | Some m => resolve m q
              | None => None
              end.
Proof.
  induction p as [|c p IH]; simpl; intros n; [reflexivity|].
  destruct (stat n) as [sz|sz l es|t]; try reflexivity.
  destruct (entry c es); [apply IH | reflexivity].
Qed.

(** In a directory without repeated names, a name designates its entry. *)
Lemma entry_unique (es : list (string * node)) (k : string) (c : node) :
  names_unique (map fst es) = true -> In (k, c) es -> entry k es = Some c.
Proof.
  induction es as [|[k' c'] es IH]; simpl; [tauto|].
  intros Hu. apply andb_prop in Hu as [Hk Hes].
  intros [[= -> ->]|Hin].
  - now rewrite String.eqb_refl.
  - destruct (String.eqb k k') eqn:Heq; [|now apply IH].
    apply String.eqb_eq in Heq. subst k'.
    apply negb_true_iff in Hk.
    assert (Hex : existsb (String.eqb k) (map fst es) = true).
    { apply existsb_exists. exists k. split.
      - change k with (fst (k, c)). now apply in_map.
      - apply String.eqb_refl. }
    congruence.
Qed.

(** ** Sums *)

Lemma add_file_sizes_acc (root : node) (d : path) (names : list string) :
  forall acc, add_file_sizes root d names acc
              = acc + add_file_sizes root d names 0.
Proof.
  unfold add_file_sizes.
  induction names as [|f names IH]; simpl; intros acc; [lia|].
  rewrite IH. rewrite (IH (match _ with Some _ => _ | None => 0 end)).
  destruct (getsize root (d ++ [f])%list); lia.
Qed.

Lemma add_walk_sizes_acc (root : node) (items : list walk_item) :
  forall acc, add_walk_sizes root items acc
              = acc + add_walk_sizes root items 0.
Proof.
  unfold add_walk_sizes.
  induction items as [|[[d ds] names] items IH]; simpl; intros acc; [lia|].
  rewrite IH. rewrite (IH (add_file_sizes root d names 0)).
  rewrite (add_file_sizes_acc root d names acc). lia.
Qed.

Lemma add_walk_sizes_cons (root : node) (d : path) (ds names : list string)
    (items : list walk_item) :
  add_walk_sizes root ((d, ds, names) :: items) 0
  = add_file_sizes root d names 0 + add_walk_sizes root items 0.
Proof.
  change (add_walk_sizes root ((d, ds, names) :: items) 0)
    with (add_walk_sizes root items (add_file_sizes root d names 0)).
  apply add_walk_sizes_acc.
Qed.

Lemma add_walk_sizes_app (root : node) (xs ys : list walk_item) :
  add_walk_sizes root (xs ++ ys)%list 0
  = add_walk_sizes root xs 0 + add_walk_sizes root ys 0.
Proof.
  unfold add_walk_sizes at 1. rewrite fold_left_app.
  apply add_walk_sizes_acc.
Qed.

End TreeFacts.

Module ScannerFacts.
Import Py Host Helpers Spec TreeFacts.

Lemma walk_dir_listable (top : path) (sz : Z) (es : list (string * node)) :
  walk_dir top (Dir sz true es)
  = (top, dirnames es, filenames es) :: flat_map (walk_entry top) es.
Proof. reflexivity. Qed.

Lemma reachable_size_dir (sz : Z) (es : list (string * node)) :
  reachable_size (Dir sz true es) = fold_right Z.add 0 (map entry_size es).
Proof. reflexivity. Qed.

(** The probe of a file by its path inside a resolved directory. *)
Lemma getsize_entry (root : node) (top : path) (n0 : node)
    (sz : Z) (l : bool) (es : list (string * node)) (k : string) (c : node) :
  resolve root top = Some n0 -> stat n0 = Dir sz l es ->
  entry k es = Some c -> is_dir c = false ->
  match getsize root (top ++ [k])%list with
  | Some s => s
  | None => 0
  end = file_size c.
Proof.
  intros Htop Hstat Hentry Hfile.
  unfold getsize. rewrite resolve_app, Htop. simpl.
  rewrite Hstat, Hentry. unfold file_size, is_dir in *.
  destruct (stat c) as [[s|]|? ? ?|t] eqn:Hc; try reflexivity; try discriminate.
Qed.

Lemma resolve_entry (root : node) (top : path) (n0 : node)
    (sz : Z) (l : bool) (es : list (string * node)) (k : string) (c : node) :
  resolve root top = Some n0 -> stat n0 = Dir sz l es ->
  entry k es = Some c ->
  resolve root (top ++ [k])%list = Some c.
Proof.
  intros Htop Hstat Hentry. rewrite resolve_app, Htop. simpl.
  now rewrite Hstat, Hentry.
Qed.

Section Directory.

Variable root : node.
Variables (top : path) (n0 : node) (sz : Z) (es : list (string * node)).
Hypothesis Htop : resolve root top = Some n0.
Hypothesis Hstat : stat n0 = Dir sz true es.
Hypothesis Huniq : names_unique (map fst es) = true.

(** The files of a directory and the walks of its sub-directories add
    up to the shares of its entries. *)
Lemma entries_size (es' : list (string * node)) :
  incl es' es ->
  Forall (fun e =>
            forall top' n', well_formed (snd e) = true ->
              resolve root top' = Some n' -> stat n' = snd e ->
              add_walk_sizes root (walk_dir top' (snd e)) 0
              = reachable_size (snd e)) es' ->
  forallb (fun e => well_formed (snd e)) es' = true ->
  add_file_sizes root top (filenames es') 0
  + add_walk_sizes root (flat_map (walk_entry top) es') 0
  = fold_right Z.add 0 (map entry_size es').
Proof.
  induction es' as [|[k c] es' IHes]; intros Hsub IH Hall; [reflexivity|].
  inversion IH as [|? ? Hc IH']; subst. simpl in Hc.
  simpl in Hall. apply andb_prop in Hall as [Hwfc Hall].
  assert (Hentry : entry k es = Some c).
  { apply entry_unique; [exact Huniq | apply Hsub; now left]. }
  assert (Hsub' : incl es' es) by (intros e He; apply Hsub; now right).
  specialize (IHes Hsub' IH' Hall).
  simpl map. simpl fold_right. rewrite <- IHes. clear IHes.
  simpl flat_map. rewrite add_walk_sizes_app.
  unfold filenames, entry_size, walk_entry.
  simpl filter. simpl snd. simpl fst.
  destruct (is_dir c) eqn:Hdir; simpl negb; cbv iota.
  - destruct c as [s|s' l' es''|t].
    + discriminate.
    + rewrite (Hc (top ++ [k])%list (Dir s' l' es'') Hwfc).
      * lia.
      * eapply resolve_entry; eauto.
      * reflexivity.
    + rewrite Hdir. change (add_walk_sizes root [] 0) with 0. lia.
  - pose proof (getsize_entry root top n0 sz true es k c
                  Htop Hstat Hentry Hdir) as Hsize.
    assert (Hc' : match c with
                  | Dir _ _ _ => False
                  | _ => True
                  end) by (destruct c; try exact I; discriminate).
    simpl map.
    change (add_file_sizes root top (k :: ?r) 0)
      with (add_file_sizes root top r
              (match getsize root (top ++ [k])%list with
               | Some s => 0 + s
               | None => 0
               end)).
    rewrite add_file_sizes_acc.
    destruct c as [s|s' l' es''|t]; try contradiction;
      rewrite ?Hdir; change (add_walk_sizes root [] 0) with 0;
      destruct (getsize root (top ++ [k])%list); rewrite <- Hsize; lia.
Qed.

End Directory.

(** The walk below a directory adds up to the reachable size. *)
Lemma walk_dir_size (root : node) :
  forall n top n0,
    well_formed n = true ->
    resolve root top = Some n0 -> stat n0 = n ->
    add_walk_sizes root (walk_dir top n) 0 = reachable_size n.
Proof.
  induction n as [sz|sz l es IH|t IH] using node_induction;
    intros top n0 Hwf Htop Hstat; try reflexivity.
  destruct l; [|reflexivity].
  simpl in Hwf. apply andb_prop in Hwf as [Huniq Hall].
  rewrite reachable_size_dir, walk_dir_listable, add_walk_sizes_cons.
  eapply entries_size; eauto. apply incl_refl.
Qed.

End ScannerFacts.

(* ================================================================== *)
(** * Facts about programs *)
(* ================================================================== *)

Module ProgFacts.
Import Py Host Spec.

(** ** One step of [bind] *)

Lemma bind_ok {A B} (m : prog A) (k : A -> prog B) (w : world) (a : A) :
  outcome (m w) = Ok a ->
  bind m k w
  = mkRun (trace (m w) ++ trace (k a (final (m w))))%list
          (final (k a (final (m w)))) (outcome (k a (final (m w)))).
Proof. unfold bind. now intros ->. Qed.

Lemma bind_raise {A B} (m : prog A) (k : A -> prog B) (w : world) (e : exn) :
  outcome (m w) = Raise e ->
  bind m k w = mkRun (trace (m w)) (final (m w)) (Raise e).
Proof. unfold bind. now intros ->. Qed.

Lemma bind_outcome_raise {A B} (m : prog A) (k : A -> prog B)
    (w : world) (e : exn) :
  outcome (bind m k w) = Raise e ->
  outcome (m w) = Raise e
  \/ exists a, outcome (m w) = Ok a
               /\ outcome (k a (final (m w))) = Raise e.
Proof.
  unfold bind. destruct (outcome (m w)) as [a|e'] eqn:Hm; simpl.
  - intros H. right. eauto.
  - intros [= ->]. now left.
Qed.

(** ** Trace invariants *)

Section Emits.

Variable P : event -> Prop.

Lemma emits_ret {A} (a : A) : emits P (ret a).
Proof. intros w. constructor. Qed.

Lemma emits_raise {A} (e : exn) : emits P (@raise A e).
Proof. intros w. constructor. Qed.

Lemma emits_lift {A} (r : result A) : emits P (lift r).
Proof. destruct r; [apply emits_ret | apply emits_raise]. Qed.

Lemma emits_gets {A} (f : world -> A) : emits P (gets f).
Proof. intros w. constructor. Qed.

Lemma emits_tell (e : event) : P e -> emits P (tell e).
Proof. intros He w. simpl. auto. Qed.

Lemma emits_bind {A B} (m : prog A) (k : A -> prog B) :
  emits P m -> (forall a, emits P (k a)) -> emits P (bind m k).
Proof.
  intros Hm Hk w. unfold bind.
  destruct (outcome (m w)) as [a|e]; simpl.
  - apply Forall_app. split; [apply Hm | apply Hk].
  - apply Hm.
Qed.

Lemma emits_write_all (texts : list string) :
  Forall (fun t => P (Write t)) texts -> emits P (write_all texts).
Proof.
  induction 1 as [|t texts Ht _ IH]; simpl.
  - apply emits_ret.
  - apply emits_bind; [now apply emits_tell | intros _; exact IH].
Qed.

End Emits.

(** ** Programs that keep the world *)

Lemma keeps_ret {A} (a : A) : keeps (ret a).
Proof. intros w. reflexivity. Qed.

Lemma keeps_raise {A} (e : exn) : keeps (@raise A e).
Proof. intros w. reflexivity. Qed.

Lemma keeps_lift {A} (r : result A) : keeps (lift r).
Proof. destruct r; [apply keeps_ret | apply keeps_raise]. Qed.

Lemma keeps_gets {A} (f : world -> A) : keeps (gets f).
Proof. intros w. reflexivity. Qed.

Lemma keeps_tell (e : event) : keeps (tell e).
Proof. intros w. reflexivity. Qed.

Lemma keeps_bind {A B} (m : prog A) (k : A -> prog B) :
  keeps m -> (forall a, keeps (k a)) -> keeps (bind m k).
Proof.
  intros Hm Hk w. unfold bind.
  destruct (outcome (m w)) as [a|e]; simpl.
  - now rewrite Hk, Hm.
  - apply Hm.
Qed.

Lemma keeps_when (b : bool) (m : prog unit) : keeps m -> keeps (when b m).
Proof. destruct b; [auto | intros _; apply keeps_ret]. Qed.

Lemma keeps_write_all (texts : list string) : keeps (write_all texts).
Proof.
  induction texts as [|t texts IH]; simpl.
  - apply keeps_ret.
  - apply keeps_bind; [apply keeps_tell | intros _; exact IH].
Qed.

(** ** Programs that only report *)

Lemma quiet_ret {A} (a : A) : quiet (ret a).
Proof. split; [apply keeps_ret | apply emits_ret]. Qed.

Lemma quiet_lift {A} (r : result A) : quiet (lift r).
Proof. split; [apply keeps_lift | apply emits_lift]. Qed.

Lemma quiet_gets {A} (f : world -> A) : quiet (gets f).
Proof. split; [apply keeps_gets | apply emits_gets]. Qed.

Lemma quiet_tell (e : event) : report_only e -> quiet (tell e).
Proof. split; [apply keeps_tell | now apply emits_tell]. Qed.

Lemma quiet_bind {A B} (m : prog A) (k : A -> prog B) :
  quiet m -> (forall a, quiet (k a)) -> quiet (bind m k).
Proof.
  intros [Hk He] H. split.
  - apply keeps_bind; [exact Hk | intros a; apply H].
  - apply emits_bind; [exact He | intros a; apply H].
Qed.

Lemma quiet_when (b : bool) (m : prog unit) : quiet m -> quiet (when b m).
Proof. destruct b; [auto | intros _; apply quiet_ret]. Qed.

Lemma quiet_write_all (texts : list string) :
  Forall (fun t => report_only (Write t)) texts -> quiet (write_all texts).
Proof.
  split; [apply keeps_write_all | now apply emits_write_all].
Qed.

(** A reporting step in front of a program: a property closed under
    reporting prefixes holds of the whole when it holds of the rest. *)
Lemma quiet_step {A B} (m : prog A) (k : A -> prog B) (w : world)
    (Q : run B -> Prop) :
  quiet m -> prefix_closed Q ->
  (forall e, outcome (m w) = Raise e -> Q (mkRun [] w (Raise e))) ->
  (forall a, outcome (m w) = Ok a -> Q (k a w)) ->
  Q (bind m k w).
Proof.
  intros [Hkeep Hemit] Hclosed Hraise Hok. unfold bind.
  specialize (Hkeep w). specialize (Hemit w).
  destruct (outcome (m w)) as [a|e] eqn:Hm; rewrite Hkeep.
  - apply Hclosed; [exact Hemit | now apply Hok].
  - specialize (Hclosed (trace (m w)) (mkRun [] w (Raise e)) Hemit
                        (Hraise e eq_refl)).
    simpl in Hclosed. now rewrite app_nil_r in Hclosed.
Qed.

(** ** The actions a program enters *)

Lemma calls_app (t u : list event) : calls (t ++ u) = (calls t ++ calls u)%list.
Proof.
  induction t as [|[x|x|x|x] t IH]; simpl; now rewrite ?IH.
Qed.

Lemma enters_ret {A} (a : A) : enters [] (ret a).
Proof. intros w. reflexivity. Qed.

Lemma enters_raise {A} (e : exn) : enters [] (@raise A e).
Proof. intros w. now exists []. Qed.

Lemma enters_gets {A} (f : world -> A) : enters [] (gets f).
Proof. intros w. reflexivity. Qed.

Lemma enters_tell (e : event) : not_call e -> enters [] (tell e).
Proof. intros He w. destruct e; simpl; auto. contradiction. Qed.

Lemma enters_call (f : string) : enters [f] (tell (Call f)).
Proof. intros w. reflexivity. Qed.

Lemma enters_bind {A B} (ns1 ns2 : list string)
    (m : prog A) (k : A -> prog B) :
  enters ns1 m -> (forall a, enters ns2 (k a)) ->
  enters (ns1 ++ ns2) (bind m k).
Proof.
  intros Hm Hk w. specialize (Hm w). unfold bind.
  destruct (outcome (m w)) as [a|e]; cbn [outcome trace].
  - specialize (Hk a (final (m w))). rewrite calls_app, Hm.
    destruct (outcome (k a (final (m w)))); [now rewrite Hk|].
    destruct Hk as (rest & ->). exists rest. now rewrite app_assoc.
  - destruct Hm as (rest & ->). exists (rest ++ ns2)%list.
    now rewrite app_assoc.
Qed.

Lemma enters_when (ns : list string) (b : bool) (m : prog unit) :
  enters ns m -> enters (if b then ns else []) (when b m).
Proof. destruct b; [auto | intros _; apply enters_ret]. Qed.

Lemma enters_when_plain (b : bool) (m : prog unit) :
  enters [] m -> enters [] (when b m).
Proof. destruct b; [auto | intros _; apply enters_ret]. Qed.

(** A program that enters no action, whatever its outcome. *)
Lemma enters_none {A} (m : prog A) (w : world) :
  enters [] m -> calls (trace (m w)) = [].
Proof.
  intros Hm. specialize (Hm w). destruct (outcome (m w)); [exact Hm|].
  destruct Hm as (rest & Hrest). symmetry in Hrest.
  now apply app_eq_nil in Hrest.
Qed.

(** An exception taken by a bare handler cuts nothing short. *)
Lemma enters_attempt (m : prog unit) : enters [] m -> enters [] (attempt m).
Proof.
  intros Hm w. pose proof (enters_none m w Hm) as Hcalls. unfold attempt.
  destruct (outcome (m w)) as [[]|e] eqn:Ho.
  - now rewrite Ho.
  - exact Hcalls.
Qed.

Lemma enters_subprocess_run (sys : os) (c : command) :
  enters [] (subprocess_run sys c).
Proof.
  intros w. unfold subprocess_run. destruct (sys c w). reflexivity.
Qed.

(** ** More on trace invariants *)

Lemma emits_when (P : event -> Prop) (b : bool) (m : prog unit) :
  emits P m -> emits P (when b m).
Proof. destruct b; [auto | intros _; apply emits_ret]. Qed.

Lemma emits_weaken {A} (P Q : event -> Prop) (m : prog A) :
  (forall e, P e -> Q e) -> emits P m -> emits Q m.
Proof.
  intros HPQ Hm w. eapply Forall_impl; [exact HPQ | apply Hm].
Qed.

Lemma emits_attempt (P : event -> Prop) (m : prog unit) :
  emits P m -> emits P (attempt m).
Proof.
  intros Hm w. specialize (Hm w). unfold attempt.
  now destruct (outcome (m w)).
Qed.

(** A bare handler leaves no exception. *)
Lemma attempt_returns (m : prog unit) (w : world) :
  outcome (attempt m w) = Ok tt.
Proof.
  unfold attempt. destruct (outcome (m w)) as [[]|e] eqn:Ho; [exact Ho|].
  reflexivity.
Qed.

End ProgFacts.

(* ================================================================== *)
(** * Facts about the catalog *)
(* ================================================================== *)

Module CatalogFacts.
Import Py Host Helpers Cleaner Spec.

Lemma dict_mem_set {V} (key k : string) (v : V) (d : dict V) :
  dict_mem key (dict_set k v d) = String.eqb key k || dict_mem key d.
Proof.
  induction d as [|[k' v'] d IH]; simpl.
  - now destruct (String.eqb key k).
  - destruct (String.eqb k k') eqn:Hk; simpl.
    + apply String.eqb_eq in Hk. subst k'.
      now destruct (String.eqb key k).
    + rewrite IH. destruct (String.eqb key k'); simpl;
        [now rewrite orb_true_r | reflexivity].
Qed.

Lemma dict_get_set {V} (key k : string) (v : V) (d : dict V) :
  dict_get key (dict_set k v d)
  = if String.eqb key k then Some v else dict_get key d.
Proof.
  induction d as [|[k' v'] d IH]; simpl.
  - reflexivity.
  - destruct (String.eqb k k') eqn:Hk; simpl.
    + apply String.eqb_eq in Hk. subst k'.
      now destruct (String.eqb key k).
    + rewrite IH. destruct (String.eqb key k') eqn:Hk'; [|reflexivity].
      apply String.eqb_eq in Hk'. subst k'.
      now rewrite String.eqb_sym, Hk.
Qed.

Lemma dict_get_values {V} (key : string) (v : V) (d : dict V) :
  dict_get key d = Some v -> In v (dict_values d).
Proof.
  induction d as [|[k' v'] d IH]; simpl; [discriminate|].
  destruct (String.eqb key k').
  - intros [= ->]. now left.
  - intros H. right. now apply IH.
Qed.

Lemma dict_mem_put_if (key : string) (b : bool) (k : string) (v : Z)
    (d : dict Z) :
  dict_mem key (put_if b k v d) = b && String.eqb key k || dict_mem key d.
Proof.
  unfold put_if. destruct b; [apply dict_mem_set | reflexivity].
Qed.

(** The snapshot as a stack of conditional entries. *)
Lemma scan_layers (w : world) :
  scan_cleanable_items w
  = let root := fs w in
    dict_set "old_logs" (old_logs_size root)
      (put_if (dir_exists root journal_dir) "journal_logs"
              (get_dir_size root journal_dir)
      (put_if (dir_exists root var_log) "system_logs"
              (get_dir_size root var_log)
      (put_if (dir_exists root var_tmp) "var_tmp"
              (get_dir_size root var_tmp)
      (put_if (dir_exists root tmp) "tmp" (get_dir_size root tmp)
      (put_if (dir_exists root (thumbnail_cache (home w))) "thumbnail_cache"
              (get_dir_size root (thumbnail_cache (home w)))
      (put_if (dir_exists root (user_cache (home w))) "user_cache"
              (get_dir_size root (user_cache (home w)))
      (put_if (negb (dir_exists root dnf_cache)
                 && dir_exists root yum_cache) "yum_cache"
              (get_dir_size root yum_cache)
      (put_if (dir_exists root dnf_cache) "dnf_cache"
              (get_dir_size root dnf_cache)
      (put_if (dir_exists root apt_cache) "apt_cache"
              (get_dir_size root apt_cache) []))))))))).
Proof.
  unfold scan_cleanable_items, put_if. cbv zeta.
  destruct (dir_exists (fs w) dnf_cache); reflexivity.
Qed.

(** Membership in a snapshot, key by key. *)
Lemma scan_mem (w : world) (key : string) :
  dict_mem key (scan_cleanable_items w)
  = let root := fs w in
    String.eqb key "old_logs"
    || dir_exists root journal_dir && String.eqb key "journal_logs"
    || dir_exists root var_log && String.eqb key "system_logs"
    || dir_exists root var_tmp && String.eqb key "var_tmp"
    || dir_exists root tmp && String.eqb key "tmp"
    || dir_exists root (thumbnail_cache (home w))
       && String.eqb key "thumbnail_cache"
    || dir_exists root (user_cache (home w)) && String.eqb key "user_cache"
    || negb (dir_exists root dnf_cache) && dir_exists root yum_cache
       && String.eqb key "yum_cache"
    || dir_exists root dnf_cache && String.eqb key "dnf_cache"
    || dir_exists root apt_cache && String.eqb key "apt_cache".
Proof.
  rewrite scan_layers. cbv zeta.
  rewrite dict_mem_set, !dict_mem_put_if. simpl dict_mem.
  rewrite orb_false_r, !orb_assoc. reflexivity.
Qed.

Lemma add_old_logs_none (root : node) (dir : path) (files : list string) :
  Forall (fun file => endswith_any file old_suffixes = false) files ->
  forall acc, add_old_logs root dir files acc = acc.
Proof.
  unfold add_old_logs.
  induction 1 as [|f files Hf _ IH]; cbn [fold_left]; intros acc;
    [reflexivity|].
  now rewrite Hf, IH.
Qed.

Lemma old_logs_size_none (root : node) :
  dir_exists root var_log = false \/ no_rotated_logs root ->
  old_logs_size root = 0.
Proof.
  unfold old_logs_size. intros [-> | Hnone]; [reflexivity|].
  destruct (dir_exists root var_log); [|reflexivity].
  unfold no_rotated_logs in Hnone. unfold add_walk_old_logs.
  generalize 0 as acc.
  induction Hnone as [|[[d ds] files] items Hitem _ IH];
    cbn [fold_left]; intros acc; [reflexivity|].
  cbn [snd] in Hitem. now rewrite (add_old_logs_none root d files Hitem), IH.
Qed.

Lemma scan_old_logs (w : world) :
  dict_get "old_logs" (scan_cleanable_items w)
  = Some (old_logs_size (fs w)).
Proof.
  rewrite scan_layers. cbv zeta. now rewrite dict_get_set.
Qed.

End CatalogFacts.

(* ================================================================== *)
(** * Facts about the session *)
(* ================================================================== *)

Module SessionFacts.
Import Py Host Formatters Helpers Cleaner Spec.
Import PyFacts ProgFacts CatalogFacts.

(** ** The formatter on byte counts *)

Lemma float_of_pos_raise (s : bool) (p : positive) (e : exn) :
  float_of_pos s p = Raise e -> e = OverflowError /\ 2 ^ 1023 <= Zpos p.
Proof.
  unfold float_of_pos.
  pose proof (Z.log2_nonneg (Zpos p)) as Hnn.
  destruct (Z.log2 (Zpos p) + 1 <=? prec) eqn:Hbits; [discriminate|].
  apply Z.leb_gt in Hbits. unfold prec, emax in *.
  assert (Hlog : Z.log2 (Zpos p) < 1023 -> 2 ^ 1023 <= Zpos p -> False).
  { intros Hlt Hge. apply Z.log2_le_pow2 in Hge; lia. }
  destruct (round_half_even _ _ =? 2 ^ 53);
    match goal with |- context [1024 <? ?a] => destruct (1024 <? a) eqn:He end;
    try discriminate; intros [= <-]; split; try reflexivity;
    apply Z.ltb_lt in He;
    destruct (Z_lt_le_dec (Zpos p) (2 ^ 1023)) as [Hlt|Hge]; try exact Hge;
    apply Z.log2_lt_pow2 in Hlt; lia.
Qed.

Lemma float_of_int_raise (n : Z) (e : exn) :
  float_of_int n = Raise e -> e = OverflowError /\ ~ finite_count n.
Proof.
  unfold finite_count.
  destruct n as [|p|p]; simpl; [discriminate| |];
    intros H; apply float_of_pos_raise in H as [-> Hp]; split; auto; lia.
Qed.

Lemma format_bytes_int_raise (parse_float : string -> option float)
    (n : Z) (e : exn) :
  format_bytes parse_float (PyInt n) = Raise e ->
  e = OverflowError /\ ~ finite_count n.
Proof.
  unfold format_bytes, to_float.
  destruct (float_of_int n) as [x|e'] eqn:Hf; [discriminate|].
  apply float_of_int_raise in Hf as [-> Hn]. now intros [= <-].
Qed.

(** A negative count is shown with its sign. *)
Lemma format_bytes_int_sign (parse_float : string -> option float)
    (n : Z) (text : string) :
  n < 0 -> format_bytes parse_float (PyInt n) = Ok text ->
  exists digits, text = "-" ++ digits ++ " B".
Proof.
  intros Hn. unfold format_bytes, to_float.
  destruct (float_of_int n) as [x|e] eqn:Hf.
  - destruct n as [|p|p]; try lia. simpl in Hf.
    destruct (float_of_pos_finite _ _ _ Hf) as (m & ex & ->).
    rewrite scale_negative by reflexivity. intros [= <-].
    exists (fixed1 (tenths m ex)). reflexivity.
  - apply float_of_int_raise in Hf as [-> _]. discriminate.
Qed.

(** ** The summary *)

Ltac report_text :=
  simpl; split; [|intros ?];
  (let H := fresh "H" in intros H; cbv in H; discriminate H).

Lemma outcome_lift {A} (r : result A) (w : world) : outcome (lift r w) = r.
Proof. now destruct r. Qed.

Lemma write_all_total (texts : list string) (w : world) :
  outcome (write_all texts w) = Ok tt.
Proof.
  revert w. induction texts as [|t texts IH]; intros w; [reflexivity|].
  simpl. unfold bind. simpl. apply IH.
Qed.

Section Summary.

Variable parse_float : string -> option float.

Lemma show_row_quiet (cleanable : dict Z) (key label : string) :
  (forall text, report_only (Write (line (key_value label text)))) ->
  quiet (show_row parse_float cleanable key label).
Proof.
  intros Hlabel. unfold show_row.
  destruct (dict_get key cleanable); [|apply quiet_ret].
  apply quiet_bind; [apply quiet_lift|]. intros text.
  apply quiet_write_all. unfold print_key_value.
  constructor; [apply Hlabel | constructor].
Qed.

Lemma show_row_raise (cleanable : dict Z) (key label : string)
    (w : world) (e : exn) :
  outcome (show_row parse_float cleanable key label w) = Raise e ->
  e = OverflowError /\ ~ summary_fits cleanable.
Proof.
  unfold show_row.
  destruct (dict_get key cleanable) as [size|] eqn:Hget; [|discriminate].
  intros H. apply bind_outcome_raise in H as [H | (text & _ & H)].
  - rewrite outcome_lift in H.
    apply format_bytes_int_raise in H as [-> Hsize]. split; [reflexivity|].
    intros Hfits. apply Hsize. unfold summary_fits in Hfits.
    rewrite Forall_forall in Hfits. apply Hfits. right.
    eapply dict_get_values; eauto.
  - now rewrite write_all_total in H.
Qed.

Lemma summary_quiet (cleanable : dict Z) :
  quiet (show_cleanable_summary parse_float cleanable).
Proof.
  unfold show_cleanable_summary.
  repeat first
    [ apply quiet_write_all; unfold print_subheader;
      repeat (apply Forall_cons; [report_text|]); apply Forall_nil
    | apply show_row_quiet; intros text; report_text
    | apply quiet_bind; [|intros _] ].
Qed.

Lemma summary_raise (cleanable : dict Z) (w : world) (e : exn) :
  outcome (show_cleanable_summary parse_float cleanable w) = Raise e ->
  e = OverflowError /\ ~ summary_fits cleanable.
Proof.
  unfold show_cleanable_summary. intros H.
  repeat
    (apply bind_outcome_raise in H as [H | ([] & _ & H)];
     [ first [ now rewrite write_all_total in H
             | now apply show_row_raise in H ] | ]).
  now apply show_row_raise in H.
Qed.

End Summary.

End SessionFacts.

Module OrchestratorFacts.
Import Py Host Formatters Helpers Cleaner Spec.
Import PyFacts ProgFacts CatalogFacts SessionFacts.

(** ** Exceptions that come from a launch *)

Section Launches.

Variable sys : os.

Lemma launched_ret {A} (a : A) : raises_launched sys (ret a).
Proof. intros w e H. discriminate H. Qed.

Lemma launched_gets {A} (f : world -> A) : raises_launched sys (gets f).
Proof. intros w e H. discriminate H. Qed.

Lemma launched_tell (e : event) : raises_launched sys (tell e).
Proof. intros w x H. discriminate H. Qed.

Lemma launched_bind {A B} (m : prog A) (k : A -> prog B) :
  raises_launched sys m -> (forall a, raises_launched sys (k a)) ->
  raises_launched sys (bind m k).
Proof.
  intros Hm Hk w e. specialize (Hm w). unfold bind.
  destruct (outcome (m w)) as [a|e'] eqn:Ho; cbn [outcome trace].
  - intros H. destruct (Hk a _ e H) as (c & w0 & Hin & Hc).
    exists c, w0. split; [apply in_or_app; now right | exact Hc].
  - intros [= <-]. exact (Hm e' eq_refl).
Qed.

Lemma launched_when (b : bool) (m : prog unit) :
  raises_launched sys m -> raises_launched sys (when b m).
Proof. destruct b; [auto | intros _; apply launched_ret]. Qed.

Lemma launched_run_command (command : string) (shell : bool) :
  raises_launched sys (run_command sys command shell).
Proof.
  intros w e. unfold run_command, bind, subprocess_run.
  destruct (sys _ w) as [w' o] eqn:Hs. cbn [outcome final trace].
  destruct o as [rc out| | | |x]; cbn [ret raise outcome trace];
    try discriminate.
  - destruct (rc =? 0); discriminate.
  - intros [= <-]. eexists _, w. split; [now left|]. now rewrite Hs.
Qed.

Lemma launched_command_exists (command : string) :
  raises_launched sys (command_exists sys command).
Proof.
  unfold command_exists. apply launched_bind.
  - apply launched_run_command.
  - intros found. apply launched_ret.
Qed.

End Launches.

(** ** The cleaning actions *)

Section Actions.

Variable sys : os.

Lemma run_command_enters (command : string) (shell : bool) :
  enters [] (run_command sys command shell).
Proof.
  unfold run_command.
  apply (enters_bind [] []); [apply enters_subprocess_run|].
  intros [rc out| | | |e]; try apply enters_ret; [|apply enters_raise].
  destruct (rc =? 0); apply enters_ret.
Qed.

Lemma command_exists_enters (command : string) :
  enters [] (command_exists sys command).
Proof.
  unfold command_exists.
  apply (enters_bind [] []); [apply run_command_enters|].
  intros found. apply enters_ret.
Qed.

Lemma print_enters (s : string) : enters [] (print s).
Proof. now apply enters_tell. Qed.

Lemma clean_safe_dirs_enters (cache_dir : path) (subdirs : list string) :
  enters [] (clean_safe_dirs sys cache_dir subdirs).
Proof.
  induction subdirs as [|subdir rest IH];
    cbn [clean_safe_dirs]; [apply enters_ret|].
  apply (enters_bind [] []); [apply enters_gets|]. intros present.
  apply (enters_bind [] []); [|intros _; exact IH].
  apply enters_when_plain, enters_attempt.
  apply (enters_bind [] []); [apply run_command_enters|].
  intros _. apply enters_ret.
Qed.

(** The loop over the safe directories returns whatever its commands do. *)
Lemma clean_safe_dirs_returns (cache_dir : path) (subdirs : list string)
    (w : world) :
  outcome (clean_safe_dirs sys cache_dir subdirs w) = Ok tt.
Proof.
  revert w. induction subdirs as [|subdir rest IH]; intros w;
    cbn [clean_safe_dirs]; [reflexivity|].
  unfold bind at 1. cbn [gets outcome final trace].
  unfold bind.
  destruct (dir_exists (fs w) (cache_dir ++ [subdir])%list); cbn [when].
  - rewrite attempt_returns. cbn [outcome]. apply IH.
  - cbn [ret outcome final]. apply IH.
Qed.

Lemma run_command_emits (P : event -> Prop) (command : string)
    (shell : bool) :
  P (Spawn (if shell then ShellLine command else Argv (split command))) ->
  emits P (run_command sys command shell).
Proof.
  intros HP. unfold run_command. apply emits_bind.
  - intros w. unfold subprocess_run.
    destruct (sys _ w) as [w' o]. cbn [trace]. auto.
  - intros [rc out| | | |e]; try apply emits_ret; [|apply emits_raise].
    destruct (rc =? 0); apply emits_ret.
Qed.

Lemma command_exists_emits (P : event -> Prop) (command : string) :
  (forall c, P (Spawn c)) -> emits P (command_exists sys command).
Proof.
  intros HP. unfold command_exists. apply emits_bind.
  - apply run_command_emits, HP.
  - intros found. apply emits_ret.
Qed.

Lemma clean_safe_dirs_emits_any (P : event -> Prop) (cache_dir : path)
    (subdirs : list string) :
  (forall c, P (Spawn c)) ->
  emits P (clean_safe_dirs sys cache_dir subdirs).
Proof.
  intros HP. induction subdirs as [|subdir rest IH];
    cbn [clean_safe_dirs]; [apply emits_ret|].
  apply emits_bind; [apply emits_gets|]. intros present.
  apply emits_bind; [|intros _; exact IH].
  apply emits_when, emits_attempt, emits_bind;
    [apply run_command_emits, HP | intros _; apply emits_ret].
Qed.

Ltac plain :=
  repeat first
    [ apply print_enters
    | apply run_command_enters
    | apply command_exists_enters
    | apply clean_safe_dirs_enters
    | apply enters_gets
    | apply enters_ret
    | apply enters_when_plain
    | apply (enters_bind [] []); [|intros ?] ].

Lemma clean_apt_cache_enters :
  enters ["clean_apt_cache"] (clean_apt_cache sys).
Proof.
  unfold clean_apt_cache.
  apply (enters_bind ["clean_apt_cache"] []); [apply enters_call|].
  intros _. plain.
Qed.

Lemma clean_dnf_cache_enters :
  enters ["clean_dnf_cache"] (clean_dnf_cache sys).
Proof.
  unfold clean_dnf_cache.
  apply (enters_bind ["clean_dnf_cache"] []); [apply enters_call|].
  intros _. plain.
Qed.

Lemma clean_yum_cache_enters :
  enters ["clean_yum_cache"] (clean_yum_cache sys).
Proof.
  unfold clean_yum_cache.
  apply (enters_bind ["clean_yum_cache"] []); [apply enters_call|].
  intros _. plain.
Qed.

Lemma clean_user_cache_enters :
  enters ["clean_user_cache"] (clean_user_cache sys).
Proof.
  unfold clean_user_cache.
  apply (enters_bind ["clean_user_cache"] []); [apply enters_call|].
  intros _. plain.
Qed.

Lemma clean_journal_logs_enters :
  enters ["clean_journal_logs"] (clean_journal_logs sys).
Proof.
  unfold clean_journal_logs.
  apply (enters_bind ["clean_journal_logs"] []); [apply enters_call|].
  intros _. plain.
Qed.

Lemma clean_old_logs_enters :
  enters ["clean_old_logs"] (clean_old_logs sys).
Proof.
  unfold clean_old_logs.
  apply (enters_bind ["clean_old_logs"] []); [apply enters_call|].
  intros _. plain.
Qed.

(** No action writes a line of the final report. *)

Ltac other_text :=
  let H := fresh "H" in
  intros ? H; first [ discriminate H | cbv in H; discriminate H ].

Ltac silent :=
  repeat first
    [ apply emits_ret
    | apply emits_gets
    | apply emits_tell; other_text
    | apply run_command_emits; other_text
    | apply command_exists_emits; intros ?; other_text
    | apply clean_safe_dirs_emits_any; intros ?; other_text
    | apply emits_when
    | apply emits_bind; [|intros ?] ].

Lemma run_actions_silent (cleanable : dict Z) :
  emits not_report (run_actions sys cleanable).
Proof.
  unfold run_actions, clean_apt_cache, clean_dnf_cache, clean_yum_cache,
    clean_user_cache, clean_journal_logs, clean_old_logs, print, not_report.
  silent.
Qed.

(** An action is cut short only by an exception that a launch raised. *)
Lemma clean_safe_dirs_launched (cache_dir : path) (subdirs : list string) :
  raises_launched sys (clean_safe_dirs sys cache_dir subdirs).
Proof.
  intros w e H. rewrite clean_safe_dirs_returns in H. discriminate H.
Qed.

Lemma run_actions_launched (cleanable : dict Z) :
  raises_launched sys (run_actions sys cleanable).
Proof.
  unfold run_actions, clean_apt_cache, clean_dnf_cache, clean_yum_cache,
    clean_user_cache, clean_journal_logs, clean_old_logs, print.
  repeat first
    [ apply clean_safe_dirs_launched
    | apply launched_ret
    | apply launched_gets
    | apply launched_tell
    | apply launched_run_command
    | apply launched_command_exists
    | apply launched_when
    | apply launched_bind; [|intros ?] ].
Qed.

(** Where no launch raises outside the handler, the actions return. *)
Lemma run_actions_returns (cleanable : dict Z) (w : world) :
  (forall c w0 e, snd (sys c w0) <> Raised e) ->
  outcome (run_actions sys cleanable w) = Ok tt.
Proof.
  intros Hsys.
  destruct (outcome (run_actions sys cleanable w)) as [[]|e] eqn:Ho;
    [reflexivity|].
  destruct (run_actions_launched cleanable w e Ho) as (c & w0 & _ & Hc).
  now apply Hsys in Hc.
Qed.

(** The probe, step by step. *)
Lemma command_exists_run (tool : string) (w : world) :
  split ("which " ++ tool) = ["which"; tool] ->
  command_exists sys tool w
  = mkRun [Spawn (Argv ["which"; tool])]
          (fst (sys (Argv ["which"; tool]) w))
          match snd (sys (Argv ["which"; tool]) w) with
          | Exited rc _ => Ok (rc =? 0)
          | Raised e => Raise e
          | _ => Ok false
          end.
Proof.
  intros Hsplit.
  unfold command_exists, run_command, subprocess_run, bind.
  rewrite Hsplit.
  destruct (sys (Argv ["which"; tool]) w) as [w' o].
  cbn [outcome final trace fst snd].
  destruct o as [rc out| | | |e]; cbn [ret raise outcome final trace app];
    try reflexivity.
  destruct (rc =? 0); reflexivity.
Qed.

(** An action guarded by a probe that fails and changes nothing. *)
Lemma gated_skip (fname tool : string) (body : prog unit) (w : world) :
  split ("which " ++ tool) = ["which"; tool] ->
  fst (sys (Argv ["which"; tool]) w) = w ->
  outcome (command_exists sys tool w) = Ok false ->
  bind (tell (Call fname))
       (fun _ => bind (command_exists sys tool)
                      (fun present => when present body)) w
  = mkRun [Call fname; Spawn (Argv ["which"; tool])] w (Ok tt).
Proof.
  intros Hsplit Hprobe Habsent.
  rewrite (command_exists_run tool w Hsplit) in Habsent.
  cbn [outcome] in Habsent.
  unfold bind at 1. cbn [tell outcome final trace].
  unfold bind. rewrite (command_exists_run tool w Hsplit).
  cbn [outcome final trace]. rewrite Habsent, Hprobe. reflexivity.
Qed.

(** The actions entered are those of the categories present, in the
    order of the orchestrator, up to the one an exception cuts short. *)
Lemma run_actions_enters (cleanable : dict Z) :
  enters (expected_calls cleanable) (run_actions sys cleanable).
Proof.
  unfold run_actions.
  replace (expected_calls cleanable)
    with ((if dict_mem "apt_cache" cleanable
           then ["clean_apt_cache"] else [])
          ++ (if dict_mem "dnf_cache" cleanable
              then ["clean_dnf_cache"] else [])
          ++ (if dict_mem "yum_cache" cleanable
              then ["clean_yum_cache"] else [])
          ++ (if dict_mem "user_cache" cleanable
              then ["clean_user_cache"] else [])
          ++ (if dict_mem "journal_logs" cleanable
              then ["clean_journal_logs"] else [])
          ++ (if dict_mem "old_logs" cleanable
              then ["clean_old_logs"] else []))%list.
  - repeat (apply enters_bind; [|intros _]); apply enters_when.
    + apply clean_apt_cache_enters.
    + apply clean_dnf_cache_enters.
    + apply clean_yum_cache_enters.
    + apply clean_user_cache_enters.
    + apply clean_journal_logs_enters.
    + apply clean_old_logs_enters.
  - unfold expected_calls, actions. simpl.
    destruct (dict_mem "apt_cache" cleanable),
      (dict_mem "dnf_cache" cleanable), (dict_mem "yum_cache" cleanable),
      (dict_mem "user_cache" cleanable),
      (dict_mem "journal_logs" cleanable),
      (dict_mem "old_logs" cleanable); reflexivity.
Qed.

End Actions.

End OrchestratorFacts.

Module ShapeFacts.
Import Py Host Formatters Helpers Cleaner Spec.
Import PyFacts ProgFacts CatalogFacts SessionFacts OrchestratorFacts.

Lemma report_only_harmless (t : list event) :
  Forall report_only t -> Forall harmless t.
Proof.
  induction 1 as [|[x|x|x|x] t H _ IH]; constructor; simpl in *; tauto.
Qed.

Lemma report_only_calls (t : list event) :
  Forall report_only t -> calls t = [].
Proof.
  induction 1 as [|[x|x|x|x] t H _ IH]; simpl in *; tauto.
Qed.

Lemma report_only_spawns (t : list event) :
  Forall report_only t -> spawns t = [].
Proof.
  induction 1 as [|[x|x|x|x] t H _ IH]; simpl in *; tauto.
Qed.

Lemma report_only_no_read (t : list event) (l : string) :
  Forall report_only t -> ~ In (Read l) t.
Proof.
  intros H Hin. rewrite Forall_forall in H. exact (H _ Hin).
Qed.

Lemma report_only_no_prompt (t : list event) :
  Forall report_only t -> ~ In (Write prompt) t.
Proof.
  intros H Hin. rewrite Forall_forall in H. destruct (H _ Hin) as [Hp _].
  now apply Hp.
Qed.

Lemma report_only_not_report (t : list event) :
  Forall report_only t -> Forall not_report t.
Proof.
  apply Forall_impl. intros [x|x|x|x] H text; try discriminate.
  destruct H as [_ H]. intros [= Heq]. exact (H text Heq).
Qed.

Lemma harmless_calls (t : list event) : Forall harmless t -> calls t = [].
Proof.
  induction 1 as [|[x|x|x|x] t H _ IH]; simpl in *; tauto.
Qed.

Lemma harmless_spawns (t : list event) : Forall harmless t -> spawns t = [].
Proof.
  induction 1 as [|[x|x|x|x] t H _ IH]; simpl in *; tauto.
Qed.

Lemma confirmed_prefix (t u : list event) :
  Forall report_only t -> confirmed (t ++ u) -> confirmed u.
Proof.
  intros Ht (l & Hin & Hl). exists l. split; [|exact Hl].
  apply in_app_or in Hin as [Hin|Hin]; [|exact Hin].
  now apply report_only_no_read in Hin.
Qed.

Section Session.

Variable parse_float : string -> option float.
Variable sys : os.

(** A property closed under reporting prefixes holds of a session when
    it holds of what follows the summary, and of a summary cut short by
    a figure that is not finite. *)
Lemma session_shape (dry_run : bool) (w : world) (Q : run unit -> Prop) :
  prefix_closed Q ->
  (~ summary_fits (scan_cleanable_items w) ->
   Q (mkRun [] w (Raise OverflowError))) ->
  Q (after_summary parse_float sys dry_run w) ->
  Q (perform_cleaning parse_float sys dry_run w).
Proof.
  intros Hclosed Hraise Htail. unfold perform_cleaning.
  apply quiet_step; [|exact Hclosed| |intros _ _].
  { apply quiet_when, quiet_tell. report_text. }
  { intros e He. destruct dry_run; discriminate He. }
  apply quiet_step; [apply quiet_gets|exact Hclosed| |intros root_user _].
  { intros e He. discriminate He. }
  apply quiet_step; [|exact Hclosed| |intros _ _].
  { apply quiet_when, quiet_bind; [|intros _]; apply quiet_tell; report_text. }
  { intros e He. destruct (negb root_user && negb dry_run); discriminate He. }
  apply quiet_step; [|exact Hclosed| |intros _ _].
  { apply quiet_write_all. unfold print_header.
    repeat (apply Forall_cons; [report_text|]). apply Forall_nil. }
  { intros e He. now rewrite write_all_total in He. }
  apply quiet_step; [|exact Hclosed| |intros _ _].
  { apply quiet_tell. report_text. }
  { intros e He. discriminate He. }
  apply quiet_step; [apply quiet_gets|exact Hclosed| |intros cleanable Hc].
  { intros e He. discriminate He. }
  injection Hc as <-.
  apply quiet_step; [apply summary_quiet|exact Hclosed| |intros _ _].
  { intros e He. apply summary_raise in He as [-> Hfits]. auto. }
  apply quiet_step; [|exact Hclosed| |intros _ _].
  { apply quiet_write_all. unfold print_subheader.
    repeat (apply Forall_cons; [report_text|]). apply Forall_nil. }
  { intros e He. now rewrite write_all_total in He. }
  apply quiet_step; [apply quiet_lift|exact Hclosed| |intros text _].
  { intros e He. rewrite outcome_lift in He.
    apply format_bytes_int_raise in He as [-> Hsize].
    apply Hraise. intros Hfits. apply Hsize.
    now inversion Hfits. }
  apply quiet_step; [|exact Hclosed| |intros _ _].
  { apply quiet_write_all. unfold print_key_value.
    repeat (apply Forall_cons; [report_text|]). apply Forall_nil. }
  { intros e He. now rewrite write_all_total in He. }
  exact Htail.
Qed.

(** ** The confirmation *)

Lemma confirm_eof (cleanable : dict Z) (t : Z) (w : world) :
  stdin w = [] ->
  confirm_and_clean parse_float sys cleanable t w
  = mkRun [Write prompt] w (Raise EOFError).
Proof.
  intros Hin. unfold confirm_and_clean, bind, print_noend, tell, input.
  simpl. now rewrite Hin.
Qed.

Lemma confirm_interrupt (cleanable : dict Z) (t : Z) (w : world)
    (rest : list typed) :
  stdin w = Interrupt :: rest ->
  confirm_and_clean parse_float sys cleanable t w
  = mkRun [Write prompt] (after_input w) (Raise KeyboardInterrupt).
Proof.
  intros Hin. unfold confirm_and_clean, bind, print_noend, tell, input.
  unfold after_input. simpl. now rewrite Hin.
Qed.

Lemma confirm_cancel (cleanable : dict Z) (t : Z) (w : world)
    (response : string) (rest : list typed) :
  stdin w = Line response :: rest -> affirmative response = false ->
  confirm_and_clean parse_float sys cleanable t w
  = mkRun [Write prompt; Read response; Write (line "Cleaning cancelled")]
          (after_input w) (Ok tt).
Proof.
  intros Hin Hno. unfold affirmative in Hno.
  unfold confirm_and_clean, bind, print_noend, tell, input, after_input.
  simpl. rewrite Hin. simpl. rewrite Hno. reflexivity.
Qed.

Lemma confirm_accept (cleanable : dict Z) (t : Z) (w : world)
    (response : string) (rest : list typed) :
  stdin w = Line response :: rest -> affirmative response = true ->
  confirm_and_clean parse_float sys cleanable t w
  = let r := clean_and_report parse_float sys cleanable t (after_input w) in
    mkRun (Write prompt :: Read response :: trace r) (final r) (outcome r).
Proof.
  intros Hin Hyes. unfold affirmative in Hyes.
  unfold confirm_and_clean, bind, print_noend, tell, input, after_input.
  simpl. rewrite Hin. simpl. rewrite Hyes. reflexivity.
Qed.

(** ** Cleaning and reporting *)

Lemma clean_and_report_run (cleanable : dict Z) (t : Z) (w : world) :
  let ra := run_actions sys cleanable w in
  let w' := final ra in
  let before :=
    (Write (line (nl ++ "Starting cleanup..." ++ nl)) :: trace ra
     ++ [Write (line (nl ++ "Cleaning completed!"));
         Write (line (nl ++ "Rescanning..."))])%list in
  clean_and_report parse_float sys cleanable t w
  = match outcome ra with
    | Ok _ =>
        match format_bytes parse_float
                (PyInt (t - total (scan_cleanable_items w'))) with
        | Ok text =>
            mkRun (before ++ [freed_line text; Write nl])%list w' (Ok tt)
        | Raise e => mkRun before w' (Raise e)
        end
    | Raise e =>
        mkRun (Write (line (nl ++ "Starting cleanup..." ++ nl)) :: trace ra)
              w' (Raise e)
    end.
Proof.
  cbv zeta. unfold clean_and_report.
  unfold bind at 1. cbn [print tell outcome final trace].
  destruct (outcome (run_actions sys cleanable w)) as [[]|e] eqn:Hra;
    [rewrite (bind_ok _ _ _ tt Hra) | now rewrite (bind_raise _ _ _ e Hra)].
  unfold report_freed, bind, print, tell, gets, total.
  cbn [outcome final trace].
  destruct (format_bytes parse_float _) as [text|e];
    cbn [lift ret raise outcome final trace write_all print_key_value bind tell];
    cbn [outcome final trace]; f_equal;
    cbn [app]; rewrite <- ?app_assoc; reflexivity.
Qed.

Lemma clean_and_report_final (cleanable : dict Z) (t : Z) (w : world) :
  final (clean_and_report parse_float sys cleanable t w)
  = final (run_actions sys cleanable w).
Proof.
  rewrite clean_and_report_run. cbv zeta.
  destruct (outcome (run_actions sys cleanable w)); [|reflexivity].
  now destruct (format_bytes parse_float _).
Qed.

End Session.

End ShapeFacts.

(* ================================================================== *)
(** * The claims *)
(* ================================================================== *)

Module Claims.
Import Py Host Formatters Helpers Cleaner Spec.
Import PyFacts TreeFacts ScannerFacts ProgFacts CatalogFacts.
Import SessionFacts OrchestratorFacts ShapeFacts.

Section Sessions.

Variable parse_float : string -> option float.
Variable sys : os.

(** A confirmed session whose actions return ends with the report of the
    difference of the two totals, or with the exception its formatting
    raises; one whose actions are cut short ends there, with no report. *)
Lemma session_report (dry_run : bool) (w : world) :
  let r := perform_cleaning parse_float sys dry_run w in
  confirmed (trace r) ->
  match outcome (actions_run sys w) with
  | Ok _ =>
      match format_bytes parse_float
              (PyInt (total (scan_cleanable_items w)
                      - total (scan_cleanable_items (final r)))) with
      | Ok text =>
          outcome r = Ok tt
          /\ exists t0, trace r = (t0 ++ [freed_line text; Write nl])%list
      | Raise e => outcome r = Raise e
      end
  | Raise e => outcome r = Raise e /\ Forall not_report (trace r)
  end.
Proof.
  cbv zeta.
  apply (session_shape parse_float sys dry_run w
           (fun r =>
              confirmed (trace r) ->
              match outcome (actions_run sys w) with
              | Ok _ =>
                  match format_bytes parse_float
                          (PyInt (total (scan_cleanable_items w)
                                  - total (scan_cleanable_items (final r))))
                  with
                  | Ok text =>
                      outcome r = Ok tt
                      /\ exists t0,
                           trace r = (t0 ++ [freed_line text; Write nl])%list
                  | Raise e => outcome r = Raise e
                  end
              | Raise e => outcome r = Raise e /\ Forall not_report (trace r)
              end)).
  - intros t r Ht Hr Hc. cbn [trace final outcome] in *.
    apply confirmed_prefix in Hc; [|exact Ht]. specialize (Hr Hc).
    destruct (outcome (actions_run sys w)).
    + destruct (format_bytes parse_float _); [|exact Hr].
      destruct Hr as (Ho & t0 & Ht0). split; [exact Ho|].
      exists (t ++ t0)%list. now rewrite Ht0, app_assoc.
    + destruct Hr as (Ho & Hall). split; [exact Ho|].
      apply Forall_app. split; [now apply report_only_not_report | exact Hall].
  - intros _ (l & [] & _).
  - unfold after_summary. destruct dry_run.
    + intros (l & [H|[]] & _). discriminate H.
    + destruct (stdin w) as [|[response|] rest] eqn:Hin.
      * rewrite (confirm_eof _ _ _ _ _ Hin).
        intros (l & [H|[]] & _). discriminate H.
      * destruct (affirmative response) eqn:Hans.
        -- rewrite (confirm_accept _ _ _ _ _ _ _ Hin Hans). cbv zeta.
           intros _. cbn [final outcome trace].
           rewrite clean_and_report_final.
           rewrite clean_and_report_run. cbv zeta. unfold actions_run.
           pose proof (run_actions_silent sys (scan_cleanable_items w)
                         (after_input w)) as Hsilent.
           destruct (outcome (run_actions sys (scan_cleanable_items w)
                                (after_input w))) as [[]|e].
           ++ destruct (format_bytes parse_float _) as [text|e];
                cbn [final outcome trace]; [|reflexivity].
              split; [reflexivity|].
              eexists. rewrite !app_comm_cons. reflexivity.
           ++ cbn [final outcome trace]. split; [reflexivity|].
              repeat (apply Forall_cons;
                      [intros text H; first [discriminate H
                                            | cbv in H; discriminate H]|]).
              exact Hsilent.
        -- rewrite (confirm_cancel _ _ _ _ _ _ _ Hin Hans).
           intros (l & [H|[H|[H|[]]]] & Hl); try discriminate H.
           injection H as <-. congruence.
      * rewrite (confirm_interrupt _ _ _ _ _ _ Hin).
        intros (l & [H|[]] & _). discriminate H.
Qed.

(** C1 (amended): with a pre-snapshot total of 500,000,000 bytes and a
    post-snapshot total of 120,000,000 bytes, a confirmed session frees
    exactly 380,000,000 bytes and, its actions done, closes with the report
    line [Space Freed : 362.4 MB], the value divided twice by 1024 and
    shown with one decimal place; a session whose actions an exception cuts
    short takes no post-snapshot and reports nothing. *)
Theorem freed_example_report (dry_run : bool) (w : world) :
  let r := perform_cleaning parse_float sys dry_run w in
  confirmed (trace r) ->
  total (scan_cleanable_items w) = 500000000 ->
  total (scan_cleanable_items (final r)) = 120000000 ->
  total (scan_cleanable_items w) - total (scan_cleanable_items (final r))
  = 380000000
  /\ format_bytes parse_float (PyInt 380000000) = Ok "362.4 MB"
  /\ match outcome (actions_run sys w) with
     | Ok _ =>
         outcome r = Ok tt
         /\ exists t0,
              trace r = (t0 ++ [freed_line "362.4 MB"; Write nl])%list
     | Raise e => outcome r = Raise e /\ Forall not_report (trace r)
     end.
Proof.
  cbv zeta. intros Hc Hpre Hpost.
  pose proof (session_report dry_run w Hc) as H. cbv zeta in H.
  rewrite Hpre, Hpost in *.
  change (format_bytes parse_float (PyInt (500000000 - 120000000)))
    with (@Ok string "362.4 MB") in H.
  split; [reflexivity|]. split; [reflexivity|].
  destruct (outcome (actions_run sys w)); exact H.
Qed.

(** C2 (amended): a response that is not [y] once surrounding white
    space is stripped and the text is lower-cased (the empty response
    among them) cancels the session: no cleaning action is entered, no
    process is started, the file tree is untouched, and the session ends
    with [Cleaning cancelled], unless a figure of the summary was not
    finite, in which case it ended before the prompt. *)
Theorem cancelled_session_cleans_nothing (w : world)
    (response : string) (rest : list typed) :
  stdin w = Line response :: rest ->
  affirmative response = false ->
  let r := perform_cleaning parse_float sys false w in
  calls (trace r) = []
  /\ spawns (trace r) = []
  /\ fs (final r) = fs w
  /\ (outcome r = Ok tt
      /\ (exists t0,
            Forall report_only t0
            /\ trace r
               = (t0 ++ [Write prompt; Read response;
                         Write (line "Cleaning cancelled")])%list)
      \/ outcome r = Raise OverflowError
         /\ ~ summary_fits (scan_cleanable_items w)
         /\ Forall report_only (trace r)).
Proof.
  intros Hin Hans. cbv zeta.
  assert (H :
    Forall harmless (trace (perform_cleaning parse_float sys false w))
    /\ fs (final (perform_cleaning parse_float sys false w)) = fs w
    /\ (outcome (perform_cleaning parse_float sys false w) = Ok tt
        /\ (exists t0,
              Forall report_only t0
              /\ trace (perform_cleaning parse_float sys false w)
                 = (t0 ++ [Write prompt; Read response;
                           Write (line "Cleaning cancelled")])%list)
        \/ outcome (perform_cleaning parse_float sys false w)
           = Raise OverflowError
           /\ ~ summary_fits (scan_cleanable_items w)
           /\ Forall report_only
                (trace (perform_cleaning parse_float sys false w)))).
  { apply (session_shape parse_float sys false w
             (fun r =>
                Forall harmless (trace r)
                /\ fs (final r) = fs w
                /\ (outcome r = Ok tt
                    /\ (exists t0,
                          Forall report_only t0
                          /\ trace r
                             = (t0 ++ [Write prompt; Read response;
                                       Write (line "Cleaning cancelled")])%list)
                    \/ outcome r = Raise OverflowError
                       /\ ~ summary_fits (scan_cleanable_items w)
                       /\ Forall report_only (trace r)))).
    - intros t r Ht (Hh & Hfs & Hr). cbn [trace final outcome].
      split; [|split; [exact Hfs|]].
      + apply Forall_app. split; [now apply report_only_harmless | exact Hh].
      + destruct Hr as [(Ho & t0 & Ht0 & Heq) | (Ho & Hfits & Hall)].
        * left. split; [exact Ho|]. exists (t ++ t0)%list. split.
          -- apply Forall_app. now split.
          -- now rewrite Heq, app_assoc.
        * right. repeat split; auto. apply Forall_app. now split.
    - intros Hfits. cbn [trace final outcome]. split; [constructor|].
      split; [reflexivity|]. right. repeat split; auto.
    - unfold after_summary.
      rewrite (confirm_cancel _ _ _ _ _ _ _ Hin Hans).
      cbn [trace final outcome]. split.
      + repeat constructor.
      + split; [reflexivity|]. left. split; [reflexivity|].
        exists []. split; [constructor | reflexivity]. }
  destruct H as (Hh & Hfs & Hr).
  repeat split; auto using harmless_calls, harmless_spawns.
Qed.

(** C3: a dry run only reports.  Whatever the host, it leaves the world
    as it was, writes nothing but the summary (no prompt), reads no
    answer, enters no cleaning action and starts no process; it ends
    after the summary, normally whenever the figures are finite. *)
Theorem dry_run_only_reports (w : world) :
  let r := perform_cleaning parse_float sys true w in
  final r = w
  /\ Forall report_only (trace r)
  /\ ~ In (Write prompt) (trace r)
  /\ (forall answer, ~ In (Read answer) (trace r))
  /\ calls (trace r) = []
  /\ spawns (trace r) = []
  /\ (outcome r = Ok tt \/ outcome r = Raise OverflowError)
  /\ (summary_fits (scan_cleanable_items w) ->
      outcome r = Ok tt
      /\ exists t0,
           trace r
           = (t0 ++ [Write (line (nl ++
                 "Dry run complete - no files were deleted"))])%list).
Proof.
  cbv zeta.
  assert (H :
    final (perform_cleaning parse_float sys true w) = w
    /\ Forall report_only (trace (perform_cleaning parse_float sys true w))
    /\ (outcome (perform_cleaning parse_float sys true w) = Ok tt
        \/ outcome (perform_cleaning parse_float sys true w)
           = Raise OverflowError)
    /\ (summary_fits (scan_cleanable_items w) ->
        outcome (perform_cleaning parse_float sys true w) = Ok tt
        /\ exists t0,
             trace (perform_cleaning parse_float sys true w)
             = (t0 ++ [Write (line (nl ++
                   "Dry run complete - no files were deleted"))])%list)).
  { apply (session_shape parse_float sys true w
             (fun r =>
                final r = w
                /\ Forall report_only (trace r)
                /\ (outcome r = Ok tt \/ outcome r = Raise OverflowError)
                /\ (summary_fits (scan_cleanable_items w) ->
                    outcome r = Ok tt
                    /\ exists t0,
                         trace r
                         = (t0 ++ [Write (line (nl ++
                               "Dry run complete - no files were deleted"))])%list))).
    - intros t r Ht (Hw & Hall & Ho & Hfits). cbn [trace final outcome].
      repeat split; auto.
      + apply Forall_app. now split.
      + now apply Hfits.
      + destruct (Hfits H) as (_ & t0 & Heq).
        exists (t ++ t0)%list. now rewrite Heq, app_assoc.
    - intros Hfits. cbn [trace final outcome].
      repeat split; auto; contradiction.
    - unfold after_summary. cbn [print tell trace final outcome].
      repeat split; auto.
      + constructor; [report_text | constructor].
      + now exists []. }
  destruct H as (Hw & Hall & Ho & Hfits).
  repeat split;
    auto using report_only_no_prompt, report_only_calls, report_only_spawns.
  - intros answer. now apply report_only_no_read.
  - now apply Hfits.
  - now apply Hfits.
Qed.

(** C8: the freed space a confirmed session reports is the pre-snapshot
    total minus the post-snapshot total: the closing line formats that
    difference, and a negative difference is shown with its sign, in
    plain bytes, never as zero.  The line is written whenever the actions
    return; a session whose actions an exception cuts short reports no
    freed space at all. *)
Theorem freed_is_difference (dry_run : bool) (w : world) :
  let r := perform_cleaning parse_float sys dry_run w in
  let freed :=
    total (scan_cleanable_items w) - total (scan_cleanable_items (final r)) in
  confirmed (trace r) ->
  match outcome (actions_run sys w) with
  | Ok _ =>
      match format_bytes parse_float (PyInt freed) with
      | Ok text =>
          outcome r = Ok tt
          /\ (exists t0, trace r = (t0 ++ [freed_line text; Write nl])%list)
          /\ (freed < 0 -> exists digits, text = "-" ++ digits ++ " B")
          /\ (- 2 ^ 53 <= freed < 0 -> text = unscaled freed)
      | Raise e => outcome r = Raise e /\ ~ finite_count freed
      end
  | Raise e => outcome r = Raise e /\ Forall not_report (trace r)
  end.
Proof.
  cbv zeta. intros Hc.
  pose proof (session_report dry_run w Hc) as H. cbv zeta in H.
  destruct (outcome (actions_run sys w)); [|exact H].
  destruct (format_bytes parse_float _) as [text|e] eqn:Hf.
  - destruct H as (Ho & Ht). repeat split; auto.
    + intros Hneg. eapply format_bytes_int_sign; eauto.
    + intros Hrange. rewrite format_negative_int in Hf by exact Hrange.
      now injection Hf as <-.
  - split; [exact H|]. now apply format_bytes_int_raise in Hf.
Qed.

End Sessions.

(** C4: when both [/var/cache/dnf] and [/var/cache/yum] are directories,
    the snapshot has the key [dnf_cache] and not the key [yum_cache]; and
    no snapshot has both keys. *)
Theorem dnf_excludes_yum (w : world) :
  (dir_exists (fs w) dnf_cache = true ->
   dir_exists (fs w) yum_cache = true ->
   dict_mem "dnf_cache" (scan_cleanable_items w) = true
   /\ dict_mem "yum_cache" (scan_cleanable_items w) = false)
  /\ (dict_mem "dnf_cache" (scan_cleanable_items w) = true ->
      dict_mem "yum_cache" (scan_cleanable_items w) = true -> False).
Proof.
  rewrite !scan_mem. cbv zeta.
  repeat match goal with
         | |- context [String.eqb ?a ?b] =>
             let v := eval vm_compute in (String.eqb a b) in
             change (String.eqb a b) with v
         end.
  rewrite !andb_false_r, !andb_true_r. cbn [orb].
  destruct (dir_exists (fs w) dnf_cache), (dir_exists (fs w) yum_cache);
    cbn [negb andb orb]; rewrite ?orb_true_r;
    split; intros; auto; discriminate.
Qed.

(** C5: on a file tree whose directories have no repeated name,
    [get_dir_size] of a path is the sum of the sizes of the files
    reachable by walking it, an entry whose probe fails adding nothing
    and the walk going on; the size of a path that is not an existing
    directory is 0. *)
Theorem get_dir_size_exact (root : node) (d : path) :
  well_formed root = true ->
  get_dir_size root d = size_of root d
  /\ (isdir root d = false -> get_dir_size root d = 0).
Proof.
  intros Hwf. unfold get_dir_size, size_of, walk, isdir. split.
  - destruct (resolve root d) as [n|] eqn:Hres; [|reflexivity].
    apply (walk_dir_size root (stat n) d n); auto.
    apply well_formed_stat. eapply well_formed_resolve; eauto.
  - destruct (resolve root d) as [n|]; [|reflexivity].
    unfold is_dir. destruct (stat n) as [sz|sz l es|t];
      try reflexivity. discriminate.
Qed.

(** C6: a key of a snapshot other than [old_logs] is the key of a
    category whose defining path was a directory at scan time, and a
    category whose path is not a directory is absent; [old_logs] is in
    every snapshot, with value 0 when [/var/log] is absent or the walk of
    [/var/log] meets no name ending in [.gz], [.1], [.2] or [.old]. *)
Theorem snapshot_keys_have_paths (w : world) :
  (forall key,
     dict_mem key (scan_cleanable_items w) = true -> key <> "old_logs" ->
     exists p, category_path (home w) key = Some p
               /\ dir_exists (fs w) p = true)
  /\ (forall key p,
        category_path (home w) key = Some p ->
        dir_exists (fs w) p = false ->
        dict_mem key (scan_cleanable_items w) = false)
  /\ dict_mem "old_logs" (scan_cleanable_items w) = true
  /\ (dir_exists (fs w) var_log = false \/ no_rotated_logs (fs w) ->
      dict_get "old_logs" (scan_cleanable_items w) = Some 0).
Proof.
  assert (Hkeys : forall key,
            dict_mem key (scan_cleanable_items w) = true ->
            key <> "old_logs" ->
            exists p, category_path (home w) key = Some p
                      /\ dir_exists (fs w) p = true).
  { intros key Hmem Hkey. rewrite scan_mem in Hmem. cbv zeta in Hmem.
    apply String.eqb_neq in Hkey. rewrite Hkey in Hmem. cbn [orb] in Hmem.
    unfold category_path.
    repeat (apply orb_prop in Hmem as [Hmem|Hmem]);
      repeat (apply andb_prop in Hmem as [Hmem ?]);
      match goal with
      | H : String.eqb key _ = true |- _ =>
          apply String.eqb_eq in H; subst key
      end; cbn; eauto. }
  split; [exact Hkeys|]. split; [|split].
  - intros key p Hpath Hdir.
    destruct (dict_mem key (scan_cleanable_items w)) eqn:Hmem; [|reflexivity].
    assert (Hkey : key <> "old_logs") by (intros ->; discriminate Hpath).
    destruct (Hkeys key Hmem Hkey) as (p' & Hp' & Hdir'). congruence.
  - rewrite scan_mem. reflexivity.
  - intros Hnone. rewrite scan_old_logs. f_equal.
    now apply old_logs_size_none.
Qed.

(** C9: a cleaning action whose tool the [which] probe does not find is
    a no-op: it only runs the probe, writes nothing, returns normally and
    leaves the world untouched, and the rest of the session goes on from
    there.  The probe itself is taken to change nothing. *)
Theorem missing_tool_is_noop (sys : os) (tool fname : string)
    (action : prog unit) (w : world) :
  tool_gated sys tool fname action ->
  fst (sys (Argv ["which"; tool]) w) = w ->
  outcome (command_exists sys tool w) = Ok false ->
  action w = mkRun [Call fname; Spawn (Argv ["which"; tool])] w (Ok tt)
  /\ forall (rest : prog unit),
       bind action (fun _ => rest) w
       = mkRun ([Call fname; Spawn (Argv ["which"; tool])] ++ trace (rest w))%list
               (final (rest w)) (outcome (rest w)).
Proof.
  intros Hgated Hprobe Habsent.
  assert (Hrun :
    action w = mkRun [Call fname; Spawn (Argv ["which"; tool])] w (Ok tt)).
  { destruct Hgated;
      unfold clean_apt_cache, clean_dnf_cache, clean_yum_cache,
        clean_journal_logs;
      apply gated_skip; auto; vm_compute; reflexivity. }
  split; [exact Hrun|].
  intros rest. unfold bind. now rewrite Hrun.
Qed.

(** C10 (amended): a negative value whose conversion to [float] succeeds
    is never scaled: it is shown with one decimal place and the unit [B];
    a negative count converts unless it is at or below [-2^1023], and one
    of at most 53 bits is shown digit for digit, as [-5000000.0 B] for
    -5,000,000; an input on which [float] raises [TypeError] or
    [ValueError] is shown as [0 B]. *)
Theorem negative_counts_unscaled (parse_float : string -> option float) :
  (forall v x,
     to_float parse_float v = Ok x -> negative x = true ->
     format_bytes parse_float v = Ok (format_1f x ++ " B"))
  /\ (forall n,
        n < 0 ->
        (exists x, float_of_int n = Ok x /\ negative x = true)
        \/ (float_of_int n = Raise OverflowError /\ n <= - 2 ^ 1023))
  /\ (forall n,
        - 2 ^ 53 <= n < 0 ->
        format_bytes parse_float (PyInt n) = Ok (unscaled n))
  /\ format_bytes parse_float (PyInt (-5000000)) = Ok "-5000000.0 B"
  /\ (forall v,
        to_float parse_float v = Raise ValueError
        \/ to_float parse_float v = Raise TypeError ->
        format_bytes parse_float v = Ok "0 B")
  /\ format_bytes parse_float PyNone = Ok "0 B"
  /\ (forall s, parse_float s = None ->
                format_bytes parse_float (PyStr s) = Ok "0 B").
Proof.
  repeat split.
  - intros v x Hx Hneg. unfold format_bytes. rewrite Hx.
    now rewrite scale_negative.
  - intros n Hn. destruct (float_of_int n) as [x|e] eqn:Hf.
    + left. exists x. split; [reflexivity|].
      eapply float_of_int_negative; eauto.
    + right. apply float_of_int_raise in Hf as [-> Hbig].
      split; [reflexivity|]. unfold finite_count in Hbig. lia.
  - intros n Hn. now apply format_negative_int.
  - intros v [H|H]; unfold format_bytes; now rewrite H.
  - intros s Hs. unfold format_bytes, to_float. now rewrite Hs.
Qed.

(** ** Counterexamples to the claims as worded *)

(** C1: 380,000,000 bytes are not rendered as [380.0 MB]. *)
Lemma freed_example_not_380_MB :
  format_bytes Demo.no_literal (PyInt (500000000 - 120000000))
  <> Ok "380.0 MB".
Proof. vm_compute. discriminate. Qed.

(** C2: the response [ y], which is neither [y] nor [Y], does not cancel:
    on the sample host the package cache is purged. *)
Lemma padded_yes_proceeds :
  let r := perform_cleaning Demo.no_literal (Demo.apt_only Demo.after)
             false (Demo.host " y") in
  " y" <> "y" /\ " y" <> "Y"
  /\ calls (trace r) = ["clean_apt_cache"; "clean_old_logs"]
  /\ spawns (trace r)
     = [Argv ["which"; "apt-get"]; Argv ["apt-get"; "clean"];
        Argv ["apt-get"; "autoclean"]]
  /\ fs (final r) = Demo.after
  /\ fs (final r) <> fs (Demo.host " y").
Proof.
  cbv zeta.
  split; [discriminate|]. split; [discriminate|].
  split; [vm_compute; reflexivity|]. split; [vm_compute; reflexivity|].
  split; [vm_compute; reflexivity|]. vm_compute. discriminate.
Qed.

(** C7: on a host where [which] cannot be started the orchestrator does
    not reach every action.  The pre-snapshot of the sample host holds
    [apt_cache] and [old_logs] and the answer [y] is accepted, but the
    [PermissionError] of the first probe is not one of the exceptions
    [run_command] handles: it ends [clean_apt_cache] and the session with
    it, so [clean_old_logs] is never entered and the command exits with
    status 1. *)
Theorem launch_error_aborts_session :
  let w := Demo.host "y" in
  let r := perform_cleaning Demo.no_literal Demo.no_permission false w in
  confirmed (trace r)
  /\ expected_calls (scan_cleanable_items w)
     = ["clean_apt_cache"; "clean_old_logs"]
  /\ calls (trace r) = ["clean_apt_cache"]
  /\ spawns (trace r) = [Argv ["which"; "apt-get"]]
  /\ outcome r = Raise OSError
  /\ Cli.status (Cli.main_clean Demo.no_literal Demo.no_permission
                   Demo.message false w) = 1.
Proof.
  cbv zeta. split.
  - exists "y". split; [|reflexivity].
    vm_compute. repeat first [left; reflexivity | right].
  - repeat split; vm_compute; reflexivity.
Qed.

(** C10: a negative count beyond 53 bits is not shown digit for digit,
    and one at [-2^1024] is not shown at all. *)
Lemma huge_negative_counts_differ :
  format_bytes Demo.no_literal (PyInt (- (2 ^ 53 + 1)))
  = Ok "-9007199254740992.0 B"
  /\ format_bytes Demo.no_literal (PyInt (- (2 ^ 53 + 1)))
     <> Ok (unscaled (- (2 ^ 53 + 1)))
  /\ format_bytes Demo.no_literal (PyInt (- 2 ^ 1024)) = Raise OverflowError.
Proof.
  split; [vm_compute; reflexivity|].
  split; [vm_compute; discriminate | vm_compute; reflexivity].
Qed.

End Claims.

(* ================================================================== *)
(** * The claims on the sample hosts *)
(* ================================================================== *)

Module Witnesses.
Import Py Host Formatters Helpers Cleaner Spec Demo.

Ltac find_event := repeat first [left; reflexivity | right].

Ltac finite_figures :=
  repeat (apply Forall_cons; [vm_compute; reflexivity|]); apply Forall_nil.

(** C1 on the sample host: 500,000,000 bytes before, 120,000,000 after. *)
Lemma freed_example_report_witness :
  let r := perform_cleaning no_literal (apt_only after) false (host "y") in
  confirmed (trace r)
  /\ total (scan_cleanable_items (host "y")) = 500000000
  /\ total (scan_cleanable_items (final r)) = 120000000
  /\ outcome r = Ok tt
  /\ exists t0, trace r = (t0 ++ [freed_line "362.4 MB"; Write nl])%list.
Proof.
  cbv zeta.
  assert (Hc : confirmed (trace (perform_cleaning no_literal (apt_only after)
                                   false (host "y")))).
  { exists "y". split; [vm_compute; find_event | reflexivity]. }
  assert (Hpre : total (scan_cleanable_items (host "y")) = 500000000)
    by (vm_compute; reflexivity).
  assert (Hpost : total (scan_cleanable_items
                           (final (perform_cleaning no_literal (apt_only after)
                                     false (host "y")))) = 120000000)
    by (vm_compute; reflexivity).
  destruct (Claims.freed_example_report no_literal (apt_only after) false
              (host "y") Hc Hpre Hpost) as (_ & _ & H).
  assert (Hact : outcome (actions_run (apt_only after) (host "y")) = Ok tt)
    by (vm_compute; reflexivity).
  rewrite Hact in H. destruct H as (Ho & Ht).
  repeat split; assumption.
Defined.

(** C2 on the sample host: the empty response cancels. *)
Lemma cancelled_session_cleans_nothing_witness :
  let r := perform_cleaning no_literal (apt_only after) false (host "") in
  calls (trace r) = []
  /\ spawns (trace r) = []
  /\ fs (final r) = before.
Proof.
  cbv zeta.
  destruct (Claims.cancelled_session_cleans_nothing no_literal
              (apt_only after) (host "") "" [] eq_refl eq_refl)
    as (Hcalls & Hspawns & Hfs & _).
  repeat split; assumption.
Defined.

(** C3 on the sample host: the dry run ends normally, the host unchanged. *)
Lemma dry_run_only_reports_witness :
  let r := perform_cleaning no_literal (apt_only after) true (host "y") in
  final r = host "y" /\ calls (trace r) = [] /\ outcome r = Ok tt.
Proof.
  cbv zeta.
  destruct (Claims.dry_run_only_reports no_literal (apt_only after) (host "y"))
    as (Hw & _ & _ & _ & Hcalls & _ & _ & Hfits).
  split; [exact Hw|]. split; [exact Hcalls|].
  apply Hfits. finite_figures.
Defined.

(** C4 on a host with both package caches. *)
Lemma dnf_excludes_yum_witness :
  dict_mem "dnf_cache" (scan_cleanable_items fedora_host) = true
  /\ dict_mem "yum_cache" (scan_cleanable_items fedora_host) = false.
Proof.
  exact (proj1 (Claims.dnf_excludes_yum fedora_host) eq_refl eq_refl).
Defined.

(** C5 on a tree with a failed probe, an unlistable directory and links. *)
Lemma get_dir_size_exact_witness :
  get_dir_size fedora var_log = size_of fedora var_log
  /\ size_of fedora var_log = 3305
  /\ get_dir_size fedora ["srv"] = 0.
Proof.
  destruct (Claims.get_dir_size_exact fedora var_log eq_refl) as [Hsize _].
  destruct (Claims.get_dir_size_exact fedora ["srv"] eq_refl) as [_ Hnone].
  split; [exact Hsize|]. split; [vm_compute; reflexivity|].
  apply Hnone. reflexivity.
Defined.

(** C6 on the sample hosts. *)
Lemma snapshot_keys_have_paths_witness :
  (exists p, category_path (home fedora_host) "journal_logs" = Some p
             /\ dir_exists (fs fedora_host) p = true)
  /\ dict_get "old_logs" (scan_cleanable_items (host "y")) = Some 0.
Proof.
  split.
  - destruct (Claims.snapshot_keys_have_paths fedora_host) as (Hkeys & _).
    apply Hkeys; [vm_compute; reflexivity | discriminate].
  - destruct (Claims.snapshot_keys_have_paths (host "y"))
      as (_ & _ & _ & Hzero).
    apply Hzero. left. reflexivity.
Defined.

(** C8 on a host whose scratch file grows during the session. *)
Lemma freed_is_difference_witness :
  let r := perform_cleaning no_literal (apt_only grown) false (host "Y") in
  confirmed (trace r)
  /\ total (scan_cleanable_items (host "Y"))
     - total (scan_cleanable_items (final r)) = -120000000
  /\ outcome r = Ok tt
  /\ exists t0,
       trace r = (t0 ++ [freed_line "-120000000.0 B"; Write nl])%list.
Proof.
  cbv zeta.
  assert (Hc : confirmed (trace (perform_cleaning no_literal (apt_only grown)
                                   false (host "Y")))).
  { exists "Y". split; [vm_compute; find_event | reflexivity]. }
  pose proof (Claims.freed_is_difference no_literal (apt_only grown) false
                (host "Y") Hc) as H.
  cbv zeta in H.
  assert (Hfreed :
    total (scan_cleanable_items (host "Y"))
    - total (scan_cleanable_items
               (final (perform_cleaning no_literal (apt_only grown)
                         false (host "Y")))) = -120000000)
    by (vm_compute; reflexivity).
  assert (Hact : outcome (actions_run (apt_only grown) (host "Y")) = Ok tt)
    by (vm_compute; reflexivity).
  rewrite Hact, Hfreed in H.
  change (format_bytes no_literal (PyInt (-120000000)))
    with (@Ok string "-120000000.0 B") in H.
  destruct H as (Ho & Ht & _).
  repeat split; assumption.
Defined.

(** C9 on the sample host, where [dnf] is not installed. *)
Lemma missing_tool_is_noop_witness :
  clean_dnf_cache (apt_only after) (host "y")
  = mkRun [Call "clean_dnf_cache"; Spawn (Argv ["which"; "dnf"])]
          (host "y") (Ok tt).
Proof.
  exact (proj1 (Claims.missing_tool_is_noop (apt_only after)
                  "dnf" "clean_dnf_cache" _ (host "y")
                  (gated_dnf (apt_only after)) eq_refl eq_refl)).
Defined.

(** C10 on -5,000,000 and on a text that is not a number. *)
Lemma negative_counts_unscaled_witness :
  format_bytes no_literal (PyInt (-5000000)) = Ok (unscaled (-5000000))
  /\ format_bytes no_literal (PyStr "abc") = Ok "0 B".
Proof.
  destruct (Claims.negative_counts_unscaled no_literal)
    as (_ & _ & Hint & _ & _ & _ & Hstr).
  split.
  - apply Hint. split; [discriminate | reflexivity].
  - apply Hstr. reflexivity.
Defined.

End Witnesses.

(* ================================================================== *)
(** * Facts about the formatter on exact counts *)
(* ================================================================== *)

Module FloatFacts.
Import Py Formatters Spec PyFacts.

Lemma digits2_pos_bounds (p : positive) :
  2 ^ (Zpos (digits2_pos p) - 1) <= Zpos p < 2 ^ Zpos (digits2_pos p).
Proof.
  induction p as [p IH|p IH|]; cbn [digits2_pos].
  - rewrite Pos2Z.inj_succ.
    replace (Z.succ (Zpos (digits2_pos p)) - 1)
      with (Z.succ (Zpos (digits2_pos p) - 1)) by lia.
    rewrite !Z.pow_succ_r by lia.
    destruct IH as [IH1 IH2]. revert IH1 IH2.
    generalize (2 ^ (Zpos (digits2_pos p) - 1)) (2 ^ Zpos (digits2_pos p)).
    lia.
  - rewrite Pos2Z.inj_succ.
    replace (Z.succ (Zpos (digits2_pos p)) - 1)
      with (Z.succ (Zpos (digits2_pos p) - 1)) by lia.
    rewrite !Z.pow_succ_r by lia.
    destruct IH as [IH1 IH2]. revert IH1 IH2.
    generalize (2 ^ (Zpos (digits2_pos p) - 1)) (2 ^ Zpos (digits2_pos p)).
    lia.
  - simpl. lia.
Qed.

Lemma digits2_pos_53 (m : positive) :
  canonical53 m -> digits2_pos m = 53%positive.
Proof.
  intros [Hlo Hhi]. pose proof (digits2_pos_bounds m) as [Hl Hh].
  assert (H : Zpos (digits2_pos m) = 53).
  { destruct (Z.lt_trichotomy (Zpos (digits2_pos m)) 53) as [Hlt|[Heq|Hgt]];
      auto.
    - assert (2 ^ Zpos (digits2_pos m) <= 2 ^ 52)
        by (apply Z.pow_le_mono_r; lia).
      lia.
    - assert (2 ^ 53 <= 2 ^ (Zpos (digits2_pos m) - 1))
        by (apply Z.pow_le_mono_r; lia).
      lia. }
  now injection H.
Qed.

Lemma fdiv_1024 (s : bool) (m : positive) (e : Z) :
  canonical53 m -> -1063 <= e <= 981 ->
  fdiv (S754_finite s m e) f1024 = S754_finite s m (e - 10).
Proof.
  intros Hm He. unfold fdiv, f1024, SFdiv, SFdiv_core_binary.
  cbn [Zdigits2]. rewrite (digits2_pos_53 m Hm).
  change (digits2_pos (2 ^ 52)) with 53%positive.
  replace (Z.pos 53 + e - (Z.pos 53 + -42)) with (e + 42) by lia.
  replace (e - -42) with (e + 42) by lia.
  unfold fexp, emin, prec, emax.
  replace (Z.min (Z.max (e + 42 - 53) (3 - 1024 - 53)) (e + 42))
    with (e - 11) by lia.
  replace (e + 42 - (e - 11)) with 53 by lia.
  cbv iota.
  rewrite Z.shiftl_mul_pow2 by lia.
  assert (Hdiv : Z.div_eucl (Zpos m * 2 ^ 53) (Zpos (2 ^ 52))
                 = (Zpos m~0, 0)).
  { rewrite (surjective_pairing (Z.div_eucl _ _)).
    change (fst (Z.div_eucl ?a ?b)) with (a / b).
    change (snd (Z.div_eucl ?a ?b)) with (a mod b).
    change (Zpos (2 ^ 52)) with (2 ^ 52).
    replace (Zpos m * 2 ^ 53) with ((Zpos m * 2) * 2 ^ 52)
      by (change (2 ^ 53) with (2 * 2 ^ 52); lia).
    rewrite Z.div_mul, Z.mod_mul
      by (change (2 ^ 52) with 4503599627370496; lia).
    f_equal. lia. }
  rewrite Hdiv.
  change (new_location (Zpos (2 ^ 52)) 0) with loc_Exact.
  unfold binary_round_aux, shr_fexp.
  cbn [Zdigits2 digits2_pos shr_record_of_loc].
  rewrite (digits2_pos_53 m Hm).
  unfold fexp, emin.
  replace (Z.max (Zpos (Pos.succ 53) + (e - 11) - 53) (3 - 1024 - 53)
           - (e - 11)) with 1 by lia.
  cbn [shr iter_pos shr_1 shr_m shr_r shr_s orb loc_of_shr_record
       round_nearest_even Zdigits2].
  rewrite (digits2_pos_53 m Hm).
  replace (e - 11 + 1) with (e - 10) by lia.
  replace (Z.max (Z.pos 53 + (e - 10) - 53) (3 - 1024 - 53) - (e - 10))
    with 0 by lia.
  cbn [shr shr_m].
  replace (e - 10 <=? 1024 - 53) with true by (symmetry; apply Z.leb_le; lia).
  now rewrite xorb_false_r.
Qed.

Lemma flt_canonical (m : positive) (e : Z) :
  canonical53 m -> flt (S754_finite false m e) f1024 = (e <? -42).
Proof.
  intros [Hlo _]. unfold flt, f1024, SFltb, SFcompare.
  destruct (Z.compare_spec e (-42)) as [Heq|Hlt|Hgt].
  - subst e. change (-42 <? -42) with false.
    rewrite Pos.compare_cont_spec. cbn [Pos.switch_Eq].
    destruct (Pos.compare_spec m (2 ^ 52)) as [H|H|H]; try reflexivity.
    change (Zpos (2 ^ 52)) with (2 ^ 52) in *.
    apply Pos2Z.pos_lt_pos in H. change (Zpos (2 ^ 52)) with (2 ^ 52) in H.
    lia.
  - symmetry. apply Z.ltb_lt. exact Hlt.
  - symmetry. apply Z.ltb_ge. lia.
Qed.

Lemma scale_canonical (us : list string) :
  forall (m : positive) (e : Z),
    canonical53 m -> -1063 <= e <= 971 ->
    let k := Nat.min (divisions e) (List.length us) in
    scale us (S754_finite false m e)
    = format_1f (S754_finite false m (e - 10 * Z.of_nat k))
      ++ " " ++ nth k us "EB".
Proof.
  induction us as [|u rest IH]; intros m e Hm He; cbv zeta.
  - rewrite Nat.min_0_r. cbn [scale nth Z.of_nat]. now rewrite Z.sub_0_r.
  - cbn [scale List.length]. rewrite (flt_canonical m e Hm).
    destruct (e <? -42) eqn:Hcmp.
    + apply Z.ltb_lt in Hcmp.
      assert (Hd : divisions e = O).
      { unfold divisions.
        assert ((e + 52) / 10 <= 0).
        { apply Z.lt_succ_r. apply Z.div_lt_upper_bound; lia. }
        lia. }
      rewrite Hd. cbn [Nat.min nth Z.of_nat]. now rewrite Z.sub_0_r.
    + apply Z.ltb_ge in Hcmp.
      rewrite (fdiv_1024 false m e Hm) by lia.
      assert (Hd : divisions e = S (divisions (e - 10))).
      { unfold divisions.
        replace (e + 52) with ((e - 10 + 52) + 1 * 10) by lia.
        rewrite Z.div_add by lia.
        assert (0 <= (e - 10 + 52) / 10) by (apply Z.div_pos; lia).
        lia. }
      rewrite Hd. cbn [Nat.min nth].
      rewrite (IH m (e - 10) Hm) by lia. cbv zeta.
      f_equal. f_equal. f_equal. lia.
Qed.

Lemma round_half_even_scale (a b c : Z) :
  0 < b -> 0 < c -> round_half_even (a * c) (b * c) = round_half_even a b.
Proof.
  intros Hb Hc. unfold round_half_even.
  rewrite Z.div_mul_cancel_r by lia.
  rewrite Z.mul_mod_distr_r by lia.
  assert (Hcmp : (2 * (a mod b * c) ?= b * c) = (2 * (a mod b) ?= b)).
  { destruct (Z.compare_spec (2 * (a mod b)) b) as [H|H|H].
    - apply Z.compare_eq_iff. nia.
    - apply Z.compare_lt_iff. nia.
    - apply Z.compare_gt_iff. nia. }
  now rewrite Hcmp.
Qed.

Lemma pow_1024 (k : Z) : 0 <= k -> 1024 ^ k = 2 ^ (10 * k).
Proof. intros Hk. rewrite Z.pow_mul_r by lia. reflexivity. Qed.

(** The loop over [float]s computes the exact quotient. *)
Lemma format_bytes_quotient (parse_float : string -> option float) (n k : Z) :
  0 <= k -> 1024 ^ k <= n < 1024 ^ (k + 1) -> n < 2 ^ 53 ->
  format_bytes parse_float (PyInt n)
  = Ok (fixed1 (round_half_even (10 * n) (1024 ^ k))
        ++ " " ++ nth (Z.to_nat k) units "EB").
Proof.
  intros Hk [Hlo Hhi] Hn.
  assert (Hpos : 0 < 1024 ^ k) by (apply Z.pow_pos_nonneg; lia).
  destruct n as [|p|p]; try lia.
  rewrite !pow_1024 in * by lia.
  pose proof (Z.log2_spec (Zpos p) eq_refl) as [Hl2 Hh2].
  pose proof (Z.log2_nonneg (Zpos p)) as Hnn.
  assert (Hlog : 10 * k <= Z.log2 (Zpos p) < 10 * (k + 1)).
  { split.
    - apply Z.log2_le_pow2; lia.
    - apply Z.log2_lt_pow2; lia. }
  assert (Hbits : Z.log2 (Zpos p) < 53) by (apply Z.log2_lt_pow2; lia).
  set (bits := Z.log2 (Zpos p) + 1) in *.
  set (a := 53 - bits).
  assert (Ha : 0 <= a) by (unfold a, bits; lia).
  assert (Hpa : 0 < 2 ^ a) by (apply Z.pow_pos_nonneg; lia).
  assert (Hcanon : canonical53 (Z.to_pos (Zpos p * 2 ^ a))).
  { assert (H52 : 2 ^ 52 = 2 ^ Z.log2 (Zpos p) * 2 ^ a).
    { rewrite <- Z.pow_add_r by lia. f_equal. unfold a, bits. lia. }
    assert (H53 : 2 ^ 53 = 2 ^ Z.succ (Z.log2 (Zpos p)) * 2 ^ a).
    { rewrite <- Z.pow_add_r by lia. f_equal. unfold a, bits. lia. }
    unfold canonical53. rewrite Z2Pos.id by nia. rewrite H52, H53. split.
    - apply Z.mul_le_mono_nonneg_r; [lia | exact Hl2].
    - apply Z.mul_lt_mono_pos_r; [exact Hpa | exact Hh2]. }
  unfold format_bytes, to_float, float_of_int, float_of_pos.
  fold bits. unfold prec. fold a.
  replace (bits <=? 53) with true
    by (symmetry; apply Z.leb_le; unfold bits; lia).
  rewrite scale_canonical by (try exact Hcanon; unfold bits; lia).
  cbv zeta.
  assert (Hdiv : divisions (bits - 53) = Z.to_nat k).
  { unfold divisions. f_equal.
    replace (bits - 53 + 52) with (Z.log2 (Zpos p)) by (unfold bits; lia).
    symmetry. apply Z.div_unique with (r := Z.log2 (Zpos p) - 10 * k); lia. }
  rewrite Hdiv.
  assert (Hmin : Nat.min (Z.to_nat k) (List.length units) = Z.to_nat k).
  { apply Nat.min_l. change (List.length units) with 6%nat. lia. }
  rewrite Hmin, Z2Nat.id by lia.
  f_equal. unfold format_1f. cbn [sign_str append].
  f_equal. f_equal. unfold tenths.
  replace (0 <=? bits - 53 - 10 * k) with false
    by (symmetry; apply Z.leb_gt; unfold bits; lia).
  rewrite Z2Pos.id by nia.
  replace (- (bits - 53 - 10 * k)) with (10 * k + a) by (unfold a; lia).
  rewrite Z.pow_add_r by lia.
  replace (10 * (Zpos p * 2 ^ a)) with (10 * Zpos p * 2 ^ a) by lia.
  apply round_half_even_scale; [apply Z.pow_pos_nonneg; lia | exact Hpa].
Qed.

(** X1: a count below [2^53] that lies between [1024^k] and [1024^(k+1)]
    is shown in the [k]-th unit, with the count divided by [1024^k] and
    rounded to the nearest tenth, ties to even: the loop over [float]s
    computes the exact quotient. *)
Theorem format_bytes_exact (parse_float : string -> option float) (n k : Z) :
  0 <= k -> 1024 ^ k <= n < 1024 ^ (k + 1) -> n < 2 ^ 53 ->
  format_bytes parse_float (PyInt n)
  = Ok (fixed1 (round_half_even (10 * n) (1024 ^ k))
        ++ " " ++ nth (Z.to_nat k) units "EB").
Proof. apply format_bytes_quotient. Qed.

(** X2: a count below 1024 is shown digit for digit, in bytes. *)
Theorem format_bytes_below_1024 (parse_float : string -> option float) (n : Z) :
  0 <= n < 1024 ->
  format_bytes parse_float (PyInt n) = Ok (decimal n ++ ".0 B").
Proof.
  intros [Hlo Hhi]. destruct (Z.eq_dec n 0) as [->|Hnz]; [reflexivity|].
  rewrite (format_bytes_quotient parse_float n 0) by (simpl; lia).
  change (1024 ^ 0) with 1. replace (10 * n) with ((10 * n) * 1) by lia.
  rewrite round_exact by lia.
  rewrite fixed1_tenfold by lia.
  cbn [nth Z.to_nat units]. now rewrite append_assoc.
Qed.

End FloatFacts.

(* ================================================================== *)
(** * Facts about percentages and uptimes *)
(* ================================================================== *)

Module ReportFacts.
Import Py Formatters Spec PyFacts SessionFacts.

Lemma length_append (a b : string) :
  String.length (a ++ b) = (String.length a + String.length b)%nat.
Proof.
  induction a as [|c a IH]; cbn [append String.length]; [reflexivity|].
  now rewrite IH.
Qed.

(** A finite value divided by itself is [1.0]. *)
Lemma fdiv_self (s : bool) (m : positive) (e : Z) :
  fdiv (S754_finite s m e) (S754_finite s m e)
  = S754_finite false (2 ^ 52) (-52).
Proof.
  unfold fdiv, SFdiv, SFdiv_core_binary.
  rewrite !Z.sub_diag, xorb_nilpotent.
  change (Z.min (fexp prec emax 0) 0) with (-53).
  change (0 - -53) with 53. cbv iota.
  rewrite Z.shiftl_mul_pow2 by lia.
  assert (Hdiv : Z.div_eucl (Zpos m * 2 ^ 53) (Zpos m) = (2 ^ 53, 0)).
  { rewrite (surjective_pairing (Z.div_eucl _ _)).
    change (fst (Z.div_eucl ?a ?b)) with (a / b).
    change (snd (Z.div_eucl ?a ?b)) with (a mod b).
    rewrite (Z.mul_comm (Zpos m)), Z.div_mul, Z.mod_mul by lia.
    reflexivity. }
  rewrite Hdiv.
  assert (Hloc : new_location (Zpos m) 0 = loc_Exact).
  { unfold new_location. destruct (Z.even (Zpos m)); reflexivity. }
  rewrite Hloc. reflexivity.
Qed.

Lemma float_of_int_finite (n : Z) (s : bool) (m : positive) (e : Z) :
  float_of_int n = Ok (S754_finite s m e) -> n <> 0 /\ s = (n <? 0).
Proof.
  destruct n as [|p|p]; cbn [float_of_int]; [discriminate| |];
    intros H; destruct (float_of_pos_finite _ _ _ H) as (m' & e' & [= -> _ _]);
    split; try reflexivity; lia.
Qed.

(** What [float] can raise. *)
Lemma to_float_raise (parse_float : string -> option float) (v : value)
    (e : exn) :
  to_float parse_float v = Raise e ->
  e = ValueError \/ e = TypeError \/ e = OverflowError.
Proof.
  destruct v as [n|x|s|]; cbn [to_float].
  - intros H. apply float_of_int_raise in H as [-> _]. auto.
  - discriminate.
  - destruct (parse_float s); [discriminate|]. intros [= <-]. auto.
  - intros [= <-]. auto.
Qed.

Section Percentages.

Variable parse_float : string -> option float.
Variable parse_int : string -> option Z.

(** X3: a value measured against itself is shown as [100.0%], whatever
    finite non-zero value it is. *)
Theorem format_percentage_whole (v : value) (s : bool) (m : positive) (e : Z) :
  to_float parse_float v = Ok (S754_finite s m e) ->
  format_percentage parse_float v v = Ok "100.0%".
Proof.
  intros Hv. unfold format_percentage.
  assert (Hz : equals_zero v = false).
  { destruct v as [n|x|t|]; cbn [equals_zero]; try reflexivity.
    - cbn [to_float] in Hv. apply float_of_int_finite in Hv as [Hn _].
      now apply Z.eqb_neq.
    - cbn [to_float] in Hv. injection Hv as ->. reflexivity. }
  rewrite Hz, Hv. cbn [true_div]. rewrite fdiv_self. reflexivity.
Qed.

(** X4: a total that converts to zero never divides: the result is the
    text [0%], whether the total is the number zero or a text that reads
    as zero, provided the conversion of the value does not overflow. *)
Theorem format_percentage_zero_total (value total : value) (s : bool) :
  to_float parse_float total = Ok (S754_zero s) ->
  to_float parse_float value <> Raise OverflowError ->
  format_percentage parse_float value total = Ok "0%".
Proof.
  intros Ht Hv. unfold format_percentage.
  destruct (equals_zero total); [reflexivity|].
  rewrite Ht.
  destruct (to_float parse_float value) as [x|e] eqn:Hx; [reflexivity|].
  destruct (to_float_raise _ _ _ Hx) as [-> | [-> | ->]];
    [reflexivity | reflexivity | congruence].
Qed.



Lemma uptime_fields_bounds (seconds : Z) :
  let '(days, hours, minutes, secs) := uptime_fields seconds in
  seconds = days * 86400 + hours * 3600 + minutes * 60 + secs
  /\ 0 <= hours < 24 /\ 0 <= minutes < 60 /\ 0 <= secs < 60.
Proof.
  unfold uptime_fields. Z.div_mod_to_equations. lia.
Qed.

(** X6: the four numbers of an uptime add up to the seconds, with hours
    below 24 and minutes and seconds below 60, for every count of seconds,
    negative ones included. *)
Theorem uptime_fields_recompose (seconds : Z) :
  let '(days, hours, minutes, secs) := uptime_fields seconds in
  seconds = days * 86400 + hours * 3600 + minutes * 60 + secs
  /\ 0 <= hours < 24 /\ 0 <= minutes < 60 /\ 0 <= secs < 60.
Proof. exact (uptime_fields_bounds seconds). Qed.

(** X7: a negative count of seconds loses its sign and its days: it is
    shown as the time of day it wraps to, as [23:59:59] for -1. *)
Theorem format_uptime_negative (seconds : Z) :
  seconds < 0 ->
  format_uptime parse_int (PyInt seconds)
  = format_uptime parse_int (PyInt (seconds mod 86400))
  /\ format_uptime parse_int (PyInt seconds)
     = Ok (clock ((seconds mod 86400) / 3600) ((seconds mod 3600) / 60)
                 (seconds mod 60)).
Proof.
  intros Hneg. unfold format_uptime, uptime_fields. cbn [to_int].
  assert (Hd : (0 <? seconds / 86400) = false).
  { apply Z.ltb_ge. Z.div_mod_to_equations. lia. }
  assert (Hd' : (0 <? seconds mod 86400 / 86400) = false).
  { apply Z.ltb_ge. Z.div_mod_to_equations. lia. }
  rewrite Hd, Hd'.
  assert (H1 : seconds mod 86400 mod 86400 = seconds mod 86400)
    by (Z.div_mod_to_equations; lia).
  assert (H2 : seconds mod 86400 mod 3600 = seconds mod 3600)
    by (Z.div_mod_to_equations; lia).
  assert (H3 : seconds mod 86400 mod 60 = seconds mod 60)
    by (Z.div_mod_to_equations; lia).
  now rewrite H1, H2, H3.
Qed.

Lemma clock_not_fallback (h m s : Z) :
  0 <= h < 24 -> clock h m s <> "0:00:00".
Proof.
  intros Hh. unfold clock.
  assert (Hcases : h = 0 \/ h = 1 \/ h = 2 \/ h = 3 \/ h = 4 \/ h = 5
                   \/ h = 6 \/ h = 7 \/ h = 8 \/ h = 9 \/ h = 10 \/ h = 11
                   \/ h = 12 \/ h = 13 \/ h = 14 \/ h = 15 \/ h = 16
                   \/ h = 17 \/ h = 18 \/ h = 19 \/ h = 20 \/ h = 21
                   \/ h = 22 \/ h = 23) by lia.
  repeat (destruct Hcases as [->|Hcases]); try subst h;
    match goal with
    | |- pad2 ?k ++ _ <> _ =>
        let v := eval vm_compute in (pad2 k) in
        change (pad2 k) with v
    end; cbn [append]; discriminate.
Qed.

(** X8: the text [0:00:00] written for an input that is not a number is
    never the rendering of a number of seconds: a real uptime of zero is
    [00:00:00]. *)
Theorem format_uptime_fallback_distinct (v : value) (seconds : Z)
    (text : string) :
  to_int parse_int v = Ok seconds ->
  format_uptime parse_int v = Ok text ->
  text <> "0:00:00".
Proof.
  intros Hv. unfold format_uptime. rewrite Hv.
  pose proof (uptime_fields_bounds seconds) as H.
  destruct (uptime_fields seconds) as [[[d h] m] s].
  destruct H as (_ & Hh & _ & _).
  destruct (0 <? d); intros [= <-].
  - intros Heq. apply (f_equal String.length) in Heq. unfold clock in Heq.
    rewrite !length_append in Heq. cbn [String.length append] in Heq.
    rewrite !length_append in Heq. cbn [String.length] in Heq. lia.
  - now apply clock_not_fallback.
Qed.

End Percentages.

End ReportFacts.

(* ================================================================== *)
(** * Facts about tables *)
(* ================================================================== *)

Module TableFacts.
Import Py Formatters Spec ReportFacts.

Lemma length_repeat_char (c : ascii) (n : nat) :
  String.length (repeat_char c n) = n.
Proof. induction n as [|n IH]; cbn; [reflexivity | now rewrite IH]. Qed.

Lemma length_ljust (s : string) (width : nat) :
  String.length (ljust s width) = Nat.max (String.length s) width.
Proof.
  unfold ljust. rewrite length_append, length_repeat_char. lia.
Qed.

Lemma length_line (s : string) :
  String.length (line s) = S (String.length s).
Proof. unfold line, nl, chr. rewrite length_append. cbn. lia. Qed.

(** The length of joined parts depends on the lengths of the parts only. *)
Lemma length_join (sep : string) (parts : list string) :
  String.length (join sep parts)
  = (list_sum (map String.length parts)
     + String.length sep * (List.length parts - 1))%nat.
Proof.
  induction parts as [|p [|q rest] IH].
  - cbn. lia.
  - cbn. lia.
  - change (join sep (p :: q :: rest)) with (p ++ sep ++ join sep (q :: rest)).
    rewrite !length_append, IH. cbn [map list_sum List.length].
    rewrite !Nat.sub_succ, !Nat.sub_0_r, Nat.mul_succ_r.
    unfold list_sum. cbn [fold_right]. lia.
Qed.

Section Columns.

Variable rows : list (list string).

Lemma column_fold_ge (i : nat) (rs : list (list string)) (acc : nat) :
  (acc <= fold_left
            (fun max_width row =>
               match nth_error row i with
               | Some cell => Nat.max max_width (String.length cell)
               | None => max_width
               end) rs acc)%nat.
Proof.
  revert acc. induction rs as [|r rs IH]; intros acc; cbn [fold_left]; [lia|].
  etransitivity; [|apply IH]. destruct (nth_error r i); lia.
Qed.

Lemma column_fold_cell (i : nat) (rs : list (list string)) (acc : nat)
    (row : list string) (cell : string) :
  In row rs -> nth_error row i = Some cell ->
  (String.length cell
   <= fold_left
        (fun max_width row =>
           match nth_error row i with
           | Some cell => Nat.max max_width (String.length cell)
           | None => max_width
           end) rs acc)%nat.
Proof.
  revert acc.
  induction rs as [|r rs IH]; intros acc Hin Hcell; [contradiction|].
  cbn [fold_left]. destruct Hin as [->|Hin].
  - rewrite Hcell. etransitivity; [|apply column_fold_ge]. lia.
  - now apply IH.
Qed.

(** A column is as wide as its header and as each of its cells. *)
Lemma column_width_header (i : nat) (header : string) :
  (String.length header <= column_width rows i header)%nat.
Proof. apply column_fold_ge. Qed.

Lemma column_width_cell (i : nat) (header : string)
    (row : list string) (cell : string) :
  In row rows -> nth_error row i = Some cell ->
  (String.length cell <= column_width rows i header)%nat.
Proof. apply column_fold_cell. Qed.

(** The widths from a starting index, with their headers. *)
Lemma header_parts_lengths (start : nat) (headers : list string) :
  map String.length
      (header_parts
         (map (fun ih => column_width rows (fst ih) (snd ih))
              (combine (seq start (List.length headers)) headers))
         headers)
  = map (fun ih => column_width rows (fst ih) (snd ih))
        (combine (seq start (List.length headers)) headers).
Proof.
  unfold header_parts. revert start.
  induction headers as [|h hs IH]; intros start; [reflexivity|].
  cbn [List.length seq combine map fst snd]. f_equal; [|apply IH].
  rewrite length_ljust. pose proof (column_width_header start h). lia.
Qed.

Lemma row_parts_lengths (row : list string) (start : nat)
    (headers : list string) :
  In row rows ->
  map String.length
      (map (fun iw =>
              match nth_error row (fst iw) with
              | Some cell => ljust cell (snd iw)
              | None => repeat_char " " (snd iw)
              end)
           (combine (seq start (List.length headers))
              (map (fun ih => column_width rows (fst ih) (snd ih))
                   (combine (seq start (List.length headers)) headers))))
  = map (fun ih => column_width rows (fst ih) (snd ih))
        (combine (seq start (List.length headers)) headers).
Proof.
  intros Hin. revert start.
  induction headers as [|h hs IH]; intros start; [reflexivity|].
  cbn [List.length seq combine map fst snd]. f_equal; [|apply IH].
  destruct (nth_error row start) as [cell|] eqn:Hcell.
  - rewrite length_ljust.
    pose proof (column_width_cell start h row cell Hin Hcell). lia.
  - apply length_repeat_char.
Qed.

End Columns.

Lemma column_widths_length (headers : list string)
    (rows : list (list string)) :
  List.length (column_widths headers rows) = List.length headers.
Proof.
  unfold column_widths.
  now rewrite length_map, length_combine, length_seq, Nat.min_id.
Qed.

(** The lines of a table all have the same length. *)
Lemma print_table_lengths (headers : list string)
    (rows : list (list string)) (column_spacing : Z) :
  rows <> [] ->
  List.length (print_table headers rows column_spacing)
  = S (List.length rows)
  /\ Forall (fun l => String.length l
                      = table_line_length headers rows column_spacing)
            (print_table headers rows column_spacing).
Proof.
  intros Hrows. unfold print_table, table_line_length.
  destruct rows as [|r0 rs] eqn:Hr; [contradiction|]. rewrite <- Hr.
  cbv zeta. split.
  - cbn [List.length]. now rewrite length_map.
  - constructor.
    + rewrite length_line, length_join, length_repeat_char.
      unfold column_widths at 1 2.
      rewrite (header_parts_lengths rows 0 headers).
      unfold header_parts. rewrite length_map, length_combine.
      fold (column_widths headers rows). rewrite column_widths_length.
      now rewrite Nat.min_id.
    + apply Forall_forall. intros l Hl.
      apply in_map_iff in Hl as (row & <- & Hin).
      rewrite length_line, length_join, length_repeat_char.
      unfold row_parts. rewrite length_map, length_combine, length_seq.
      rewrite Nat.min_id, column_widths_length.
      unfold column_widths at 1.
      rewrite (row_parts_lengths rows row 0 headers Hin).
      reflexivity.
Qed.

Lemma nth_error_combine {A B} (l : list A) (l' : list B) (i : nat) :
  nth_error (combine l l') i
  = match nth_error l i, nth_error l' i with
    | Some a, Some b => Some (a, b)
    | _, _ => None
    end.
Proof.
  revert l' i. induction l as [|a l IH]; intros [|b l'] [|i];
    cbn [combine nth_error]; try reflexivity.
  - now destruct (nth_error l i).
  - apply IH.
Qed.

(** The width of a column, by its index. *)
Lemma column_widths_nth (headers : list string) (rows : list (list string))
    (i : nat) :
  nth_error (column_widths headers rows) i
  = option_map (column_width rows i) (nth_error headers i).
Proof.
  unfold column_widths. rewrite nth_error_map, nth_error_combine.
  rewrite nth_error_seq. cbn [Nat.add].
  destruct (nth_error headers i) as [h|] eqn:Hh.
  - assert (Hi : (i < List.length headers)%nat).
    { apply nth_error_Some. congruence. }
    apply Nat.ltb_lt in Hi. now rewrite Hi.
  - now destruct (i <? List.length headers)%nat.
Qed.

(** A text no longer than the width, justified. *)
Lemma padded_ljust (text : string) (width : nat) :
  (String.length text <= width)%nat -> padded text width (ljust text width).
Proof.
  intros Hle. split.
  - rewrite length_ljust. lia.
  - now exists (width - String.length text)%nat.
Qed.

Lemma padded_blank (width : nat) : padded "" width (repeat_char " " width).
Proof.
  split; [apply length_repeat_char | now exists width].
Qed.

(** The parts of the header line, by their index. *)
Lemma header_parts_nth (headers : list string) (rows : list (list string))
    (i : nat) (header : string) :
  nth_error headers i = Some header ->
  exists part,
    nth_error (header_parts (column_widths headers rows) headers) i
    = Some part
    /\ padded header (column_width rows i header) part.
Proof.
  intros Hh. unfold header_parts.
  rewrite nth_error_map, nth_error_combine, Hh, column_widths_nth, Hh.
  cbn [option_map fst snd]. eexists. split; [reflexivity|].
  apply padded_ljust, column_width_header.
Qed.

(** The parts of the line of a row, by their index. *)
Lemma row_parts_nth (headers : list string) (rows : list (list string))
    (row : list string) (i : nat) (width : nat) :
  In row rows ->
  nth_error (column_widths headers rows) i = Some width ->
  exists part,
    nth_error (row_parts (column_widths headers rows) row) i = Some part
    /\ padded (nth i row "") width part.
Proof.
  intros Hin Hw. unfold row_parts.
  rewrite nth_error_map, nth_error_combine, nth_error_seq, Hw.
  assert (Hi : (i < List.length (column_widths headers rows))%nat).
  { apply nth_error_Some. congruence. }
  apply Nat.ltb_lt in Hi. rewrite Hi. cbn [Nat.add option_map fst snd].
  eexists. split; [reflexivity|].
  rewrite column_widths_nth in Hw.
  destruct (nth_error headers i) as [header|]; [|discriminate].
  injection Hw as <-.
  destruct (nth_error row i) as [cell|] eqn:Hcell.
  - rewrite (nth_error_nth row i "" Hcell).
    apply padded_ljust. now apply column_width_cell with (row := row).
  - rewrite (nth_error_nth_None row i "" Hcell). apply padded_blank.
Qed.

Lemma row_parts_length (widths : list nat) (row : list string) :
  List.length (row_parts widths row) = List.length widths.
Proof.
  unfold row_parts.
  now rewrite length_map, length_combine, length_seq, Nat.min_id.
Qed.

(** Cells beyond the headers change neither the widths nor the lines. *)
Lemma column_width_firstn (rows : list (list string)) (n i : nat)
    (header : string) :
  (i < n)%nat ->
  column_width (map (firstn n) rows) i header = column_width rows i header.
Proof.
  intros Hi. unfold column_width. generalize (String.length header).
  induction rows as [|row rows IH]; intros acc; cbn [map fold_left];
    [reflexivity|].
  rewrite nth_error_firstn. apply Nat.ltb_lt in Hi. rewrite Hi. apply IH.
Qed.

Lemma column_widths_firstn (headers : list string)
    (rows : list (list string)) :
  column_widths headers (map (firstn (List.length headers)) rows)
  = column_widths headers rows.
Proof.
  unfold column_widths. apply map_ext_in. intros [i h] Hin.
  cbn [fst snd]. apply column_width_firstn.
  apply in_combine_l, in_seq in Hin. lia.
Qed.

Lemma row_parts_firstn (widths : list nat) (row : list string) :
  row_parts widths (firstn (List.length widths) row) = row_parts widths row.
Proof.
  unfold row_parts. apply map_ext_in. intros [i width] Hin.
  cbn [fst snd]. rewrite nth_error_firstn.
  apply in_combine_l, in_seq in Hin.
  assert (Hi : (i <? List.length widths)%nat = true)
    by (apply Nat.ltb_lt; lia).
  now rewrite Hi.
Qed.

Lemma print_table_firstn (headers : list string) (rows : list (list string))
    (column_spacing : Z) :
  print_table headers (map (firstn (List.length headers)) rows)
    column_spacing
  = print_table headers rows column_spacing.
Proof.
  destruct rows as [|row rows]; [reflexivity|].
  pose proof (column_widths_firstn headers (row :: rows)) as HW.
  pose proof (column_widths_length headers (row :: rows)) as HL.
  unfold print_table. cbn [map] in *. cbv zeta. rewrite HW, map_map.
  rewrite <- HL. f_equal.
  rewrite row_parts_firstn. f_equal.
  apply map_ext. intros r. now rewrite row_parts_firstn.
Qed.

(** X9: for a table with at least one row, [print_table] writes one line
    for the headers and one for each row, all of the same length, the sum
    of the column widths and of the gaps.  Each line is the parts of its
    columns joined by the gap, one part for each header: a header or a cell
    stands whole in its part, no character cut, followed by blanks up to
    the width of the column, and a row with no cell in a column has blanks
    there.  Cells beyond the headers are not written: cutting every row to
    the number of headers gives the same lines. *)
Theorem print_table_aligned (headers : list string)
    (rows : list (list string)) (column_spacing : Z) :
  rows <> [] ->
  let widths := column_widths headers rows in
  let gap := repeat_char " " (Z.to_nat column_spacing) in
  let lines := print_table headers rows column_spacing in
  List.length lines = S (List.length rows)
  /\ Forall (fun l => String.length l
                      = table_line_length headers rows column_spacing)
            lines
  /\ (exists head body,
        lines = line (join gap head)
                  :: map (fun parts => line (join gap parts)) body
        /\ (forall i header,
              nth_error headers i = Some header ->
              exists width part,
                nth_error widths i = Some width
                /\ nth_error head i = Some part
                /\ padded header width part)
        /\ (forall j row,
              nth_error rows j = Some row ->
              exists parts,
                nth_error body j = Some parts
                /\ List.length parts = List.length headers
                /\ forall i width,
                     nth_error widths i = Some width ->
                     exists part,
                       nth_error parts i = Some part
                       /\ padded (nth i row "") width part))
  /\ print_table headers (map (firstn (List.length headers)) rows)
       column_spacing
     = lines.
Proof.
  intros Hrows. cbv zeta.
  destruct (print_table_lengths headers rows column_spacing Hrows)
    as [Hlen Hall].
  split; [exact Hlen|]. split; [exact Hall|].
  split; [|apply print_table_firstn].
  exists (header_parts (column_widths headers rows) headers),
    (map (row_parts (column_widths headers rows)) rows).
  split; [|split].
  - unfold print_table. destruct rows as [|r0 rs]; [contradiction|].
    cbv zeta. f_equal. now rewrite map_map.
  - intros i header Hh.
    destruct (header_parts_nth headers rows i header Hh) as (part & Hp & Hpad).
    exists (column_width rows i header), part.
    split; [|split; assumption].
    now rewrite column_widths_nth, Hh.
  - intros j row Hrow.
    exists (row_parts (column_widths headers rows) row).
    split; [now apply map_nth_error|].
    split; [now rewrite row_parts_length, column_widths_length|].
    intros i width Hw. apply row_parts_nth; [|exact Hw].
    eapply nth_error_In; eauto.
Qed.

End TableFacts.

(* ================================================================== *)
(** * Facts about the name of the operating system *)
(* ================================================================== *)

Module OsFacts.
Import Py Host Helpers Spec CatalogFacts.

Lemma contains_lstrip (c : ascii) (s : string) :
  contains c (lstrip s) = true -> contains c s = true.
Proof.
  induction s as [|a s IH]; cbn [lstrip contains]; [auto|].
  destruct (is_space a); [|auto].
  intros H. rewrite (IH H). apply orb_true_r.
Qed.

Lemma contains_rev_onto (c : ascii) (s acc : string) :
  contains c (rev_onto s acc) = contains c s || contains c acc.
Proof.
  revert acc. induction s as [|a s IH]; intros acc; cbn [rev_onto contains].
  - reflexivity.
  - rewrite IH. cbn [contains].
    destruct (Ascii.eqb a c), (contains c s), (contains c acc); reflexivity.
Qed.

Lemma contains_rev (c : ascii) (s : string) :
  contains c (rev s) = contains c s.
Proof. unfold rev. rewrite contains_rev_onto. apply orb_false_r. Qed.

Lemma contains_strip (c : ascii) (s : string) :
  contains c (strip s) = true -> contains c s = true.
Proof.
  unfold strip, rstrip. rewrite contains_rev. intros H.
  apply contains_lstrip in H. rewrite contains_rev in H.
  now apply contains_lstrip.
Qed.

Lemma contains_append (c : ascii) (a b : string) :
  contains c (a ++ b) = contains c a || contains c b.
Proof.
  induction a as [|x a IH]; cbn [append contains]; [reflexivity|].
  rewrite IH. apply orb_assoc.
Qed.

(** Only the first separator splits. *)
Lemma split_once_first (c : ascii) (key value : string) :
  contains c key = false ->
  split_once c (key ++ String c value) = (key, value).
Proof.
  induction key as [|x key IH]; cbn [append contains split_once].
  - intros _. now rewrite Ascii.eqb_refl.
  - intros H. apply orb_false_elim in H as [Hx Hkey].
    now rewrite Hx, (IH Hkey).
Qed.

(** A line that does not assign [key] leaves its value as it was. *)
Lemma parse_line_other (key line : string) (os_info : dict string) :
  assigns key line = false ->
  dict_get key
    match os_release_entry line with
    | Some (k, v) => dict_set k v os_info
    | None => os_info
    end
  = dict_get key os_info.
Proof.
  unfold assigns. destruct (os_release_entry line) as [[k v]|]; [|reflexivity].
  intros H. now rewrite dict_get_set, String.eqb_sym, H.
Qed.

Lemma parse_lines_other (key : string) (lines : list string) :
  Forall (fun line => assigns key line = false) lines ->
  forall os_info,
    dict_get key
      (fold_left
         (fun os_info line =>
            match os_release_entry line with
            | Some (key, value) => dict_set key value os_info
            | None => os_info
            end) lines os_info)
    = dict_get key os_info.
Proof.
  induction 1 as [|line lines Hline _ IH]; intros os_info; cbn [fold_left];
    [reflexivity|].
  rewrite IH. now apply parse_line_other.
Qed.

(** The value of a key is the one its last assignment gives. *)
Lemma parse_os_release_last (key value : string)
    (before after : list string) (line : string) :
  os_release_entry line = Some (key, value) ->
  Forall (fun l => assigns key l = false) after ->
  dict_get key (parse_os_release (before ++ line :: after)) = Some value.
Proof.
  intros Hline Hafter. unfold parse_os_release.
  rewrite fold_left_app. cbn [fold_left].
  rewrite (parse_lines_other key after Hafter), Hline, dict_get_set.
  now rewrite String.eqb_refl.
Qed.

Lemma parse_os_release_none (key : string) (lines : list string) :
  Forall (fun l => assigns key l = false) lines ->
  dict_get key (parse_os_release lines) = None.
Proof.
  intros H. unfold parse_os_release.
  now rewrite (parse_lines_other key lines H).
Qed.

(** X10: the name of the system is the value of the last line of
    [/etc/os-release] that assigns [PRETTY_NAME], whatever the lines before
    it and whatever [NAME] is. *)
Theorem get_os_info_pretty_name (before after : list string)
    (line name system release : string) :
  os_release_entry line = Some ("PRETTY_NAME", name) ->
  Forall (fun l => assigns "PRETTY_NAME" l = false) after ->
  get_os_info (Some (before ++ line :: after)%list) system release = name.
Proof.
  intros Hline Hafter. unfold get_os_info.
  now rewrite (parse_os_release_last _ _ before after line Hline Hafter).
Qed.

(** X11: a file without [PRETTY_NAME] gives the value of its last [NAME]
    line. *)
Theorem get_os_info_name_fallback (before after : list string)
    (line name system release : string) :
  Forall (fun l => assigns "PRETTY_NAME" l = false)
         (before ++ line :: after)%list ->
  os_release_entry line = Some ("NAME", name) ->
  Forall (fun l => assigns "NAME" l = false) after ->
  get_os_info (Some (before ++ line :: after)%list) system release = name.
Proof.
  intros Hpretty Hline Hafter. unfold get_os_info.
  rewrite (parse_os_release_none _ _ Hpretty).
  now rewrite (parse_os_release_last _ _ before after line Hline Hafter).
Qed.

(** X12: a file that can be read but assigns neither [PRETTY_NAME] nor
    [NAME] (an empty file among them) gives [Unknown]: the name of the
    platform is used only when the file cannot be read. *)
Theorem get_os_info_unknown (lines : list string) (system release : string) :
  Forall (fun l => assigns "PRETTY_NAME" l = false) lines ->
  Forall (fun l => assigns "NAME" l = false) lines ->
  get_os_info (Some lines) system release = "Unknown"
  /\ get_os_info None system release = system ++ " " ++ release.
Proof.
  intros Hpretty Hname. split; [|reflexivity]. unfold get_os_info.
  now rewrite (parse_os_release_none _ _ Hpretty),
              (parse_os_release_none _ _ Hname).
Qed.

(** X13: a line is cut at its first [=]: the key is the text before it,
    and the value, which may hold further [=], is the rest of the line
    without the white space that ends it and without the double quotes
    around it. *)
Theorem os_release_entry_first_equals (line key value : string) :
  strip line = key ++ "=" ++ value ->
  contains "=" key = false ->
  os_release_entry line = Some (key, strip_char quote value).
Proof.
  intros Hstrip Hkey. unfold os_release_entry.
  assert (Hin : contains "=" line = true).
  { apply contains_strip. rewrite Hstrip, contains_append.
    cbn [append contains]. rewrite Ascii.eqb_refl. apply orb_true_r. }
  rewrite Hin, Hstrip.
  change ("=" ++ value) with (String "=" value).
  now rewrite (split_once_first _ _ _ Hkey).
Qed.

End OsFacts.

(* ================================================================== *)
(** * Facts about the snapshot and the cleaning actions *)
(* ================================================================== *)

Module CleanerFacts.
Import Py Host Formatters Helpers Cleaner Spec.
Import TreeFacts ProgFacts CatalogFacts OrchestratorFacts.

(** ** The keys of a snapshot *)

Lemma layers_keys (b1 b2 b3 b4 b5 b6 b7 b8 b9 : bool)
    (v1 v2 v3 v4 v5 v6 v7 v8 v9 v10 : Z) :
  let d :=
    dict_set "old_logs" v10
      (put_if b9 "journal_logs" v9
      (put_if b8 "system_logs" v8
      (put_if b7 "var_tmp" v7
      (put_if b6 "tmp" v6
      (put_if b5 "thumbnail_cache" v5
      (put_if b4 "user_cache" v4
      (put_if (negb b2 && b3) "yum_cache" v3
      (put_if b2 "dnf_cache" v2
      (put_if b1 "apt_cache" v1 []))))))))) in
  map fst d = filter (fun key => dict_mem key d) category_keys.
Proof.
  destruct b1, b2, b3, b4, b5, b6, b7, b8, b9; vm_compute; reflexivity.
Qed.

(** X14: the keys of a snapshot come in one fixed order, each at most
    once: APT, DNF, YUM, user cache, thumbnails, [/tmp], [/var/tmp], system
    logs, journal logs, old logs, without those that are absent. *)
Theorem scan_keys_ordered (w : world) :
  map fst (scan_cleanable_items w)
  = filter (fun key => dict_mem key (scan_cleanable_items w)) category_keys.
Proof.
  rewrite scan_layers. cbv zeta. apply layers_keys.
Qed.

(** ** Sizes that are not negative *)

Lemma sizes_nonneg_stat (n : node) :
  sizes_nonneg n = true -> sizes_nonneg (stat n) = true.
Proof.
  induction n using node_induction; cbn [stat sizes_nonneg]; auto.
Qed.

Lemma sizes_nonneg_entry (es : list (string * node)) (k : string) (c : node) :
  forallb (fun e => sizes_nonneg (snd e)) es = true ->
  entry k es = Some c -> sizes_nonneg c = true.
Proof.
  induction es as [|[k' c'] es IH]; cbn [entry forallb snd]; [discriminate|].
  intros Hall. apply andb_prop in Hall as [Hc Hes].
  destruct (String.eqb k k').
  - now intros [= <-].
  - now apply IH.
Qed.

Lemma sizes_nonneg_resolve (p : path) :
  forall n m, sizes_nonneg n = true -> resolve n p = Some m ->
              sizes_nonneg m = true.
Proof.
  induction p as [|c p IH]; cbn [resolve]; intros n m Hn.
  - now intros [= <-].
  - pose proof (sizes_nonneg_stat n Hn) as Hs.
    destruct (stat n) as [sz|sz l es|t]; try discriminate.
    cbn [sizes_nonneg] in Hs. apply andb_prop in Hs as [_ Hes].
    destruct (entry c es) as [child|] eqn:Hc; [|discriminate].
    apply IH. eapply sizes_nonneg_entry; eauto.
Qed.

Lemma getsize_nonneg (root : node) (p : path) (sz : Z) :
  sizes_nonneg root = true -> getsize root p = Some sz -> 0 <= sz.
Proof.
  intros Hroot. unfold getsize.
  destruct (resolve root p) as [n|] eqn:Hn; [|discriminate].
  pose proof (sizes_nonneg_stat n (sizes_nonneg_resolve p root n Hroot Hn))
    as Hs.
  destruct (stat n) as [[s|]|s l es|t]; try discriminate;
    cbn [sizes_nonneg] in Hs; intros [= <-].
  - now apply Z.leb_le.
  - apply andb_prop in Hs as [Hs _]. now apply Z.leb_le.
Qed.

Section Logs.

Variable root : node.
Hypothesis Hroot : sizes_nonneg root = true.

(** The rotated logs of one directory weigh no more than all its files. *)
Lemma add_old_logs_bounds (dir : path) (files : list string) :
  forall old all,
    0 <= old <= all ->
    0 <= add_old_logs root dir files old
      <= add_file_sizes root dir files all.
Proof.
  unfold add_old_logs, add_file_sizes.
  induction files as [|file files IH]; intros old all Hle; cbn [fold_left];
    [exact Hle|].
  apply IH.
  destruct (getsize root (dir ++ [file])%list) as [sz|] eqn:Hsz.
  - pose proof (getsize_nonneg _ _ _ Hroot Hsz).
    destruct (endswith_any file old_suffixes); lia.
  - destruct (endswith_any file old_suffixes); lia.
Qed.

Lemma add_walk_old_logs_bounds (items : list walk_item) :
  forall old all,
    0 <= old <= all ->
    0 <= add_walk_old_logs root items old <= add_walk_sizes root items all.
Proof.
  unfold add_walk_old_logs, add_walk_sizes.
  induction items as [|[[dir ds] files] items IH]; intros old all Hle;
    cbn [fold_left]; [exact Hle|].
  apply IH. now apply add_old_logs_bounds.
Qed.

End Logs.

(** X15: on a tree that reports no negative size, the rotated logs are
    part of the system logs: when [/var/log] is a directory the snapshot has
    both keys, and the value of [old_logs] lies between 0 and the value of
    [system_logs], so the total counts those files twice. *)
Theorem old_logs_within_system_logs (w : world) :
  sizes_nonneg (fs w) = true ->
  dir_exists (fs w) var_log = true ->
  exists logs old,
    dict_get "system_logs" (scan_cleanable_items w) = Some logs
    /\ dict_get "old_logs" (scan_cleanable_items w) = Some old
    /\ 0 <= old <= logs.
Proof.
  intros Hroot Hlog.
  exists (get_dir_size (fs w) var_log), (old_logs_size (fs w)).
  split; [|split].
  - rewrite scan_layers. cbv zeta. rewrite Hlog. unfold put_if at 1 2.
    destruct (dir_exists (fs w) journal_dir); rewrite !dict_get_set;
      reflexivity.
  - apply scan_old_logs.
  - unfold old_logs_size, get_dir_size. rewrite Hlog.
    apply add_walk_old_logs_bounds; [exact Hroot | lia].
Qed.

(** ** What the actions start *)

Lemma spawns_forall (Q : command -> Prop) (t : list event) :
  Forall (fun e => match e with Spawn c => Q c | _ => True end) t ->
  Forall Q (spawns t).
Proof.
  induction 1 as [|[x|x|x|x] t H _ IH]; cbn [spawns]; auto.
Qed.

Lemma spawns_app (t u : list event) :
  spawns (t ++ u) = (spawns t ++ spawns u)%list.
Proof.
  induction t as [|[x|x|x|x] t IH]; cbn [app spawns]; auto.
  now rewrite IH.
Qed.

Lemma trace_tell_bind {B} (e : event) (k : unit -> prog B) (w : world) :
  bind (tell e) k w
  = mkRun (e :: trace (k tt w)) (final (k tt w)) (outcome (k tt w)).
Proof. reflexivity. Qed.

Lemma trace_gets_bind {A B} (f : world -> A) (k : A -> prog B) (w : world) :
  bind (gets f) k w
  = mkRun (trace (k (f w) w)) (final (k (f w) w)) (outcome (k (f w) w)).
Proof. reflexivity. Qed.

Section Actions.

Variable sys : os.

(** [run_command], step by step. *)
Lemma run_command_run (command : string) (shell : bool) (w : world) :
  let c := if shell then ShellLine command else Argv (split command) in
  run_command sys command shell w
  = mkRun [Spawn c] (fst (sys c w))
          match snd (sys c w) with
          | Exited rc out => Ok (if rc =? 0 then Some (strip out) else None)
          | Raised e => Raise e
          | _ => Ok None
          end.
Proof.
  cbv zeta. unfold run_command, subprocess_run, bind.
  destruct (sys _ w) as [w' o]. cbn [outcome final trace fst snd].
  destruct o as [rc out| | | |e]; cbn [ret raise outcome final trace app];
    try reflexivity.
  destruct (rc =? 0); reflexivity.
Qed.

Lemma escapes_raised (o : completion) (e : exn) :
  escapes o = Some e -> o = Raised e.
Proof. destruct o; cbn [escapes]; try discriminate. now intros [= ->]. Qed.

(** A command whose answer is not looked at, then the rest: the rest runs
    unless the launch raises outside the handler. *)
Lemma run_command_step {B} (command : string) (shell : bool) (k : prog B)
    (w : world) :
  let c := if shell then ShellLine command else Argv (split command) in
  let w' := fst (sys c w) in
  bind (run_command sys command shell) (fun _ => k) w
  = match escapes (snd (sys c w)) with
    | Some e => mkRun [Spawn c] w' (Raise e)
    | None => mkRun (Spawn c :: trace (k w')) (final (k w')) (outcome (k w'))
    end.
Proof.
  cbv zeta. unfold bind. rewrite run_command_run. cbv zeta.
  cbn [outcome final trace].
  destruct (snd (sys _ w)) as [rc out| | | |e]; reflexivity.
Qed.

Lemma clean_safe_dirs_emits (cache_dir : path) (all subdirs : list string) :
  incl subdirs all ->
  emits (fun e =>
           match e with
           | Spawn c =>
               exists subdir,
                 In subdir all
                 /\ c = ShellLine ("rm -rf "
                                   ++ path_str (cache_dir ++ [subdir])%list
                                   ++ "/*")
           | _ => True
           end)
        (clean_safe_dirs sys cache_dir subdirs).
Proof.
  induction subdirs as [|subdir rest IH]; intros Hincl;
    cbn [clean_safe_dirs]; [apply emits_ret|].
  apply emits_bind; [apply emits_gets|]. intros present.
  apply emits_bind.
  - apply emits_when, emits_attempt, emits_bind;
      [|intros _; apply emits_ret].
    apply run_command_emits. exists subdir. split; [|reflexivity].
    apply Hincl. now left.
  - intros _. apply IH. intros x Hx. apply Hincl. now right.
Qed.

Lemma clean_user_cache_emits (w : world) :
  Forall (fun e =>
            match e with
            | Spawn c =>
                exists subdir,
                  In subdir safe_dirs
                  /\ c = empty_dir_command (home w) subdir
            | _ => True
            end)
         (trace (clean_user_cache sys w)).
Proof.
  unfold clean_user_cache.
  rewrite trace_tell_bind. cbn [trace]. constructor; [exact I|].
  rewrite trace_gets_bind. cbn [trace].
  apply emits_bind; [apply emits_gets|]. intros present.
  apply emits_when, emits_bind; [now apply emits_tell|]. intros _.
  apply emits_bind; [|intros _; now apply emits_tell].
  apply (clean_safe_dirs_emits (user_cache (home w)) safe_dirs safe_dirs).
  apply incl_refl.
Qed.

(** The bare handler around each command leaves the action no exception. *)
Lemma clean_user_cache_returns (w : world) :
  outcome (clean_user_cache sys w) = Ok tt.
Proof.
  unfold clean_user_cache.
  rewrite trace_tell_bind. cbn [outcome].
  rewrite trace_gets_bind. cbn [outcome].
  rewrite trace_gets_bind. cbn [outcome].
  destruct (dir_exists (fs w) (user_cache (home w))); [|reflexivity].
  cbn [when]. unfold print. rewrite trace_tell_bind. cbn [outcome].
  unfold bind. now rewrite clean_safe_dirs_returns.
Qed.

(** X16: the user cache is emptied through four sub-directories only.
    Every process [clean_user_cache] starts is [rm -rf <dir>/*] for one of
    [thumbnails], [mozilla], [chromium] and [google-chrome] below the
    [.cache] of the home directory read on entry, and the action returns
    normally however those processes end. *)
Theorem clean_user_cache_spawns (w : world) :
  outcome (clean_user_cache sys w) = Ok tt
  /\ Forall (fun c => exists subdir,
                        In subdir safe_dirs
                        /\ c = empty_dir_command (home w) subdir)
            (spawns (trace (clean_user_cache sys w))).
Proof.
  split.
  - apply clean_user_cache_returns.
  - apply spawns_forall, clean_user_cache_emits.
Qed.

(** The four commands of [clean_old_logs], one after the other. *)
Lemma clean_old_logs_steps (w : world) :
  dir_exists (fs w) var_log = true ->
  let r := clean_old_logs sys w in
  exists started,
    trace r
    = (Call "clean_old_logs"
         :: Write (line "Removing old compressed logs...")
         :: map Spawn started
         ++ match outcome r with
            | Ok _ => [Write (line "Old logs removed")]
            | Raise _ => []
            end)%list
    /\ match outcome r with
       | Ok _ => started = delete_logs_commands
       | Raise e =>
           exists done c later w0,
             started = (done ++ [c])%list
             /\ delete_logs_commands = (done ++ c :: later)%list
             /\ snd (sys c w0) = Raised e
       end.
Proof.
  intros Hdir. cbv zeta. unfold clean_old_logs.
  rewrite trace_tell_bind, trace_gets_bind. cbn [trace outcome].
  rewrite Hdir. cbn [when]. unfold print.
  rewrite trace_tell_bind. cbn [trace outcome].
  rewrite run_command_step. cbv zeta.
  destruct (escapes (snd (sys _ w))) as [e|] eqn:H1.
  { cbn [trace outcome]. exists [delete_logs_command ".gz"].
    split; [reflexivity|].
    exists [], (delete_logs_command ".gz"),
      (map delete_logs_command [".old"; ".1"; ".2"]), w.
    split; [reflexivity|]. split; [reflexivity|].
    now apply escapes_raised. }
  cbn [trace outcome].
  rewrite run_command_step. cbv zeta.
  match goal with
  | |- context [escapes (snd (sys ?c ?w1))] =>
      destruct (escapes (snd (sys c w1))) as [e|] eqn:H2
  end.
  { cbn [trace outcome].
    exists (map delete_logs_command [".gz"; ".old"]).
    split; [reflexivity|].
    eexists [delete_logs_command ".gz"], (delete_logs_command ".old"),
      (map delete_logs_command [".1"; ".2"]), _.
    split; [reflexivity|]. split; [reflexivity|].
    apply escapes_raised. exact H2. }
  cbn [trace outcome].
  rewrite run_command_step. cbv zeta.
  match goal with
  | |- context [escapes (snd (sys ?c ?w2))] =>
      destruct (escapes (snd (sys c w2))) as [e|] eqn:H3
  end.
  { cbn [trace outcome].
    exists (map delete_logs_command [".gz"; ".old"; ".1"]).
    split; [reflexivity|].
    eexists (map delete_logs_command [".gz"; ".old"]),
      (delete_logs_command ".1"), [delete_logs_command ".2"], _.
    split; [reflexivity|]. split; [reflexivity|].
    apply escapes_raised. exact H3. }
  cbn [trace outcome].
  rewrite run_command_step. cbv zeta.
  match goal with
  | |- context [escapes (snd (sys ?c ?w3))] =>
      destruct (escapes (snd (sys c w3))) as [e|] eqn:H4
  end.
  { cbn [trace outcome]. exists delete_logs_commands.
    split; [reflexivity|].
    eexists (map delete_logs_command [".gz"; ".old"; ".1"]),
      (delete_logs_command ".2"), [], _.
    split; [reflexivity|]. split; [reflexivity|].
    apply escapes_raised. exact H4. }
  cbn [tell trace outcome]. exists delete_logs_commands.
  split; reflexivity.
Qed.

(** X17: [clean_old_logs] does not look at how its commands end.  When
    [/var/log] is a directory it starts the four [find ... -delete]
    commands, for [.gz], [.old], [.1] and [.2] in that order, and then
    writes [Old logs removed], whatever their exit status and also when
    they time out or are not found.  Only a launch that raises outside the
    handler of [run_command] stops it: the action raises that exception
    after starting that command, and the closing text is not written.
    When [/var/log] is not a directory it starts and writes nothing. *)
Theorem clean_old_logs_run (w : world) :
  let r := clean_old_logs sys w in
  (if dir_exists (fs w) var_log
   then exists started,
          trace r
          = (Call "clean_old_logs"
               :: Write (line "Removing old compressed logs...")
               :: map Spawn started
               ++ match outcome r with
                  | Ok _ => [Write (line "Old logs removed")]
                  | Raise _ => []
                  end)%list
          /\ match outcome r with
             | Ok _ => started = delete_logs_commands
             | Raise e =>
                 exists done c later w0,
                   started = (done ++ [c])%list
                   /\ delete_logs_commands = (done ++ c :: later)%list
                   /\ snd (sys c w0) = Raised e
             end
   else r = mkRun [Call "clean_old_logs"] w (Ok tt))
  /\ ((forall c w0 e,
         In c delete_logs_commands -> snd (sys c w0) <> Raised e) ->
      outcome r = Ok tt).
Proof.
  cbv zeta. destruct (dir_exists (fs w) var_log) eqn:Hdir.
  - pose proof (clean_old_logs_steps w Hdir) as H. cbv zeta in H.
    split; [exact H|]. intros Hsys.
    destruct H as (started & _ & H).
    destruct (outcome (clean_old_logs sys w)) as [[]|e]; [reflexivity|].
    destruct H as (done & c & later & w0 & _ & Hall & Hc).
    exfalso. apply (Hsys c w0 e); [|exact Hc].
    rewrite Hall. apply in_or_app. right. now left.
  - assert (H : clean_old_logs sys w
                = mkRun [Call "clean_old_logs"] w (Ok tt)).
    { unfold clean_old_logs.
      rewrite trace_tell_bind, trace_gets_bind. cbn [trace outcome final].
      now rewrite Hdir. }
    split; [exact H|]. intros _. now rewrite H.
Qed.

(** ** A host without [which] *)

(** The probe never finds a tool. *)
Hypothesis Hwhich :
  forall tool w,
    match snd (sys (Argv ["which"; tool]) w) with
    | Exited rc _ => rc <> 0
    | _ => True
    end.

(** An action behind the probe starts the probe and nothing else, also
    when the probe itself cannot be started. *)
Lemma gated_emits (P : event -> Prop) (fname tool : string)
    (body : prog unit) :
  split ("which " ++ tool) = ["which"; tool] ->
  P (Call fname) -> P (Spawn (Argv ["which"; tool])) ->
  emits P (bind (tell (Call fname))
             (fun _ => bind (command_exists sys tool)
                         (fun present => when present body))).
Proof.
  intros Hsplit Hcall Hspawn w.
  rewrite trace_tell_bind. cbn [trace]. constructor; [exact Hcall|].
  unfold bind. rewrite (command_exists_run sys tool w Hsplit).
  cbn [outcome final trace]. specialize (Hwhich tool w).
  destruct (snd (sys (Argv ["which"; tool]) w)) as [rc out| | | |e];
    cbn [when ret outcome final trace app]; auto.
  apply Z.eqb_neq in Hwhich. rewrite Hwhich.
  cbn [when ret outcome final trace app]. auto.
Qed.

(** X18: on a host where the [which] probe finds nothing, the cleaning
    operations start none of [apt-get], [dnf], [yum] and [journalctl],
    whatever the snapshot holds: the package caches and the journal are
    left as they are, silently. *)
Theorem run_actions_without_which (cleanable : dict Z) (w : world) :
  Forall (fun c => starts_tool c = false)
         (spawns (trace (run_actions sys cleanable w))).
Proof.
  apply spawns_forall. revert w.
  change (emits (fun e => match e with
                          | Spawn c => starts_tool c = false
                          | _ => True
                          end) (run_actions sys cleanable)).
  unfold run_actions.
  repeat (apply emits_bind; [apply emits_when|intros _]);
    [ | | | | |apply emits_when].
  - apply gated_emits; [vm_compute; reflexivity|exact I|reflexivity].
  - apply gated_emits; [vm_compute; reflexivity|exact I|reflexivity].
  - apply gated_emits; [vm_compute; reflexivity|exact I|reflexivity].
  - intros w'. eapply Forall_impl; [|apply clean_user_cache_emits].
    intros [x|x|c|x]; auto. now intros (subdir & _ & ->).
  - apply gated_emits; [vm_compute; reflexivity|exact I|reflexivity].
  - unfold clean_old_logs, print.
    repeat first
      [ apply emits_gets
      | apply emits_tell; exact I
      | apply run_command_emits; reflexivity
      | apply emits_when
      | apply emits_bind; [|intros ?] ].
Qed.

End Actions.

End CleanerFacts.

(* ================================================================== *)
(** * Facts about the session and the command line *)
(* ================================================================== *)

Module CliFacts.
Import Py Host Formatters Helpers Cleaner Cli Spec.
Import ProgFacts CatalogFacts SessionFacts OrchestratorFacts ShapeFacts.
Import CleanerFacts.

Section Main.

Variable parse_float : string -> option float.
Variable sys : os.
Variable message : exn -> string.

(** X24: once the answer is accepted, the actions the orchestrator
    enters are an initial part of the actions of the categories present in
    the pre-snapshot, in the order APT, DNF, YUM, user cache, journal logs,
    old logs, and nothing else: system logs, [/tmp] and [/var/tmp] have no
    action.  They are all of them when the actions return, which they do
    on a host where no launch raises outside the handler of
    [run_command]; otherwise the exception of such a launch ends the
    session inside the action that met it.  An accepted answer is reached
    whenever the figures are finite. *)
Theorem actions_follow_snapshot (dry_run : bool) (w : world) :
  let r := perform_cleaning parse_float sys dry_run w in
  (confirmed (trace r) ->
   (exists rest,
      expected_calls (scan_cleanable_items w)
      = (calls (trace r) ++ rest)%list)
   /\ (outcome (actions_run sys w) = Ok tt ->
       calls (trace r) = expected_calls (scan_cleanable_items w))
   /\ (forall e,
         outcome (actions_run sys w) = Raise e ->
         outcome r = Raise e /\ launch_raises sys (trace r) e))
  /\ ((forall c w0 e, snd (sys c w0) <> Raised e) ->
      outcome (actions_run sys w) = Ok tt)
  /\ (forall response rest,
        dry_run = false -> stdin w = Line response :: rest ->
        affirmative response = true ->
        summary_fits (scan_cleanable_items w) ->
        confirmed (trace r)).
Proof.
  cbv zeta.
  assert (H :
    (confirmed (trace (perform_cleaning parse_float sys dry_run w)) ->
     (exists rest,
        expected_calls (scan_cleanable_items w)
        = (calls (trace (perform_cleaning parse_float sys dry_run w))
           ++ rest)%list)
     /\ (outcome (actions_run sys w) = Ok tt ->
         calls (trace (perform_cleaning parse_float sys dry_run w))
         = expected_calls (scan_cleanable_items w))
     /\ (forall e,
           outcome (actions_run sys w) = Raise e ->
           outcome (perform_cleaning parse_float sys dry_run w) = Raise e
           /\ launch_raises sys
                (trace (perform_cleaning parse_float sys dry_run w)) e))
    /\ (forall response rest,
          dry_run = false -> stdin w = Line response :: rest ->
          affirmative response = true ->
          summary_fits (scan_cleanable_items w) ->
          confirmed (trace (perform_cleaning parse_float sys dry_run w)))).
  { apply (session_shape parse_float sys dry_run w
             (fun r =>
                (confirmed (trace r) ->
                 (exists rest,
                    expected_calls (scan_cleanable_items w)
                    = (calls (trace r) ++ rest)%list)
                 /\ (outcome (actions_run sys w) = Ok tt ->
                     calls (trace r)
                     = expected_calls (scan_cleanable_items w))
                 /\ (forall e,
                       outcome (actions_run sys w) = Raise e ->
                       outcome r = Raise e
                       /\ launch_raises sys (trace r) e))
                /\ (forall response rest,
                      dry_run = false -> stdin w = Line response :: rest ->
                      affirmative response = true ->
                      summary_fits (scan_cleanable_items w) ->
                      confirmed (trace r)))).
    - intros t r Ht (Hcalls & Hreach). cbn [trace final outcome]. split.
      + intros Hc. apply confirmed_prefix in Hc; [|exact Ht].
        rewrite calls_app, (report_only_calls t Ht). cbn [app].
        destruct (Hcalls Hc) as (Hpart & Hall & Hcut).
        split; [exact Hpart|]. split; [exact Hall|].
        intros e He. destruct (Hcut e He) as (Ho & c & w0 & Hin & Hc0).
        split; [exact Ho|]. exists c, w0.
        split; [apply in_or_app; now right | exact Hc0].
      + intros response rest Hd Hin Hans Hfits.
        destruct (Hreach response rest Hd Hin Hans Hfits) as (l & Hl & Hyes).
        exists l. split; [|exact Hyes]. apply in_or_app. now right.
    - intros Hfits. cbn [trace final outcome]. split.
      + intros (l & [] & _).
      + intros; contradiction.
    - unfold after_summary. destruct dry_run.
      + split; [|discriminate]. intros (l & [H|[]] & _). discriminate H.
      + destruct (stdin w) as [|[response|] rest] eqn:Hin.
        * rewrite (confirm_eof _ _ _ _ _ Hin). split; [|discriminate].
          intros (l & [H|[]] & _). discriminate H.
        * destruct (affirmative response) eqn:Hans.
          -- rewrite (confirm_accept _ _ _ _ _ _ _ Hin Hans). cbv zeta.
             cbn [final outcome trace]. split.
             ++ intros _. cbn [calls].
                rewrite clean_and_report_run. cbv zeta. unfold actions_run.
                pose proof (run_actions_enters sys (scan_cleanable_items w)
                              (after_input w)) as Henters.
                pose proof (run_actions_launched sys (scan_cleanable_items w)
                              (after_input w)) as Hlaunched.
                destruct (outcome (run_actions sys (scan_cleanable_items w)
                                     (after_input w))) as [[]|e].
                ** destruct (format_bytes parse_float _) as [text|x];
                     cbn [trace calls]; rewrite ?calls_app;
                     cbn [calls freed_line]; rewrite ?calls_app, Henters;
                     cbn [calls]; rewrite ?app_nil_r;
                     (split; [exists []; now rewrite app_nil_r|]);
                     (split; [reflexivity | discriminate]).
                ** cbn [trace outcome calls].
                   destruct Henters as (rest' & Hrest).
                   split; [now exists rest'|]. split; [discriminate|].
                   intros e' [= <-]. split; [reflexivity|].
                   destruct (Hlaunched e eq_refl) as (c & w0 & Hc & Hc0).
                   exists c, w0. split; [|exact Hc0].
                   right. right. now right.
             ++ intros response' rest' _ [= <- <-] _ _.
                exists response. split; [right; now left | exact Hans].
          -- rewrite (confirm_cancel _ _ _ _ _ _ _ Hin Hans). split.
             ++ intros (l & [H|[H|[H|[]]]] & Hl); try discriminate H.
                injection H as <-. congruence.
             ++ intros response' rest' _ [= <- <-]. congruence.
        * rewrite (confirm_interrupt _ _ _ _ _ _ Hin). split.
          -- intros (l & [H|[]] & _). discriminate H.
          -- intros response' rest' _ [=]. }
  destruct H as (Hconfirmed & Hreach).
  split; [exact Hconfirmed|]. split; [|exact Hreach].
  intros Hsys. now apply run_actions_returns.
Qed.



(** X20: asked to clean with no input to read (and figures that are
    finite), the command shows the summary and the prompt, then fails with
    status 1 and the text of [EOFError] on standard error; nothing was
    cleaned: no action entered, no process started, the host as it was. *)
Theorem main_clean_without_input (w : world) :
  stdin w = [] ->
  summary_fits (scan_cleanable_items w) ->
  let e := main_clean parse_float sys message false w in
  status e = 1
  /\ stderr e = [line (nl ++ "Error: " ++ message EOFError)]
  /\ final (session e) = w
  /\ calls (trace (session e)) = []
  /\ spawns (trace (session e)) = []
  /\ exists t0, Forall report_only t0
                /\ trace (session e) = (t0 ++ [Write prompt])%list.
Proof.
  intros Hin Hfits. cbv zeta.
  assert (Hrun :
    outcome (perform_cleaning parse_float sys false w) = Raise EOFError
    /\ final (perform_cleaning parse_float sys false w) = w
    /\ exists t0, Forall report_only t0
                  /\ trace (perform_cleaning parse_float sys false w)
                     = (t0 ++ [Write prompt])%list).
  { apply (session_shape parse_float sys false w
             (fun r => outcome r = Raise EOFError /\ final r = w
                       /\ exists t0, Forall report_only t0
                                     /\ trace r = (t0 ++ [Write prompt])%list)).
    - intros t r Ht (Ho & Hf & t0 & Ht0 & Htr). cbn [outcome final trace].
      split; [exact Ho|]. split; [exact Hf|].
      exists (t ++ t0)%list. split; [now apply Forall_app|].
      now rewrite Htr, app_assoc.
    - intros Hno. now destruct Hno.
    - unfold after_summary.
      rewrite (confirm_eof parse_float sys _ _ w Hin).
      cbn [outcome final trace]. split; [reflexivity|].
      split; [reflexivity|]. exists []. split; [constructor | reflexivity]. }
  destruct Hrun as (Ho & Hf & t0 & Ht0 & Htr).
  unfold main_clean. rewrite Ho. cbn [session status stderr].
  split; [reflexivity|]. split; [reflexivity|]. split; [exact Hf|].
  rewrite Htr, calls_app, spawns_app.
  rewrite (report_only_calls t0 Ht0), (report_only_spawns t0 Ht0).
  split; [reflexivity|]. split; [reflexivity|].
  exists t0. auto.
Qed.

End Main.

End CliFacts.

(* ================================================================== *)
(** * Facts about nested directories and the summary *)
(* ================================================================== *)

Module NestingFacts.
Import Py Host Formatters Helpers Cleaner Spec.
Import TreeFacts ScannerFacts ProgFacts CatalogFacts SessionFacts.
Import CleanerFacts.

(** ** Sizes of nested directories *)

Lemma get_dir_size_reachable (root : node) (d : path) (n : node) :
  well_formed root = true -> resolve root d = Some n ->
  get_dir_size root d = reachable_size (stat n).
Proof.
  intros Hwf Hd. unfold get_dir_size, walk. rewrite Hd.
  apply (walk_dir_size root (stat n) d n); [|exact Hd|reflexivity].
  apply well_formed_stat. eapply well_formed_resolve; eauto.
Qed.

Lemma file_size_nonneg (n : node) :
  sizes_nonneg n = true -> 0 <= file_size n.
Proof.
  intros H. apply sizes_nonneg_stat in H. unfold file_size.
  destruct (stat n) as [[s|]|s l es|t]; try lia.
  cbn [sizes_nonneg] in H. now apply Z.leb_le.
Qed.

Lemma reachable_size_nonneg (n : node) :
  sizes_nonneg n = true -> 0 <= reachable_size n.
Proof.
  induction n as [sz|sz l es IH|t IH] using node_induction;
    intros Hn; try (cbn [reachable_size]; lia).
  destruct l; [|cbn [reachable_size]; lia].
  rewrite reachable_size_dir.
  cbn [sizes_nonneg] in Hn. apply andb_prop in Hn as [_ Hes].
  induction es as [|[k c] es IHes]; cbn [map fold_right]; [lia|].
  cbn [forallb snd] in Hes. apply andb_prop in Hes as [Hc Hes].
  inversion IH as [|? ? IHc IH']; subst. cbn [snd] in IHc.
  specialize (IHes IH' Hes).
  assert (0 <= entry_size (k, c)); [|lia].
  unfold entry_size. cbn [snd].
  destruct c as [s|s l' es'|t]; auto;
    destruct (is_dir _); try lia; now apply file_size_nonneg.
Qed.

Lemma entry_share (es : list (string * node)) (k : string) (c : node) :
  forallb (fun e => sizes_nonneg (snd e)) es = true ->
  entry k es = Some c ->
  0 <= entry_size (k, c) <= fold_right Z.add 0 (map entry_size es).
Proof.
  induction es as [|[k' c'] es IH]; cbn [entry forallb snd]; [discriminate|].
  intros Hall. apply andb_prop in Hall as [Hc Hes].
  assert (Hshare : forall k0 c0, sizes_nonneg c0 = true ->
                                 0 <= entry_size (k0, c0)).
  { intros k0 c0 H0. unfold entry_size. cbn [snd].
    destruct c0 as [s|s l' es'|t];
      try (destruct (is_dir _); [lia | now apply file_size_nonneg]).
    now apply reachable_size_nonneg. }
  assert (Hsum : 0 <= fold_right Z.add 0 (map entry_size es)).
  { clear - Hes Hshare. induction es as [|[k0 c0] es IH];
      cbn [map fold_right]; [lia|].
    cbn [forallb snd] in Hes. apply andb_prop in Hes as [H0 Hes].
    specialize (IH Hes). pose proof (Hshare k0 c0 H0). lia. }
  cbn [map fold_right]. pose proof (Hshare k' c' Hc).
  destruct (String.eqb k k').
  - intros [= <-]. change (entry_size (k, c')) with (entry_size (k', c')).
    lia.
  - intros Hentry. specialize (IH Hes Hentry). lia.
Qed.

Lemma get_dir_size_nested (root : node) (p : path) (name : string)
    (n : node) (sz : Z) (es : list (string * node))
    (sz' : Z) (l' : bool) (es' : list (string * node)) :
  well_formed root = true ->
  sizes_nonneg root = true ->
  resolve root p = Some n ->
  stat n = Dir sz true es ->
  entry name es = Some (Dir sz' l' es') ->
  0 <= get_dir_size root (p ++ [name])%list <= get_dir_size root p.
Proof.
  intros Hwf Hnn Hp Hstat Hentry.
  rewrite (get_dir_size_reachable root p n Hwf Hp), Hstat.
  rewrite (get_dir_size_reachable root (p ++ [name])%list (Dir sz' l' es') Hwf)
    by (eapply resolve_entry; eauto).
  cbn [stat]. rewrite reachable_size_dir.
  pose proof (sizes_nonneg_stat n (sizes_nonneg_resolve p root n Hnn Hp)) as Hs.
  rewrite Hstat in Hs. cbn [sizes_nonneg] in Hs.
  apply andb_prop in Hs as [_ Hes].
  exact (entry_share es name (Dir sz' l' es') Hes Hentry).
Qed.

(** X21: on a tree without repeated names and without negative sizes, a
    sub-directory weighs no more than the directory that holds it, provided
    the holder can be listed and the entry is a directory itself, not a link
    to one; neither size is negative. *)
Theorem get_dir_size_subdirectory (root : node) (p : path) (name : string)
    (n : node) (sz : Z) (es : list (string * node))
    (sz' : Z) (l' : bool) (es' : list (string * node)) :
  well_formed root = true ->
  sizes_nonneg root = true ->
  resolve root p = Some n ->
  stat n = Dir sz true es ->
  entry name es = Some (Dir sz' l' es') ->
  0 <= get_dir_size root (p ++ [name])%list <= get_dir_size root p.
Proof. apply get_dir_size_nested. Qed.

(** ** Categories inside categories *)

Lemma dict_get_put_if (key : string) (b : bool) (k : string) (v : Z)
    (d : dict Z) :
  dict_get key (put_if b k v d)
  = if String.eqb key k
    then (if b then Some v else dict_get key d)
    else dict_get key d.
Proof.
  unfold put_if. destruct b.
  - rewrite dict_get_set. now destruct (String.eqb key k).
  - now destruct (String.eqb key k).
Qed.

Ltac compare_keys :=
  repeat match goal with
         | |- context [String.eqb ?a ?b] =>
             let v := eval vm_compute in (String.eqb a b) in
             change (String.eqb a b) with v
         end;
  cbv iota.

Lemma scan_get_nested (w : world) :
  let root := fs w in
  let size_if (d : path) :=
    if dir_exists root d then Some (get_dir_size root d) else None in
  dict_get "user_cache" (scan_cleanable_items w)
  = size_if (user_cache (home w))
  /\ dict_get "thumbnail_cache" (scan_cleanable_items w)
     = size_if (thumbnail_cache (home w))
  /\ dict_get "system_logs" (scan_cleanable_items w) = size_if var_log
  /\ dict_get "journal_logs" (scan_cleanable_items w) = size_if journal_dir.
Proof.
  cbv zeta. rewrite scan_layers. cbv zeta.
  repeat split; rewrite dict_get_set, !dict_get_put_if; compare_keys;
    reflexivity.
Qed.

Lemma isdir_resolved (root : node) (p : path) (n : node)
    (sz : Z) (l : bool) (es : list (string * node)) :
  resolve root p = Some n -> stat n = Dir sz l es ->
  dir_exists root p = true.
Proof.
  intros Hp Hs. unfold dir_exists, isdir, is_dir. now rewrite Hp, Hs.
Qed.

(** X22: the thumbnails are part of the user cache and the journal is
    part of the system logs.  On a tree without repeated names and without
    negative sizes, when the holder can be listed and [thumbnails] (or
    [journal]) is a directory itself, the snapshot has both keys and the
    inner value is at most the outer one: the total counts those files
    twice. *)
Theorem nested_categories_counted_twice (w : world) :
  well_formed (fs w) = true ->
  sizes_nonneg (fs w) = true ->
  (forall n sz es sz' l' es',
     resolve (fs w) (user_cache (home w)) = Some n ->
     stat n = Dir sz true es ->
     entry "thumbnails" es = Some (Dir sz' l' es') ->
     exists cache thumbs,
       dict_get "user_cache" (scan_cleanable_items w) = Some cache
       /\ dict_get "thumbnail_cache" (scan_cleanable_items w) = Some thumbs
       /\ 0 <= thumbs <= cache)
  /\ (forall n sz es sz' l' es',
        resolve (fs w) var_log = Some n ->
        stat n = Dir sz true es ->
        entry "journal" es = Some (Dir sz' l' es') ->
        exists logs journal,
          dict_get "system_logs" (scan_cleanable_items w) = Some logs
          /\ dict_get "journal_logs" (scan_cleanable_items w) = Some journal
          /\ 0 <= journal <= logs).
Proof.
  intros Hwf Hnn.
  pose proof (scan_get_nested w) as (Huser & Hthumb & Hlogs & Hjournal).
  cbv zeta in Huser, Hthumb, Hlogs, Hjournal.
  split; intros n sz es sz' l' es' Hp Hs He.
  - assert (Hinner : thumbnail_cache (home w)
                     = (user_cache (home w) ++ ["thumbnails"])%list).
    { unfold thumbnail_cache, user_cache. now rewrite <- app_assoc. }
    rewrite (isdir_resolved _ _ _ _ _ _ Hp Hs) in Huser.
    rewrite Hinner in Hthumb.
    rewrite (isdir_resolved (fs w) _ (Dir sz' l' es') sz' l' es')
      in Hthumb by (eauto using resolve_entry).
    eexists. eexists.
    split; [exact Huser|]. split; [exact Hthumb|].
    eapply get_dir_size_nested; eauto.
  - change journal_dir with (var_log ++ ["journal"])%list in *.
    rewrite (isdir_resolved _ _ _ _ _ _ Hp Hs) in Hlogs.
    rewrite (isdir_resolved (fs w) _ (Dir sz' l' es') sz' l' es')
      in Hjournal by (eauto using resolve_entry).
    eexists. eexists.
    split; [exact Hlogs|]. split; [exact Hjournal|].
    eapply get_dir_size_nested; eauto.
Qed.

End NestingFacts.

(* ================================================================== *)
(** * Facts about the summary *)
(* ================================================================== *)

Module SummaryFacts.
Import Py Host Formatters Helpers Cleaner Spec.
Import ProgFacts CatalogFacts SessionFacts.

Lemma dict_mem_get {V} (key : string) (d : dict V) :
  dict_mem key d = match dict_get key d with Some _ => true | None => false end.
Proof.
  induction d as [|[k v] d IH]; cbn [dict_mem dict_get]; [reflexivity|].
  now destruct (String.eqb key k).
Qed.

Lemma bind_steady {B} (m : prog unit) (k : unit -> prog B)
    (t : list event) (w : world) :
  m w = mkRun t w (Ok tt) ->
  bind m k w
  = mkRun (t ++ trace (k tt w))%list (final (k tt w)) (outcome (k tt w)).
Proof. intros H. unfold bind. now rewrite H. Qed.

Lemma write_all_run (texts : list string) (w : world) :
  write_all texts w = mkRun (map Write texts) w (Ok tt).
Proof.
  induction texts as [|t texts IH]; [reflexivity|].
  cbn [write_all map]. unfold bind. cbn [tell outcome final trace].
  now rewrite IH.
Qed.

Lemma filter_length_cons {A} (f : A -> bool) (a : A) (l : list A) :
  List.length (filter f (a :: l))
  = ((if f a then 1 else 0) + List.length (filter f l))%nat.
Proof. cbn [filter]. now destruct (f a). Qed.

Section Rows.

Variable parse_float : string -> option float.
Variable cleanable : dict Z.
Hypothesis Hfits : summary_fits cleanable.

Lemma finite_formats (key : string) (size : Z) :
  dict_get key cleanable = Some size ->
  exists text, format_bytes parse_float (PyInt size) = Ok text.
Proof.
  intros Hget.
  destruct (format_bytes parse_float (PyInt size)) as [text|e] eqn:Hf;
    [eauto|].
  apply format_bytes_int_raise in Hf as [_ Hn]. exfalso. apply Hn.
  unfold summary_fits in Hfits. rewrite Forall_forall in Hfits.
  apply Hfits. right. eapply dict_get_values; eauto.
Qed.

Lemma show_row_run (key label : string) (w : world) :
  show_row parse_float cleanable key label w
  = mkRun (row_events parse_float cleanable key label) w (Ok tt).
Proof.
  unfold show_row, row_events.
  destruct (dict_get key cleanable) as [size|] eqn:Hget; [|reflexivity].
  destruct (finite_formats key size Hget) as [text Hf]. rewrite Hf.
  reflexivity.
Qed.

Lemma row_events_length (key label : string) :
  List.length (row_events parse_float cleanable key label)
  = if dict_mem key cleanable then 1%nat else 0%nat.
Proof.
  unfold row_events. rewrite dict_mem_get.
  destruct (dict_get key cleanable) as [size|] eqn:Hget; [|reflexivity].
  destruct (finite_formats key size Hget) as [text Hf]. now rewrite Hf.
Qed.

Lemma row_events_text (key label : string) (size : Z) (text : string) :
  dict_get key cleanable = Some size ->
  format_bytes parse_float (PyInt size) = Ok text ->
  In (Write (line (key_value label text)))
     (row_events parse_float cleanable key label).
Proof.
  intros Hget Hf. unfold row_events. rewrite Hget, Hf. now left.
Qed.

(** The summary, event by event. *)
Lemma summary_run (w : world) :
  show_cleanable_summary parse_float cleanable w
  = mkRun
      (map Write (print_subheader "Cache")
       ++ row_events parse_float cleanable "apt_cache" "APT Cache"
       ++ row_events parse_float cleanable "dnf_cache" "DNF Cache"
       ++ row_events parse_float cleanable "yum_cache" "YUM Cache"
       ++ row_events parse_float cleanable "user_cache" "User Cache"
       ++ row_events parse_float cleanable "thumbnail_cache" "Thumbnail Cache"
       ++ map Write (print_subheader "Logs")
       ++ row_events parse_float cleanable "system_logs" "System Logs"
       ++ row_events parse_float cleanable "journal_logs" "Journal Logs"
       ++ row_events parse_float cleanable "old_logs" "Old/Compressed Logs"
       ++ map Write (print_subheader "Temporary Files")
       ++ row_events parse_float cleanable "tmp" "/tmp"
       ++ row_events parse_float cleanable "var_tmp" "/var/tmp")%list
      w (Ok tt).
Proof.
  unfold show_cleanable_summary.
  repeat (erewrite bind_steady
            by first [apply write_all_run | apply show_row_run];
          cbn [trace final outcome]).
  rewrite show_row_run. reflexivity.
Qed.

End Rows.

(** X23: when its figures are finite, the summary returns normally,
    changes nothing, and shows every entry of the snapshot once: each of
    the ten categories that is present has its row, with its label and its
    formatted size, and beside the six lines of the three headings nothing
    else is written. *)
Theorem summary_shows_every_entry (parse_float : string -> option float)
    (cleanable : dict Z) (w : world) :
  summary_fits cleanable ->
  let r := show_cleanable_summary parse_float cleanable w in
  outcome r = Ok tt
  /\ final r = w
  /\ (forall key label size,
        In (key, label) row_labels ->
        dict_get key cleanable = Some size ->
        exists text,
          format_bytes parse_float (PyInt size) = Ok text
          /\ In (Write (line (key_value label text))) (trace r))
  /\ List.length (trace r)
     = (6 + List.length
              (filter (fun row => dict_mem (fst row) cleanable)
                 row_labels))%nat.
Proof.
  intros Hfits. cbv zeta. rewrite (summary_run parse_float cleanable Hfits w).
  cbn [outcome final trace].
  split; [reflexivity|]. split; [reflexivity|]. split.
  - intros key label size Hin Hget.
    destruct (finite_formats parse_float cleanable Hfits key size Hget)
      as [text Hf].
    exists text. split; [exact Hf|].
    pose proof (row_events_text parse_float cleanable key label size text
                  Hget Hf) as Hrow.
    rewrite !in_app_iff.
    unfold row_labels in Hin. cbn [In] in Hin.
    repeat (destruct Hin as [[= <- <-]|Hin]; [tauto|]).
    contradiction.
  - rewrite !length_app, !length_map,
      !(row_events_length parse_float cleanable Hfits).
    unfold row_labels. rewrite !filter_length_cons. cbn [filter fst].
    cbn [print_subheader List.length]. lia.
Qed.

End SummaryFacts.

(* ================================================================== *)
(** * The further facts on the sample hosts *)
(* ================================================================== *)

Module Samples.
Import Py Host Formatters Helpers Cleaner Cli Spec Demo.

Ltac reckon := vm_compute; first [reflexivity | discriminate].

Ltac all_of := repeat (apply Forall_cons; [reckon|]); apply Forall_nil.

(** X1 on 1536 bytes: one and a half kilobytes. *)
Lemma format_bytes_exact_witness :
  format_bytes no_literal (PyInt 1536) = Ok "1.5 KB".
Proof.
  etransitivity.
  - apply (FloatFacts.format_bytes_exact no_literal 1536 1);
      [reckon | split; reckon | reckon].
  - vm_compute. reflexivity.
Defined.

(** X2 on the largest count shown in bytes. *)
Lemma format_bytes_below_1024_witness :
  format_bytes no_literal (PyInt 1023) = Ok "1023.0 B".
Proof.
  etransitivity.
  - apply (FloatFacts.format_bytes_below_1024 no_literal 1023). split; reckon.
  - vm_compute. reflexivity.
Defined.

(** X3 on seven of seven. *)
Lemma format_percentage_whole_witness :
  format_percentage no_literal (PyInt 7) (PyInt 7) = Ok "100.0%".
Proof.
  apply (ReportFacts.format_percentage_whole no_literal (PyInt 7)
           false 7881299347898368 (-50)).
  vm_compute. reflexivity.
Defined.

(** X4 on a total given as the text [0]. *)
Lemma format_percentage_zero_total_witness :
  format_percentage zero_literal (PyInt 5) (PyStr "0") = Ok "0%".
Proof.
  apply (ReportFacts.format_percentage_zero_total zero_literal
           (PyInt 5) (PyStr "0") false); reckon.
Defined.


(** X7 on one second before the start. *)
Lemma format_uptime_negative_witness :
  format_uptime no_int_literal (PyInt (-1)) = Ok "23:59:59".
Proof.
  destruct (ReportFacts.format_uptime_negative no_int_literal (-1) eq_refl)
    as [_ H].
  rewrite H. vm_compute. reflexivity.
Defined.

(** X8 on an uptime of zero seconds. *)
Lemma format_uptime_fallback_distinct_witness :
  format_uptime no_int_literal (PyInt 0) = Ok "00:00:00"
  /\ "00:00:00" <> "0:00:00".
Proof.
  split; [vm_compute; reflexivity|].
  apply (ReportFacts.format_uptime_fallback_distinct no_int_literal
           (PyInt 0) 0 "00:00:00"); vm_compute; reflexivity.
Defined.

(** X9 on a table with a short row and a row with a cell too many. *)
Lemma print_table_aligned_witness :
  List.length
    (print_table ["Name"; "Size"]
       [["tmp"]; ["thumbnails"; "1.5 KB"; "extra"]] 4) = 3%nat
  /\ print_table ["Name"; "Size"]
       (map (firstn (List.length ["Name"; "Size"]))
            [["tmp"]; ["thumbnails"; "1.5 KB"; "extra"]]) 4
     = print_table ["Name"; "Size"]
         [["tmp"]; ["thumbnails"; "1.5 KB"; "extra"]] 4
  /\ print_table ["Name"; "Size"]
       [["tmp"]; ["thumbnails"; "1.5 KB"; "extra"]] 4
     = [ line "Name          Size  ";
         line "tmp                 ";
         line "thumbnails    1.5 KB" ].
Proof.
  destruct (TableFacts.print_table_aligned ["Name"; "Size"]
              [["tmp"]; ["thumbnails"; "1.5 KB"; "extra"]] 4)
    as (Hlen & _ & _ & Hcut); [discriminate|].
  split; [exact Hlen|]. split; [exact Hcut|]. vm_compute. reflexivity.
Defined.

(** X10 on the sample file: the second [PRETTY_NAME] line wins. *)
Lemma get_os_info_pretty_name_witness :
  get_os_info
    (Some (firstn 3 os_release
             ++ nth 3 os_release "" :: skipn 4 os_release)%list)
    "Linux" "6.8"
  = "Fedora Linux 40 (a=b)"
  /\ (firstn 3 os_release ++ nth 3 os_release "" :: skipn 4 os_release)%list
     = os_release.
Proof.
  split; [|reflexivity].
  apply (OsFacts.get_os_info_pretty_name
           (firstn 3 os_release) (skipn 4 os_release) (nth 3 os_release "")
           "Fedora Linux 40 (a=b)" "Linux" "6.8").
  - vm_compute. reflexivity.
  - all_of.
Defined.

(** X11 on the sample file without its [PRETTY_NAME] lines. *)
Lemma get_os_info_name_fallback_witness :
  get_os_info
    (Some (firstn 1 os_release
             ++ nth 1 os_release "" :: skipn 4 os_release)%list)
    "Linux" "6.8"
  = "Fedora Linux".
Proof.
  apply (OsFacts.get_os_info_name_fallback
           (firstn 1 os_release) (skipn 4 os_release) (nth 1 os_release "")
           "Fedora Linux" "Linux" "6.8").
  - all_of.
  - vm_compute. reflexivity.
  - all_of.
Defined.

(** X12 on a file that holds a comment and an [ID] only. *)
Lemma get_os_info_unknown_witness :
  get_os_info (Some (firstn 1 os_release ++ skipn 4 os_release)%list)
    "Linux" "6.8"
  = "Unknown".
Proof.
  apply (OsFacts.get_os_info_unknown
           (firstn 1 os_release ++ skipn 4 os_release)%list "Linux" "6.8");
    all_of.
Defined.

(** X13 on a quoted value that holds an [=]. *)
Lemma os_release_entry_first_equals_witness :
  os_release_entry (nth 3 os_release "")
  = Some ("PRETTY_NAME", "Fedora Linux 40 (a=b)").
Proof.
  etransitivity.
  - apply (OsFacts.os_release_entry_first_equals (nth 3 os_release "")
             "PRETTY_NAME"
             (String quote ("Fedora Linux 40 (a=b)" ++ String quote "")));
      vm_compute; reflexivity.
  - vm_compute. reflexivity.
Defined.

(** X15 on the sample host: the rotated logs among the system logs. *)
Lemma old_logs_within_system_logs_witness :
  exists logs old,
    dict_get "system_logs" (scan_cleanable_items fedora_host) = Some logs
    /\ dict_get "old_logs" (scan_cleanable_items fedora_host) = Some old
    /\ 0 <= old <= logs.
Proof.
  apply (CleanerFacts.old_logs_within_system_logs fedora_host);
    vm_compute; reflexivity.
Defined.

(** X17 on a host where the third [find] cannot be started, and on one
    where every [find] succeeds. *)
Lemma clean_old_logs_run_witness :
  outcome (clean_old_logs third_find_refused fedora_user) = Raise OSError
  /\ spawns (trace (clean_old_logs third_find_refused fedora_user))
     = map delete_logs_command [".gz"; ".old"; ".1"]
  /\ outcome (clean_old_logs no_which fedora_user) = Ok tt.
Proof.
  split; [reckon|]. split; [reckon|].
  apply (CleanerFacts.clean_old_logs_run no_which fedora_user).
  intros c w0 e Hin H.
  destruct Hin as [<-|[<-|[<-|[<-|[]]]]]; discriminate H.
Defined.

(** X18 on a host without [which]. *)
Lemma run_actions_without_which_witness :
  Forall (fun c => starts_tool c = false)
         (spawns (trace (run_actions no_which
                           (scan_cleanable_items fedora_user) fedora_user))).
Proof.
  apply (CleanerFacts.run_actions_without_which no_which).
  intros tool w. exact I.
Defined.


(** X24 on the sample host: the answer [ Y ] is accepted. *)
Lemma actions_follow_snapshot_witness :
  let r := perform_cleaning no_literal (apt_only after) false (host " Y ") in
  confirmed (trace r)
  /\ calls (trace r) = ["clean_apt_cache"; "clean_old_logs"].
Proof.
  cbv zeta.
  destruct (CliFacts.actions_follow_snapshot no_literal (apt_only after) false
              (host " Y ")) as (Hcalls & _ & Hreach).
  assert (Hc : confirmed (trace (perform_cleaning no_literal (apt_only after)
                                   false (host " Y ")))).
  { apply (Hreach " Y " [] eq_refl eq_refl eq_refl). all_of. }
  split; [exact Hc|].
  destruct (Hcalls Hc) as (_ & Hall & _).
  rewrite Hall; reckon.
Defined.

(** X20 on the sample host, whose standard input is empty. *)
Lemma main_clean_without_input_witness :
  status (main_clean no_literal no_which message false fedora_host) = 1
  /\ stderr (main_clean no_literal no_which message false fedora_host)
     = [line (nl ++ "Error: " ++ message EOFError)]
  /\ final (session (main_clean no_literal no_which message false fedora_host))
     = fedora_host.
Proof.
  destruct (CliFacts.main_clean_without_input no_literal no_which message
              fedora_host)
    as (Hstatus & Herr & Hfinal & _); [reflexivity | all_of |].
  split; [exact Hstatus|]. split; [exact Herr | exact Hfinal].
Defined.

(** X21 on the journal of the sample host. *)
Lemma get_dir_size_subdirectory_witness :
  0 <= get_dir_size fedora (var_log ++ ["journal"])%list
    <= get_dir_size fedora var_log.
Proof.
  eapply (NestingFacts.get_dir_size_subdirectory fedora var_log "journal");
    vm_compute; reflexivity.
Defined.

(** X22 on the sample host: thumbnails and journal. *)
Lemma nested_categories_counted_twice_witness :
  (exists cache thumbs,
     dict_get "user_cache" (scan_cleanable_items fedora_host) = Some cache
     /\ dict_get "thumbnail_cache" (scan_cleanable_items fedora_host)
        = Some thumbs
     /\ 0 <= thumbs <= cache)
  /\ (exists logs journal,
        dict_get "system_logs" (scan_cleanable_items fedora_host) = Some logs
        /\ dict_get "journal_logs" (scan_cleanable_items fedora_host)
           = Some journal
        /\ 0 <= journal <= logs).
Proof.
  destruct (NestingFacts.nested_categories_counted_twice fedora_host)
    as [Hthumbs Hjournal]; [reckon | reckon |].
  split; [eapply Hthumbs | eapply Hjournal]; vm_compute; reflexivity.
Defined.

(** X23 on the snapshot of the sample host. *)
Lemma summary_shows_every_entry_witness :
  outcome (show_cleanable_summary no_literal
             (scan_cleanable_items fedora_host) fedora_host) = Ok tt
  /\ exists text,
       format_bytes no_literal (PyInt 30) = Ok text
       /\ In (Write (line (key_value "Thumbnail Cache" text)))
             (trace (show_cleanable_summary no_literal
                       (scan_cleanable_items fedora_host) fedora_host)).
Proof.
  destruct (SummaryFacts.summary_shows_every_entry no_literal
              (scan_cleanable_items fedora_host) fedora_host)
    as (Ho & _ & Hrows & _); [all_of|].
  split; [exact Ho|].
  apply (Hrows "thumbnail_cache" "Thumbnail Cache" 30).
  - unfold row_labels. do 4 right. left. reflexivity.
  - vm_compute. reflexivity.
Defined.

End Samples.
